(** * modern-table: the derived-view pipeline and its feature states

    A shallow embedding of the TypeScript sources of the table component
    (features/*.feature.ts, the column utilities and table.ts) together with
    the properties of the specification that are checked against them.

    Conventions of the embedding.
    - A JavaScript value stored in a row is a [value]; numbers are the
      integer-valued doubles (pixel sizes, counts, ids), so [Z].
    - The result of a numeric coercion or of a division is a [jsnum], which
      adds [NaN] and the two infinities.
    - Strings are [string]; [toLowerCase] folds the ASCII letters.
    - A row is a finite map from field names to values; reading an absent
      field gives [VUndefined].
    - A signal-based feature state is a record; an operation that writes
      signals and emits events returns the new state and the list of emitted
      events. *)

From Stdlib Require Import ZArith Lia List Ascii String Bool Sorted.
From stdpp Require Import base decidable countable gmap sets list strings pretty sorting.

Local Open Scope string_scope.
Local Open Scope Z_scope.

(** ** JavaScript values *)

Inductive value : Type :=
  | VUndefined
  | VNull
  | VBool (b : bool)
  | VNum (n : Z)
  | VStr (s : string).

Inductive jsnum : Type :=
  | Num (n : Z)
  | PosInf
  | NegInf
  | NaN.

#[global] Instance value_eq_dec : EqDecision value.
Proof. solve_decision. Defined.

#[global] Instance jsnum_eq_dec : EqDecision jsnum.
Proof. solve_decision. Defined.

Definition value_to_sum (v : value) : (bool + bool) + (Z + string) :=
  match v with
  | VUndefined => inl (inl true)
  | VNull => inl (inl false)
  | VBool b => inl (inr b)
  | VNum n => inr (inl n)
  | VStr s => inr (inr s)
  end.

Definition value_of_sum (x : (bool + bool) + (Z + string)) : value :=
  match x with
  | inl (inl true) => VUndefined
  | inl (inl false) => VNull
  | inl (inr b) => VBool b
  | inr (inl n) => VNum n
  | inr (inr s) => VStr s
  end.

#[global] Instance value_countable : Countable value.
Proof.
  refine (inj_countable' value_to_sum value_of_sum _).
  intros []; reflexivity.
Defined.

(** A row: [row[key]] is [undefined] for an absent field. *)
Abbreviation Row := (gmap string value).

Definition getField (row : Row) (key : string) : value :=
  default VUndefined (row !! key).

(** *** Strings *)

Definition lower_ascii (c : ascii) : ascii :=
  let n := nat_of_ascii c in
  if (Nat.leb 65 n && Nat.leb n 90)%bool then ascii_of_nat (n + 32) else c.

Fixpoint toLowerCase (s : string) : string :=
  match s with
  | EmptyString => EmptyString
  | String c s' => String (lower_ascii c) (toLowerCase s')
  end.

Fixpoint startsWith (s p : string) : bool :=
  match p, s with
  | EmptyString, _ => true
  | String _ _, EmptyString => false
  | String a p', String b s' => if decide (a = b) then startsWith s' p' else false
  end.

Fixpoint includes (s sub : string) : bool :=
  startsWith s sub ||
  match s with
  | EmptyString => false
  | String _ s' => includes s' sub
  end.

Fixpoint string_rev (s : string) : string :=
  match s with
  | EmptyString => EmptyString
  | String c s' => string_rev s' +:+ String c EmptyString
  end.

Definition endsWith (s p : string) : bool :=
  startsWith (string_rev s) (string_rev p).

Definition is_js_space (c : ascii) : bool :=
  let n := nat_of_ascii c in
  (Nat.eqb n 32 || (Nat.leb 9 n && Nat.leb n 13))%bool.

Fixpoint trimStart (s : string) : string :=
  match s with
  | EmptyString => EmptyString
  | String c s' => if is_js_space c then trimStart s' else s
  end.

Definition trim (s : string) : string :=
  string_rev (trimStart (string_rev (trimStart s))).

Definition string_eqb (a b : string) : bool := bool_decide (a = b).

(** [String(v)]. *)
Definition js_String (v : value) : string :=
  match v with
  | VUndefined => "undefined"
  | VNull => "null"
  | VBool true => "true"
  | VBool false => "false"
  | VNum n => pretty n
  | VStr s => s
  end.

(** JavaScript truthiness of a string: only the empty string is falsy. *)
Definition str_truthy (s : string) : bool := negb (string_eqb s "").

(** *** Numbers *)

Definition digit_of (c : ascii) : option Z :=
  let n := nat_of_ascii c in
  if (Nat.leb 48 n && Nat.leb n 57)%bool then Some (Z.of_nat (n - 48)) else None.

Fixpoint parse_digits (acc : Z) (s : string) : option Z :=
  match s with
  | EmptyString => Some acc
  | String c s' =>
      match digit_of c with
      | Some d => parse_digits (10 * acc + d) s'
      | None => None
      end
  end.

Definition parse_unsigned (s : string) : jsnum :=
  match s with
  | EmptyString => NaN
  | _ => if string_eqb s "Infinity" then PosInf
         else match parse_digits 0 s with Some n => Num n | None => NaN end
  end.

Definition jsnum_neg (x : jsnum) : jsnum :=
  match x with
  | Num n => Num (- n)
  | PosInf => NegInf
  | NegInf => PosInf
  | NaN => NaN
  end.

(** [Number(s)] for a string: surrounding white space is dropped, the empty
    string is 0, a signed run of decimal digits is that integer, [Infinity]
    is recognised; every other text is [NaN].  (Fractions, exponents and
    radix prefixes denote numbers outside the integer model.) *)
Definition string_to_number (s : string) : jsnum :=
  match trim s with
  | EmptyString => Num 0
  | String "+" r => parse_unsigned r
  | String "-" r => jsnum_neg (parse_unsigned r)
  | t => parse_unsigned t
  end.

(** [Number(v)]. *)
Definition js_Number (v : value) : jsnum :=
  match v with
  | VUndefined => NaN
  | VNull => Num 0
  | VBool true => Num 1
  | VBool false => Num 0
  | VNum n => Num n
  | VStr s => string_to_number s
  end.

(** The relational operators on numbers; any comparison with [NaN] is
    false. *)
Definition js_lt (a b : jsnum) : bool :=
  match a, b with
  | NaN, _ | _, NaN => false
  | Num x, Num y => x <? y
  | NegInf, NegInf => false
  | NegInf, _ => true
  | _, PosInf => match a with PosInf => false | _ => true end
  | _, _ => false
  end.

Definition js_eq_num (a b : jsnum) : bool :=
  match a, b with
  | Num x, Num y => x =? y
  | PosInf, PosInf | NegInf, NegInf => true
  | _, _ => false
  end.

Definition js_gt (a b : jsnum) : bool := js_lt b a.
Definition js_le (a b : jsnum) : bool := js_lt a b || js_eq_num a b.
Definition js_ge (a b : jsnum) : bool := js_lt b a || js_eq_num a b.

(** Arithmetic of [Math.floor(a / b)], [Math.ceil(a / b)], [+], [-], [*],
    [Math.max] and [Math.min] on integers extended with the IEEE special
    values a division by zero produces. *)
Definition js_div_special (a : Z) : jsnum :=
  if a =? 0 then NaN else if 0 <? a then PosInf else NegInf.

Definition js_floor_div (a b : Z) : jsnum :=
  if b =? 0 then js_div_special a else Num (a / b).

Definition js_ceil_div (a b : Z) : jsnum :=
  if b =? 0 then js_div_special a else Num (- ((- a) / b)).

Definition js_add (x y : jsnum) : jsnum :=
  match x, y with
  | NaN, _ | _, NaN => NaN
  | Num a, Num b => Num (a + b)
  | PosInf, NegInf | NegInf, PosInf => NaN
  | PosInf, _ | _, PosInf => PosInf
  | NegInf, _ | _, NegInf => NegInf
  end.

Definition js_sub (x y : jsnum) : jsnum := js_add x (jsnum_neg y).

Definition js_mul (x y : jsnum) : jsnum :=
  match x, y with
  | NaN, _ | _, NaN => NaN
  | Num a, Num b => Num (a * b)
  | Num a, PosInf | PosInf, Num a => js_div_special a
  | Num a, NegInf | NegInf, Num a => jsnum_neg (js_div_special a)
  | PosInf, PosInf | NegInf, NegInf => PosInf
  | PosInf, NegInf | NegInf, PosInf => NegInf
  end.

Definition js_max (x y : jsnum) : jsnum :=
  match x, y with
  | NaN, _ | _, NaN => NaN
  | _, _ => if js_lt x y then y else x
  end.

Definition js_min (x y : jsnum) : jsnum :=
  match x, y with
  | NaN, _ | _, NaN => NaN
  | _, _ => if js_lt y x then y else x
  end.

(** *** Arrays *)

(** The integer an index argument of [slice] stands for, relative to an
    array of length [len] (ToIntegerOrInfinity, then the clamping of
    Array.prototype.slice). *)
Definition slice_index (len : Z) (i : jsnum) : Z :=
  match i with
  | NaN => 0
  | PosInf => len
  | NegInf => 0
  | Num n => if n <? 0 then Z.max (len + n) 0 else Z.min n len
  end.

(** [l.slice(start, end)]. *)
Definition js_slice {A} (start end_ : jsnum) (l : list A) : list A :=
  let len := Z.of_nat (length l) in
  let k := slice_index len start in
  let final := slice_index len end_ in
  take (Z.to_nat (final - k)) (drop (Z.to_nat k) l).

(** [l.findIndex(p)], with -1 when no element satisfies [p]. *)
Fixpoint findIndex {A} (p : A → bool) (l : list A) : Z :=
  match l with
  | [] => -1
  | x :: l' => if p x then 0
               else let i := findIndex p l' in if i <? 0 then -1 else i + 1
  end.

(** [l.sort(cmp)]: a stable sort; [cmp a b <= 0] keeps [a] before [b].
    For a comparator that is a consistent ordering every conforming engine
    returns this list; the insertion order fixes the result for the others. *)
Fixpoint sort_insert {A} (cmp : A → A → Z) (x : A) (l : list A) : list A :=
  match l with
  | [] => [x]
  | y :: l' => if cmp x y <=? 0 then x :: y :: l' else y :: sort_insert cmp x l'
  end.

Definition js_sort {A} (cmp : A → A → Z) (l : list A) : list A :=
  foldr (sort_insert cmp) [] l.

(** ** table.types.ts *)

Inductive SortDirection := Asc | Desc | DirNull.

Inductive FrozenPosition := FrozenLeft | FrozenRight.

Inductive SelectionMode := Single | Multiple.

#[global] Instance SortDirection_eq_dec : EqDecision SortDirection.
Proof. solve_decision. Defined.
#[global] Instance FrozenPosition_eq_dec : EqDecision FrozenPosition.
Proof. solve_decision. Defined.
#[global] Instance SelectionMode_eq_dec : EqDecision SelectionMode.
Proof. solve_decision. Defined.

(** [ColumnConfig]; an optional property is an [option], [None] standing
    for an absent property.  The presentation-only properties (dateFormat,
    templateName, filterOptions, formatter) are left out. *)
Record ColumnConfig := mkColumn {
  col_key : string;
  col_title : string;
  col_order : Z;
  col_width : option Z;
  col_minWidth : option Z;
  col_maxWidth : option Z;
  col_sortable : option bool;
  col_filterable : option bool;
  col_resizable : option bool;
  col_frozen : option bool;
  col_frozenPosition : option FrozenPosition;
  col_align : option string;
  col_cellType : option string;
  col_visible : option bool;
  col_filterType : option string;
  col_sortComparator : option (Row → Row → SortDirection → Z);
  col_isComputed : option bool;
}.

Record SortConfig := mkSort {
  sort_key : string;
  sort_direction : SortDirection;
  sort_order : Z;
}.

Inductive FilterOperator :=
  | FEquals | FNotEquals | FContains | FNotContains | FStartsWith | FEndsWith
  | FGreaterThan | FLessThan | FGreaterThanOrEqual | FLessThanOrEqual
  | FBetween | FInList
  | FUnknown (name : string).

(** The [value: any] of a filter entry: a scalar or an array of scalars. *)
Inductive FilterValue :=
  | FScalar (v : value)
  | FArray (vs : list value).

Record FilterConfig := mkFilter {
  filter_key : string;
  filter_value : FilterValue;
  filter_operator : FilterOperator;
}.

Record TableConfig := mkTableConfig {
  enableMultiSort : option bool;
  enablePagination : option bool;
  enableRowSelection : option bool;
  enableVirtualScroll : option bool;
  virtualScrollItemHeight : option Z;
  virtualScrollBufferSize : option Z;
  cfg_pageSize : option Z;
  selectionMode : option SelectionMode;
  showSelectionCheckbox : option bool;
  tableHeight : option Z;
  rowKeyField : option string;
}.

Definition DEFAULT_TABLE_CONFIG : TableConfig := {|
  enableMultiSort := Some true;
  enablePagination := Some true;
  enableRowSelection := Some true;
  enableVirtualScroll := Some false;
  virtualScrollItemHeight := Some 48;
  virtualScrollBufferSize := Some 5;
  cfg_pageSize := Some 10;
  selectionMode := Some Multiple;
  showSelectionCheckbox := Some true;
  tableHeight := Some 600;
  rowKeyField := Some "id";
|}.

(** [a ?? b] and the override of a spread [{...d, ...c}] on one property. *)
Definition orElse {A} (a : option A) (b : option A) : option A :=
  match a with Some _ => a | None => b end.

(** [{ ...DEFAULT_TABLE_CONFIG, ...config }]. *)
Definition mergeTableConfig (c : TableConfig) : TableConfig := {|
  enableMultiSort := orElse (enableMultiSort c) (enableMultiSort DEFAULT_TABLE_CONFIG);
  enablePagination := orElse (enablePagination c) (enablePagination DEFAULT_TABLE_CONFIG);
  enableRowSelection := orElse (enableRowSelection c) (enableRowSelection DEFAULT_TABLE_CONFIG);
  enableVirtualScroll := orElse (enableVirtualScroll c) (enableVirtualScroll DEFAULT_TABLE_CONFIG);
  virtualScrollItemHeight :=
    orElse (virtualScrollItemHeight c) (virtualScrollItemHeight DEFAULT_TABLE_CONFIG);
  virtualScrollBufferSize :=
    orElse (virtualScrollBufferSize c) (virtualScrollBufferSize DEFAULT_TABLE_CONFIG);
  cfg_pageSize := orElse (cfg_pageSize c) (cfg_pageSize DEFAULT_TABLE_CONFIG);
  selectionMode := orElse (selectionMode c) (selectionMode DEFAULT_TABLE_CONFIG);
  showSelectionCheckbox :=
    orElse (showSelectionCheckbox c) (showSelectionCheckbox DEFAULT_TABLE_CONFIG);
  tableHeight := orElse (tableHeight c) (tableHeight DEFAULT_TABLE_CONFIG);
  rowKeyField := orElse (rowKeyField c) (rowKeyField DEFAULT_TABLE_CONFIG);
|}.

(** Truthiness of an optional boolean property. *)
Definition truthy (b : option bool) : bool := default false b.

(** [config.rowKeyField || 'id']. *)
Definition keyFieldOf (c : TableConfig) : string :=
  match rowKeyField c with
  | Some f => if str_truthy f then f else "id"
  | None => "id"
  end.

(** ** features/filtering.feature.ts *)

Record FilteringState := mkFilteringState {
  filters : list FilterConfig;
  filterInputs : gmap string string;
}.

Record FilterChangeEvent := mkFilterChange { fce_filters : list FilterConfig }.

Definition createFilteringState : FilteringState :=
  {| filters := []; filterInputs := ∅ |}.

Definition getDefaultOperator (filterType : string) : FilterOperator :=
  if string_eqb filterType "number" then FEquals
  else if string_eqb filterType "date" then FEquals
  else if string_eqb filterType "boolean" then FEquals
  else FContains.

(** [column.filterType || 'text']. *)
Definition filterTypeOr (c : ColumnConfig) : string :=
  match col_filterType c with
  | Some t => if str_truthy t then t else "text"
  | None => "text"
  end.

Definition handleFilterInput (column : ColumnConfig) (v : string)
    (state : FilteringState) : FilteringState * list FilterChangeEvent :=
  let inputs := <[col_key column := v]> (filterInputs state) in
  let currentFilters :=
    filter (λ f, filter_key f ≠ col_key column) (filters state) in
  let currentFilters :=
    if str_truthy (trim v)
    then (currentFilters ++
         [ {| filter_key := col_key column;
              filter_value := FScalar (VStr (trim v));
              filter_operator := getDefaultOperator (filterTypeOr column) |} ])%list
    else currentFilters in
  ({| filters := currentFilters; filterInputs := inputs |},
   [ mkFilterChange currentFilters ]).

Definition getFilterValue (key : string) (state : FilteringState) : string :=
  default "" (filterInputs state !! key).

Definition clearFilter (key : string) (state : FilteringState)
    : FilteringState * list FilterChangeEvent :=
  let currentFilters := filter (λ f, filter_key f ≠ key) (filters state) in
  ({| filters := currentFilters; filterInputs := delete key (filterInputs state) |},
   [ mkFilterChange currentFilters ]).

Definition clearAllFilters (state : FilteringState)
    : FilteringState * list FilterChangeEvent :=
  ({| filters := []; filterInputs := ∅ |}, [ mkFilterChange [] ]).

(** An array element inside [String(array)]: null and undefined print as
    the empty string. *)
Definition array_elem_String (v : value) : string :=
  match v with
  | VUndefined | VNull => ""
  | _ => js_String v
  end.

Fixpoint join_comma (l : list string) : string :=
  match l with
  | [] => ""
  | [x] => x
  | x :: l' => x +:+ "," +:+ join_comma l'
  end.

Definition filterValue_String (fv : FilterValue) : string :=
  match fv with
  | FScalar v => js_String v
  | FArray vs => join_comma (array_elem_String <$> vs)
  end.

Definition filterValue_Number (fv : FilterValue) : jsnum :=
  match fv with
  | FScalar v => js_Number v
  | FArray vs => string_to_number (join_comma (array_elem_String <$> vs))
  end.

Definition applyFilterToRow (row : Row) (f : FilterConfig) : bool :=
  let v := getField row (filter_key f) in
  let filterValue := filter_value f in
  let lv := toLowerCase (js_String v) in
  let lf := toLowerCase (filterValue_String filterValue) in
  match filter_operator f with
  | FEquals => string_eqb lv lf
  | FNotEquals => negb (string_eqb lv lf)
  | FContains => includes lv lf
  | FNotContains => negb (includes lv lf)
  | FStartsWith => startsWith lv lf
  | FEndsWith => endsWith lv lf
  | FGreaterThan => js_gt (js_Number v) (filterValue_Number filterValue)
  | FLessThan => js_lt (js_Number v) (filterValue_Number filterValue)
  | FGreaterThanOrEqual => js_ge (js_Number v) (filterValue_Number filterValue)
  | FLessThanOrEqual => js_le (js_Number v) (filterValue_Number filterValue)
  | FBetween =>
      match filterValue with
      | FArray [lo; hi] =>
          js_ge (js_Number v) (js_Number lo) && js_le (js_Number v) (js_Number hi)
      | _ => true
      end
  | FInList =>
      match filterValue with
      | FArray vs =>
          existsb (λ x, string_eqb lv (toLowerCase (js_String x))) vs
      | _ => true
      end
  | FUnknown _ => true
  end.

Definition applyFiltering (data : list Row) (state : FilteringState) : list Row :=
  let activeFilters := filters state in
  match activeFilters with
  | [] => data
  | _ => List.filter (λ row, forallb (applyFilterToRow row) activeFilters) data
  end.

(** ** features/sorting.feature.ts *)

Record SortingState := mkSortingState { sorts : list SortConfig }.

Record SortChangeEvent := mkSortChange { sce_sorts : list SortConfig }.

Definition createSortingState : SortingState := {| sorts := [] |}.

(** [activeSorts.sort((x, y) => x.order - y.order)]. *)
Definition orderedSorts (activeSorts : list SortConfig) : list SortConfig :=
  js_sort (λ x y, sort_order x - sort_order y) activeSorts.

(** The body of the [for (const sort of ...)] loop of the comparator that
    [applySorting] hands to [sort], for the remaining entries [ss]. *)
Fixpoint compareRows (columns : list ColumnConfig)
    (defaultCompare : value → value → Z)
    (ss : list SortConfig) (a b : Row) : Z :=
  match ss with
  | [] => 0
  | sort :: rest =>
      let column := List.find (λ c, string_eqb (col_key c) (sort_key sort)) columns in
      let comparison :=
        match column ≫= col_sortComparator with
        | Some cmp => cmp a b (sort_direction sort)
        | None => defaultCompare (getField a (sort_key sort)) (getField b (sort_key sort))
        end in
      let comparison :=
        if decide (sort_direction sort = Desc) then comparison * -1 else comparison in
      if decide (comparison ≠ 0) then comparison
      else compareRows columns defaultCompare rest a b
  end.

Definition applySorting (data : list Row) (state : SortingState)
    (columns : list ColumnConfig) (defaultCompare : value → value → Z) : list Row :=
  let activeSorts := sorts state in
  match activeSorts with
  | [] => data
  | _ => js_sort (compareRows columns defaultCompare (orderedSorts activeSorts)) data
  end.

Definition resetSorting (state : SortingState) : SortingState * list SortChangeEvent :=
  ({| sorts := [] |}, [ mkSortChange [] ]).

(** ** features/pagination.feature.ts *)

Record PaginationState := mkPaginationState {
  currentPage : Z;
  pageSize : Z;
}.

Record PageChangeEvent := mkPageChange { pce_page : Z; pce_pageSize : Z }.

Definition createPaginationState (initialPageSize : Z) : PaginationState :=
  {| currentPage := 1; pageSize := initialPageSize |}.

Definition computeTotalPages (totalItems pageSize : Z) : jsnum :=
  js_ceil_div totalItems pageSize.

(** [page: number | string]. *)
Inductive PageArg :=
  | PageNumber (p : Z)
  | PageString (s : string).

Definition goToPage (page : PageArg) (state : PaginationState) (totalItems : Z)
    : PaginationState * list PageChangeEvent :=
  match page with
  | PageString _ => (state, [])
  | PageNumber p =>
      let totalPages := computeTotalPages totalItems (pageSize state) in
      if js_lt (Num p) (Num 1) || js_gt (Num p) totalPages then (state, [])
      else ({| currentPage := p; pageSize := pageSize state |},
            [ {| pce_page := p; pce_pageSize := pageSize state |} ])
  end.

Definition changePageSize (size : Z) (state : PaginationState)
    : PaginationState * list PageChangeEvent :=
  ({| currentPage := 1; pageSize := size |},
   [ {| pce_page := 1; pce_pageSize := size |} ]).

Definition goToPreviousPage (state : PaginationState) (totalItems : Z)
    : PaginationState * list PageChangeEvent :=
  if 1 <? currentPage state
  then goToPage (PageNumber (currentPage state - 1)) state totalItems
  else (state, []).

Definition goToNextPage (state : PaginationState) (totalItems : Z)
    : PaginationState * list PageChangeEvent :=
  let totalPages := computeTotalPages totalItems (pageSize state) in
  if js_lt (Num (currentPage state)) totalPages
  then goToPage (PageNumber (currentPage state + 1)) state totalItems
  else (state, []).

Definition applyPagination (data : list Row) (state : PaginationState)
    (enablePagination : bool) : list Row :=
  if negb enablePagination then data
  else
    let start := (currentPage state - 1) * pageSize state in
    let end_ := start + pageSize state in
    js_slice (Num start) (Num end_) data.

Definition resetPagination (state : PaginationState) : PaginationState :=
  {| currentPage := 1; pageSize := pageSize state |}.

(** ** features/virtual-scroll.feature.ts *)

Record VirtualScrollState := mkVirtualScrollState { scrollTop : Z }.

Record VirtualScrollData := mkVirtualScrollData {
  visibleData : list Row;
  startIndex : jsnum;
  endIndex : jsnum;
  offsetY : jsnum;
  totalHeight : Z;
}.

Record VirtualScrollConfig := mkVirtualScrollConfig {
  enabled : bool;
  itemHeight : Z;
  bufferSize : Z;
  containerHeight : Z;
}.

Definition createVirtualScrollState : VirtualScrollState := {| scrollTop := 0 |}.

(** The local [visibleCount] of [computeVirtualScrollData]. *)
Definition visibleCount (config : VirtualScrollConfig) : jsnum :=
  js_add (js_ceil_div (containerHeight config) (itemHeight config))
         (Num (bufferSize config * 2)).

Definition computeVirtualScrollData (data paginatedData : list Row)
    (state : VirtualScrollState) (config : VirtualScrollConfig) : VirtualScrollData :=
  if negb (enabled config) then
    {| visibleData := paginatedData;
       startIndex := Num 0;
       endIndex := Num (Z.of_nat (length paginatedData));
       offsetY := Num 0;
       totalHeight := Z.of_nat (length paginatedData) * itemHeight config |}
  else
    let scrollPos := scrollTop state in
    let startIndex :=
      js_max (Num 0)
             (js_sub (js_floor_div scrollPos (itemHeight config))
                     (Num (bufferSize config))) in
    let endIndex :=
      js_min (Num (Z.of_nat (length data))) (js_add startIndex (visibleCount config)) in
    {| visibleData := js_slice startIndex endIndex data;
       startIndex := startIndex;
       endIndex := endIndex;
       offsetY := js_mul startIndex (Num (itemHeight config));
       totalHeight := Z.of_nat (length data) * itemHeight config |}.

Definition getVirtualScrollConfig (config : TableConfig) : VirtualScrollConfig :=
  {| enabled := default false (enableVirtualScroll config);
     itemHeight := default 48 (virtualScrollItemHeight config);
     bufferSize := default 5 (virtualScrollBufferSize config);
     containerHeight := default 600 (tableHeight config) |}.

(** ** features/selection.feature.ts *)

Record SelectionState := mkSelectionState { selectedRows : gset value }.

Record RowSelectionEvent := mkRowSelectionEvent {
  rse_selected : list Row;
  rse_row : option Row;
  rse_isSelected : bool;
}.

Record SelectionDeps := mkSelectionDeps {
  deps_data : list Row;
  deps_paginatedData : list Row;
  deps_config : TableConfig;
}.

Definition createSelectionState : SelectionState := {| selectedRows := ∅ |}.

Definition emitSelectionChange (row : option Row) (isSelected : bool)
    (state : SelectionState) (deps : SelectionDeps) : list RowSelectionEvent :=
  let keyField := keyFieldOf (deps_config deps) in
  let selectedData :=
    List.filter (λ r, bool_decide (getField r keyField ∈ selectedRows state))
                (deps_data deps) in
  [ {| rse_selected := selectedData; rse_row := row; rse_isSelected := isSelected |} ].

Definition toggleRowSelection (row : Row) (state : SelectionState)
    (deps : SelectionDeps) : SelectionState * list RowSelectionEvent :=
  let config := deps_config deps in
  if negb (truthy (enableRowSelection config)) then (state, [])
  else
    let key := getField row (keyFieldOf config) in
    let selected := selectedRows state in
    let selected : gset value :=
      if decide (selectionMode config = Some Single) then
        if decide (key ∈ selected) then ∅ else {[ key ]}
      else
        if decide (key ∈ selected) then selected ∖ {[ key ]} else selected ∪ {[ key ]} in
    let state' := {| selectedRows := selected |} in
    (state', emitSelectionChange (Some row) (bool_decide (key ∈ selected)) state' deps).

Definition toggleAllSelection (allSelected : bool) (state : SelectionState)
    (deps : SelectionDeps) : SelectionState * list RowSelectionEvent :=
  let config := deps_config deps in
  let keyField := keyFieldOf config in
  let data := deps_paginatedData deps in
  let selected := selectedRows state in
  let selected : gset value :=
    if allSelected
    then foldl (λ acc row, acc ∖ {[ getField row keyField ]}) selected data
    else foldl (λ acc row, acc ∪ {[ getField row keyField ]}) selected data in
  let state' := {| selectedRows := selected |} in
  (state', emitSelectionChange None (negb allSelected) state' deps).

Definition isRowSelected (row : Row) (state : SelectionState) (config : TableConfig) : bool :=
  bool_decide (getField row (keyFieldOf config) ∈ selectedRows state).

Definition computeAllSelected (paginatedData : list Row) (selectedRows : gset value)
    (keyField : string) : bool :=
  (0 <? Z.of_nat (length paginatedData)) &&
  forallb (λ row, bool_decide (getField row keyField ∈ selectedRows)) paginatedData.

Definition getSelectedRows (state : SelectionState) (deps : SelectionDeps) : list Row :=
  let keyField := keyFieldOf (deps_config deps) in
  List.filter (λ r, bool_decide (getField r keyField ∈ selectedRows state)) (deps_data deps).

Definition clearSelection (state : SelectionState)
    : SelectionState * list RowSelectionEvent :=
  ({| selectedRows := ∅ |},
   [ {| rse_selected := []; rse_row := None; rse_isSelected := false |} ]).

(** ** features/column-utils.feature.ts *)

(** [{ ...DEFAULT_COLUMN_CONFIG, ...col }]. *)
Definition processColumn (col : ColumnConfig) : ColumnConfig := {|
  col_key := col_key col;
  col_title := col_title col;
  col_order := col_order col;
  col_width := orElse (col_width col) (Some 150);
  col_minWidth := orElse (col_minWidth col) (Some 50);
  col_maxWidth := orElse (col_maxWidth col) (Some 500);
  col_sortable := orElse (col_sortable col) (Some true);
  col_filterable := orElse (col_filterable col) (Some true);
  col_resizable := orElse (col_resizable col) (Some true);
  col_frozen := orElse (col_frozen col) (Some false);
  col_frozenPosition := col_frozenPosition col;
  col_align := orElse (col_align col) (Some "left");
  col_cellType := orElse (col_cellType col) (Some "text");
  col_visible := orElse (col_visible col) (Some true);
  col_filterType := orElse (col_filterType col) (Some "text");
  col_sortComparator := col_sortComparator col;
  col_isComputed := col_isComputed col;
|}.

Definition processColumns (columns : list ColumnConfig) : list ColumnConfig :=
  processColumn <$> columns.

Definition getFrozenLeftColumns (columns : list ColumnConfig) : list ColumnConfig :=
  List.filter (λ col, truthy (col_frozen col) &&
                      negb (bool_decide (col_frozenPosition col = Some FrozenRight)))
              columns.

Definition getFrozenRightColumns (columns : list ColumnConfig) : list ColumnConfig :=
  List.filter (λ col, truthy (col_frozen col) &&
                      bool_decide (col_frozenPosition col = Some FrozenRight))
              columns.

Definition getScrollableColumns (columns : list ColumnConfig) : list ColumnConfig :=
  List.filter (λ col, negb (truthy (col_frozen col))) columns.

Definition getVisibleColumns (columns : list ColumnConfig) : list ColumnConfig :=
  List.filter (λ col, negb (bool_decide (col_visible col = Some false))) columns.

(** [column.width || 150]: the width every consumer of a column reads
    ([getColumnStyle], [startResize] and the two offset functions). *)
Definition widthOr150 (col : ColumnConfig) : Z :=
  match col_width col with
  | Some w => if w =? 0 then 150 else w
  | None => 150
  end.

(** The template literal [`${offset}px`]. *)
Definition px (offset : Z) : string := pretty offset +:+ "px".

Definition getFrozenLeftOffset (column : ColumnConfig)
    (frozenLeftColumns : list ColumnConfig) (config : TableConfig) : string :=
  let index :=
    findIndex (λ c, string_eqb (col_key c) (col_key column)) frozenLeftColumns in
  let offset := 0 in
  let offset :=
    if truthy (enableRowSelection config) && truthy (showSelectionCheckbox config)
    then offset + 48 else offset in
  let offset :=
    foldl (λ off c, off + widthOr150 c) offset
          (take (Z.to_nat index) frozenLeftColumns) in
  px offset.

Definition getFrozenRightOffset (column : ColumnConfig)
    (frozenRightColumns : list ColumnConfig) : string :=
  let index :=
    findIndex (λ c, string_eqb (col_key c) (col_key column)) frozenRightColumns in
  let offset :=
    foldl (λ off c, off + widthOr150 c) 0
          (rev (drop (Z.to_nat (index + 1)) frozenRightColumns)) in
  px offset.

Section DefaultCompare.
(** [String.prototype.localeCompare], which depends on the host locale. *)
Variable localeCompare : string → string → Z.

Definition defaultCompare (a b : value) : Z :=
  if decide (a = b) then 0
  else if decide (a = VNull ∨ a = VUndefined) then 1
  else if decide (b = VNull ∨ b = VUndefined) then -1
  else match a, b with
       | VNum x, VNum y => x - y
       | _, _ => localeCompare (js_String a) (js_String b)
       end.
End DefaultCompare.

(** ** features/computed-columns.feature.ts *)

Inductive ConditionOperator :=
  | CEquals | CNotEquals | CContains | CNotContains
  | CGreaterThan | CLessThan | CGreaterThanOrEqual | CLessThanOrEqual
  | CIsEmpty | CIsNotEmpty
  | CUnknown (name : string).

Record ColumnCondition := mkCondition {
  cond_id : string;
  sourceColumn : string;
  operator : ConditionOperator;
  compareValue : string;
  thenValue : string;
  elseValue : string;
}.

Record ComputedColumnDefinition := mkComputedColumn {
  cc_key : string;
  cc_title : string;
  conditions : list ColumnCondition;
  defaultValue : string;
}.

Record ComputedColumnsState := mkComputedColumnsState {
  computedColumns : list ComputedColumnDefinition;
  modalOpen : bool;
  editingColumn : option ComputedColumnDefinition;
}.

Definition createComputedColumnsState : ComputedColumnsState :=
  {| computedColumns := []; modalOpen := false; editingColumn := None |}.

Definition addComputedColumn (state : ComputedColumnsState)
    (column : ComputedColumnDefinition) : ComputedColumnsState :=
  {| computedColumns := (computedColumns state ++ [column])%list;
     modalOpen := modalOpen state; editingColumn := editingColumn state |}.

Definition removeComputedColumn (state : ComputedColumnsState)
    (columnKey : string) : ComputedColumnsState :=
  {| computedColumns := filter (λ c, cc_key c ≠ columnKey) (computedColumns state);
     modalOpen := modalOpen state; editingColumn := editingColumn state |}.

Definition isEmptyValue (v : value) : bool :=
  match v with
  | VNull | VUndefined => true
  | VStr s => string_eqb s ""
  | _ => false
  end.

Definition evaluateCondition (row : Row) (condition : ColumnCondition) : bool :=
  let sourceValue := getField row (sourceColumn condition) in
  let compareValue := compareValue condition in
  let ls := toLowerCase (js_String sourceValue) in
  let lc := toLowerCase compareValue in
  match operator condition with
  | CEquals => string_eqb ls lc
  | CNotEquals => negb (string_eqb ls lc)
  | CContains => includes ls lc
  | CNotContains => negb (includes ls lc)
  | CGreaterThan => js_gt (js_Number sourceValue) (string_to_number compareValue)
  | CLessThan => js_lt (js_Number sourceValue) (string_to_number compareValue)
  | CGreaterThanOrEqual => js_ge (js_Number sourceValue) (string_to_number compareValue)
  | CLessThanOrEqual => js_le (js_Number sourceValue) (string_to_number compareValue)
  | CIsEmpty => isEmptyValue sourceValue
  | CIsNotEmpty => negb (isEmptyValue sourceValue)
  | CUnknown _ => false
  end.

(** The [for (const condition of ...)] loop of [computeColumnValue]: the
    early [return condition.thenValue], or [None] when the loop runs out. *)
Fixpoint firstMatch (row : Row) (cs : list ColumnCondition) : option string :=
  match cs with
  | [] => None
  | condition :: rest =>
      if evaluateCondition row condition then Some (thenValue condition)
      else firstMatch row rest
  end.

Definition computeColumnValue (row : Row) (columnDef : ComputedColumnDefinition) : string :=
  match firstMatch row (conditions columnDef) with
  | Some v => v
  | None =>
      if str_truthy (defaultValue columnDef) then defaultValue columnDef
      else match conditions columnDef with
           | c :: _ => if str_truthy (elseValue c) then elseValue c else ""
           | [] => ""
           end
  end.

Definition computedColumnToColumnConfig (computedCol : ComputedColumnDefinition)
    (order : Z) : ColumnConfig := {|
  col_key := cc_key computedCol;
  col_title := cc_title computedCol;
  col_order := order;
  col_width := Some 150;
  col_minWidth := None;
  col_maxWidth := None;
  col_sortable := Some true;
  col_filterable := Some true;
  col_resizable := Some true;
  col_frozen := None;
  col_frozenPosition := None;
  col_align := None;
  col_cellType := Some "text";
  col_visible := None;
  col_filterType := None;
  col_sortComparator := None;
  col_isComputed := Some true;
|}.

(** ** features/coloring.feature.ts *)

Inductive PickerType := PickRow | PickColumn | PickCell.

Record ColorPickerContext := mkPickerContext {
  picker_type : PickerType;
  picker_rowKey : option value;
  picker_columnKey : option string;
  picker_position : Z * Z;
}.

Record ColoringState := mkColoringState {
  rowColors : gmap value string;
  columnColors : gmap string string;
  cellColors : gmap string string;
  activeColorPicker : option ColorPickerContext;
}.

Definition createColoringState : ColoringState :=
  {| rowColors := ∅; columnColors := ∅; cellColors := ∅; activeColorPicker := None |}.

Definition openColorPicker (state : ColoringState) (context : ColorPickerContext)
    : ColoringState :=
  {| rowColors := rowColors state; columnColors := columnColors state;
     cellColors := cellColors state; activeColorPicker := Some context |}.

Definition closeColorPicker (state : ColoringState) : ColoringState :=
  {| rowColors := rowColors state; columnColors := columnColors state;
     cellColors := cellColors state; activeColorPicker := None |}.

(** The body shared by the three setters: [if (color) newMap.set(key, color)
    else newMap.delete(key)]. *)
Definition setOrDelete `{Countable K} (key : K) (color : string)
    (map : gmap K string) : gmap K string :=
  if str_truthy color then <[key := color]> map else delete key map.

Definition setRowColor (state : ColoringState) (rowKey : value) (color : string)
    : ColoringState :=
  closeColorPicker
    {| rowColors := setOrDelete rowKey color (rowColors state);
       columnColors := columnColors state;
       cellColors := cellColors state;
       activeColorPicker := activeColorPicker state |}.

(** [map.get(key) || '']. *)
Definition getOrEmpty `{Countable K} (map : gmap K string) (key : K) : string :=
  match map !! key with
  | Some c => if str_truthy c then c else ""
  | None => ""
  end.

Definition getRowColor (state : ColoringState) (rowKey : value) : string :=
  getOrEmpty (rowColors state) rowKey.

Definition clearRowColor (state : ColoringState) (rowKey : value) : ColoringState :=
  setRowColor state rowKey "".

Definition clearAllRowColors (state : ColoringState) : ColoringState :=
  {| rowColors := ∅; columnColors := columnColors state;
     cellColors := cellColors state; activeColorPicker := activeColorPicker state |}.

Definition setColumnColor (state : ColoringState) (columnKey : string) (color : string)
    : ColoringState :=
  closeColorPicker
    {| rowColors := rowColors state;
       columnColors := setOrDelete columnKey color (columnColors state);
       cellColors := cellColors state;
       activeColorPicker := activeColorPicker state |}.

Definition getColumnColor (state : ColoringState) (columnKey : string) : string :=
  getOrEmpty (columnColors state) columnKey.

Definition clearColumnColor (state : ColoringState) (columnKey : string) : ColoringState :=
  setColumnColor state columnKey "".

Definition clearAllColumnColors (state : ColoringState) : ColoringState :=
  {| rowColors := rowColors state; columnColors := ∅;
     cellColors := cellColors state; activeColorPicker := activeColorPicker state |}.

(** [`${rowKey}:${columnKey}`]. *)
Definition getCellKey (rowKey : value) (columnKey : string) : string :=
  js_String rowKey +:+ ":" +:+ columnKey.

Definition setCellColor (state : ColoringState) (rowKey : value) (columnKey : string)
    (color : string) : ColoringState :=
  let key := getCellKey rowKey columnKey in
  closeColorPicker
    {| rowColors := rowColors state;
       columnColors := columnColors state;
       cellColors := setOrDelete key color (cellColors state);
       activeColorPicker := activeColorPicker state |}.

Definition getCellColor (state : ColoringState) (rowKey : value) (columnKey : string)
    : string :=
  getOrEmpty (cellColors state) (getCellKey rowKey columnKey).

Definition clearCellColor (state : ColoringState) (rowKey : value) (columnKey : string)
    : ColoringState :=
  setCellColor state rowKey columnKey "".

Definition clearAllCellColors (state : ColoringState) : ColoringState :=
  {| rowColors := rowColors state; columnColors := columnColors state;
     cellColors := ∅; activeColorPicker := activeColorPicker state |}.

Definition getResolvedCellColor (state : ColoringState) (rowKey : value)
    (columnKey : string) : string :=
  let cellColor := getCellColor state rowKey columnKey in
  if str_truthy cellColor then cellColor
  else
    let rowColor := getRowColor state rowKey in
    if str_truthy rowColor then rowColor
    else
      let columnColor := getColumnColor state columnKey in
      if str_truthy columnColor then columnColor else "".

Definition clearAllColors (state : ColoringState) : ColoringState :=
  clearAllCellColors (clearAllColumnColors (clearAllRowColors state)).

(** The operations that write the coloring state, as the table component
    and the feature module expose them. *)
Inductive ColoringOp :=
  | OpOpenColorPicker (context : ColorPickerContext)
  | OpCloseColorPicker
  | OpSetRowColor (rowKey : value) (color : string)
  | OpClearRowColor (rowKey : value)
  | OpClearAllRowColors
  | OpSetColumnColor (columnKey : string) (color : string)
  | OpClearColumnColor (columnKey : string)
  | OpClearAllColumnColors
  | OpSetCellColor (rowKey : value) (columnKey : string) (color : string)
  | OpClearCellColor (rowKey : value) (columnKey : string)
  | OpClearAllCellColors
  | OpClearAllColors.

Definition coloringStep (state : ColoringState) (op : ColoringOp) : ColoringState :=
  match op with
  | OpOpenColorPicker context => openColorPicker state context
  | OpCloseColorPicker => closeColorPicker state
  | OpSetRowColor k c => setRowColor state k c
  | OpClearRowColor k => clearRowColor state k
  | OpClearAllRowColors => clearAllRowColors state
  | OpSetColumnColor k c => setColumnColor state k c
  | OpClearColumnColor k => clearColumnColor state k
  | OpClearAllColumnColors => clearAllColumnColors state
  | OpSetCellColor r k c => setCellColor state r k c
  | OpClearCellColor r k => clearCellColor state r k
  | OpClearAllCellColors => clearAllCellColors state
  | OpClearAllColors => clearAllColors state
  end.

(** The coloring states a table can be in: those obtained from the state
    factory by a sequence of operations. *)
Inductive coloringReachable : ColoringState → Prop :=
  | coloring_init : coloringReachable createColoringState
  | coloring_step state op :
      coloringReachable state → coloringReachable (coloringStep state op).

(** No map holds the empty string as a color. *)
Definition noEmptyColor `{Countable K} (map : gmap K string) : Prop :=
  ∀ k c, map !! k = Some c → c ≠ "".

Definition coloringInv (state : ColoringState) : Prop :=
  noEmptyColor (rowColors state) ∧
  noEmptyColor (columnColors state) ∧
  noEmptyColor (cellColors state).

(** ** Column resize, reorder, freeze and visibility states

    Only the parts of these features that the column pipeline of the table
    reads. *)

Definition with_width (col : ColumnConfig) (w : option Z) : ColumnConfig := {|
  col_key := col_key col; col_title := col_title col; col_order := col_order col;
  col_width := w;
  col_minWidth := col_minWidth col; col_maxWidth := col_maxWidth col;
  col_sortable := col_sortable col; col_filterable := col_filterable col;
  col_resizable := col_resizable col; col_frozen := col_frozen col;
  col_frozenPosition := col_frozenPosition col; col_align := col_align col;
  col_cellType := col_cellType col; col_visible := col_visible col;
  col_filterType := col_filterType col;
  col_sortComparator := col_sortComparator col;
  col_isComputed := col_isComputed col;
|}.

Definition with_frozen (col : ColumnConfig) (f : option bool)
    (pos : option FrozenPosition) : ColumnConfig := {|
  col_key := col_key col; col_title := col_title col; col_order := col_order col;
  col_width := col_width col;
  col_minWidth := col_minWidth col; col_maxWidth := col_maxWidth col;
  col_sortable := col_sortable col; col_filterable := col_filterable col;
  col_resizable := col_resizable col; col_frozen := f;
  col_frozenPosition := pos; col_align := col_align col;
  col_cellType := col_cellType col; col_visible := col_visible col;
  col_filterType := col_filterType col;
  col_sortComparator := col_sortComparator col;
  col_isComputed := col_isComputed col;
|}.

(** column-resize.feature.ts *)
Definition applyCustomWidths (columns : list ColumnConfig)
    (columnWidths : gmap string Z) : list ColumnConfig :=
  (λ col, with_width col
            (match columnWidths !! col_key col with
             | Some w => Some w
             | None => col_width col
             end)) <$> columns.

(** column-reorder.feature.ts *)
Definition indexOf (order : list string) (key : string) : Z :=
  findIndex (string_eqb key) order.

Definition applyColumnOrder (columns : list ColumnConfig)
    (columnOrder : list string) : list ColumnConfig :=
  match columnOrder with
  | [] => js_sort (λ a b, col_order a - col_order b) columns
  | order =>
      js_sort (λ a b,
        let aIndex := indexOf order (col_key a) in
        let bIndex := indexOf order (col_key b) in
        if (aIndex =? -1) && (bIndex =? -1) then col_order a - col_order b
        else if aIndex =? -1 then 1
        else if bIndex =? -1 then -1
        else aIndex - bIndex) columns
  end.

(** column-freeze.feature.ts; a [Some None] entry is the "explicitly
    unfrozen" override. *)
Definition applyDynamicFreeze (columns : list ColumnConfig)
    (frozenColumns : gmap string (option FrozenPosition)) : list ColumnConfig :=
  (λ col, match frozenColumns !! col_key col with
          | Some None => with_frozen col (Some false) None
          | Some (Some dynamicPosition) => with_frozen col (Some true) (Some dynamicPosition)
          | None => col
          end) <$> columns.

(** ** table.ts: the component *)

Record Table := mkTable {
  data : list Row;
  columns : list ColumnConfig;
  config : TableConfig;
  sortingState : SortingState;
  filteringState : FilteringState;
  selectionState : SelectionState;
  paginationState : PaginationState;
  virtualScrollState : VirtualScrollState;
  computedColumnsState : ComputedColumnsState;
  coloringState : ColoringState;
  columnWidths : gmap string Z;
  columnOrder : list string;
  frozenColumns : gmap string (option FrozenPosition);
  hiddenColumns : gset string;
}.

Definition mergedConfig (t : Table) : TableConfig := mergeTableConfig (config t).

Definition allColumns (t : Table) : list ColumnConfig :=
  let baseColumns := columns t in
  let computedCols := computedColumns (computedColumnsState t) in
  let computedColumnConfigs :=
    imap (λ idx cc,
            computedColumnToColumnConfig cc (Z.of_nat (length baseColumns) + Z.of_nat idx))
         computedCols in
  (baseColumns ++ computedColumnConfigs)%list.

Definition processedColumns (t : Table) : list ColumnConfig :=
  let cols := processColumns (allColumns t) in
  let cols := applyCustomWidths cols (columnWidths t) in
  let cols := applyColumnOrder cols (columnOrder t) in
  let cols := applyDynamicFreeze cols (frozenColumns t) in
  let cols := List.filter (λ col, negb (bool_decide (col_key col ∈ hiddenColumns t))) cols in
  getVisibleColumns cols.

Definition frozenLeftColumns (t : Table) : list ColumnConfig :=
  getFrozenLeftColumns (processedColumns t).

Definition frozenRightColumns (t : Table) : list ColumnConfig :=
  getFrozenRightColumns (processedColumns t).

Definition filteredData (t : Table) : list Row :=
  applyFiltering (data t) (filteringState t).

Definition totalItems (t : Table) : Z := Z.of_nat (length (filteredData t)).

Definition totalPages (t : Table) : jsnum :=
  computeTotalPages (totalItems t) (pageSize (paginationState t)).

Section DerivedRows.
Variable localeCompare : string → string → Z.

Definition sortedData (t : Table) : list Row :=
  applySorting (filteredData t) (sortingState t) (columns t)
               (defaultCompare localeCompare).

Definition paginatedData (t : Table) : list Row :=
  applyPagination (sortedData t) (paginationState t)
                  (default true (enablePagination (mergedConfig t))).

Definition virtualScrollData (t : Table) : VirtualScrollData :=
  let config := getVirtualScrollConfig (mergedConfig t) in
  computeVirtualScrollData (sortedData t) (paginatedData t)
                           (virtualScrollState t) config.

Definition allSelected (t : Table) : bool :=
  computeAllSelected (paginatedData t) (selectedRows (selectionState t))
                     (keyFieldOf (mergedConfig t)).

Definition selectionDeps (t : Table) : SelectionDeps :=
  {| deps_data := data t;
     deps_paginatedData := paginatedData t;
     deps_config := mergedConfig t |}.

(** The three selection methods of the component. *)
Definition table_toggleRowSelection (t : Table) (row : Row)
    : SelectionState * list RowSelectionEvent :=
  toggleRowSelection row (selectionState t) (selectionDeps t).

Definition table_toggleAllSelection (t : Table)
    : SelectionState * list RowSelectionEvent :=
  toggleAllSelection (allSelected t) (selectionState t) (selectionDeps t).
End DerivedRows.

Definition table_clearSelection (t : Table) : SelectionState * list RowSelectionEvent :=
  clearSelection (selectionState t).

Definition table_goToPage (t : Table) (page : PageArg)
    : PaginationState * list PageChangeEvent :=
  goToPage page (paginationState t) (totalItems t).

(** The computed-column branch of the component's [getCellValue]: the cell
    of a computed column shows [computeColumnValue]. *)
Definition computedCellValue (t : Table) (row : Row) (column : ColumnConfig)
    : option string :=
  if truthy (col_isComputed column) then
    computeColumnValue row <$>
      List.find (λ c, string_eqb (cc_key c) (col_key column))
                (computedColumns (computedColumnsState t))
  else None.

Definition table_getFrozenLeftOffset (t : Table) (column : ColumnConfig) : string :=
  getFrozenLeftOffset column (frozenLeftColumns t) (mergedConfig t).

Definition table_getFrozenRightOffset (t : Table) (column : ColumnConfig) : string :=
  getFrozenRightOffset column (frozenRightColumns t).

(** ** Rows, columns and tables of the examples *)

Definition mkRow (fields : list (string * value)) : Row := list_to_map fields.

Definition employee (id : Z) (name : string) (status : value) : Row :=
  mkRow [("id", VNum id); ("name", VStr name); ("status", status)].

Definition alice : Row := employee 1 "Alice" (VBool true).
Definition bob : Row := employee 2 "Bob" (VBool false).
Definition carol : Row := employee 3 "Carol" (VBool true).

Definition plainColumn (key : string) (order : Z) : ColumnConfig := {|
  col_key := key; col_title := key; col_order := order;
  col_width := None; col_minWidth := None; col_maxWidth := None;
  col_sortable := None; col_filterable := None; col_resizable := None;
  col_frozen := None; col_frozenPosition := None; col_align := None;
  col_cellType := None; col_visible := None; col_filterType := None;
  col_sortComparator := None; col_isComputed := None;
|}.

(** A comparator by code units, given to the examples where the component
    expects the host's [localeCompare]. *)
Definition codeUnitCompare (a b : string) : Z :=
  match String.compare a b with
  | Lt => -1
  | Eq => 0
  | Gt => 1
  end.

(** A table over [rows] with the given configuration and page size, every
    feature state being the initial one. *)
Definition tableOf (rows : list Row) (cols : list ColumnConfig) (c : TableConfig)
    (size : Z) : Table := {|
  data := rows; columns := cols; config := c;
  sortingState := createSortingState;
  filteringState := createFilteringState;
  selectionState := createSelectionState;
  paginationState := createPaginationState size;
  virtualScrollState := createVirtualScrollState;
  computedColumnsState := createComputedColumnsState;
  coloringState := createColoringState;
  columnWidths := ∅; columnOrder := []; frozenColumns := ∅; hiddenColumns := ∅;
|}.

Definition configWith (virtualScroll : bool) (mode : SelectionMode) : TableConfig := {|
  enableMultiSort := None; enablePagination := None; enableRowSelection := None;
  enableVirtualScroll := Some virtualScroll;
  virtualScrollItemHeight := None; virtualScrollBufferSize := None;
  cfg_pageSize := None; selectionMode := Some mode;
  showSelectionCheckbox := None; tableHeight := None; rowKeyField := None;
|}.

Definition fiveRows : list Row :=
  [ employee 1 "Ann" (VBool true); employee 2 "Ben" (VBool false);
    employee 3 "Cid" (VBool true); employee 4 "Dee" (VBool false);
    employee 5 "Eve" (VBool true) ].

(** Five rows, pages of two rows, virtual scrolling switched on. *)
Definition scrolledTable : Table :=
  tableOf fiveRows [plainColumn "id" 0; plainColumn "name" 1] (configWith true Multiple) 2.

(** The same table with virtual scrolling switched off. *)
Definition pagedTable : Table :=
  tableOf fiveRows [plainColumn "id" 0; plainColumn "name" 1] (configWith false Multiple) 2.

(** ** Reachable states, specification-side notions and example data *)

(** The filtering states the feature can be in: those obtained from the
    state factory by its three writing operations. *)
Inductive filteringReachable : FilteringState → Prop :=
  | filtering_init : filteringReachable createFilteringState
  | filtering_input column v state :
      filteringReachable state →
      filteringReachable (handleFilterInput column v state).1
  | filtering_clear key state :
      filteringReachable state → filteringReachable (clearFilter key state).1
  | filtering_clearAll state :
      filteringReachable state → filteringReachable (clearAllFilters state).1.

Definition statusFilter : FilteringState :=
  {| filters := [ {| filter_key := "status"; filter_value := FScalar (VStr "TRUE");
                     filter_operator := FEquals |} ];
     filterInputs := {[ "status" := "TRUE" ]} |}.

(** The definition of the specification's example: one condition
    [status equals 'true' then 'Active'], default ['Inactive']. *)
Definition statusCondition (id els : string) : ColumnCondition :=
  {| cond_id := id; sourceColumn := "status"; operator := CEquals;
     compareValue := "true"; thenValue := "Active"; elseValue := els |}.

Definition statusColumn (key title id els : string) : ComputedColumnDefinition :=
  {| cc_key := key; cc_title := title;
     conditions := [statusCondition id els]; defaultValue := "Inactive" |}.

Definition tieredColumn : ComputedColumnDefinition :=
  {| cc_key := "tier"; cc_title := "Tier";
     conditions :=
       [ {| cond_id := "c1"; sourceColumn := "id"; operator := CGreaterThan;
            compareValue := "5"; thenValue := "High"; elseValue := "Low" |};
         {| cond_id := "c2"; sourceColumn := "name"; operator := CContains;
            compareValue := "LI"; thenValue := "Has-li"; elseValue := "" |};
         {| cond_id := "c3"; sourceColumn := "status"; operator := CEquals;
            compareValue := "true"; thenValue := "Active"; elseValue := "" |} ];
     defaultValue := "" |}.

(** The specification's example: a column color for [colX] and a cell color
    for [(row1, colX)]. *)
Definition paintedState : ColoringState :=
  setCellColor (setColumnColor createColoringState "colX" "#fee2e2")
               (VStr "row1") "colX" "#dbeafe".

(** Twenty-five rows in pages of ten. *)
Definition twentyFiveRows : list Row :=
  (λ i, employee (Z.of_nat i) "row" (VBool true)) <$> seq 1 25.

Definition twentyFiveTable : Table :=
  tableOf twentyFiveRows [plainColumn "id" 0] (configWith false Multiple) 10.

Definition thousandRows : list Row :=
  (λ i, employee (Z.of_nat i) "row" (VBool true)) <$> seq 0 1000.

Definition exampleScrollConfig : VirtualScrollConfig :=
  {| enabled := true; itemHeight := 48; bufferSize := 5; containerHeight := 600 |}.

(** The reading of the claim C1 that the code does not meet: the rows the
    windower shows are a slice of the paginated rows. *)
Definition windowsPaginatedRows (localeCompare : string → string → Z) (t : Table) : Prop :=
  ∃ i j, visibleData (virtualScrollData localeCompare t) =
         js_slice i j (paginatedData localeCompare t).

(** The sum of the widths of a run of columns. *)
Definition sumWidths (cols : list ColumnConfig) : Z :=
  foldr (λ c acc, widthOr150 c + acc) 0 cols.

Definition frozenColumn (key : string) (order : Z) (w : option Z)
    (pos : option FrozenPosition) : ColumnConfig :=
  with_frozen (with_width (plainColumn key order) w) (Some true) pos.

(** Two columns frozen left, one scrollable, three frozen right. *)
Definition frozenLayout : list ColumnConfig :=
  [ frozenColumn "id" 0 (Some 80) (Some FrozenLeft);
    frozenColumn "name" 1 (Some 120) None;
    plainColumn "email" 2;
    frozenColumn "salary" 3 (Some 100) (Some FrozenRight);
    frozenColumn "status" 4 None (Some FrozenRight);
    frozenColumn "actions" 5 (Some 60) (Some FrozenRight) ].

Definition frozenTable : Table :=
  tableOf fiveRows frozenLayout (configWith false Multiple) 10.

Definition numField (row : Row) (key : string) : Z :=
  match getField row key with
  | VNum n => n
  | _ => 0
  end.

(** A comparator that honours the direction it is given:
    [(a, b, dir) => dir === 'desc' ? b.id - a.id : a.id - b.id]. *)
Definition byIdRespectingDirection (a b : Row) (dir : SortDirection) : Z :=
  if decide (dir = Desc) then numField b "id" - numField a "id"
  else numField a "id" - numField b "id".

Definition idColumnWithComparator : ColumnConfig := {|
  col_key := "id"; col_title := "ID"; col_order := 0;
  col_width := None; col_minWidth := None; col_maxWidth := None;
  col_sortable := Some true; col_filterable := None; col_resizable := None;
  col_frozen := None; col_frozenPosition := None; col_align := None;
  col_cellType := Some "number"; col_visible := None; col_filterType := None;
  col_sortComparator := Some byIdRespectingDirection; col_isComputed := None;
|}.

Definition idDescending : SortingState :=
  {| sorts := [ {| sort_key := "id"; sort_direction := Desc; sort_order := 1 |} ] |}.

Definition statusLabel : ComputedColumnDefinition :=
  statusColumn "statusLabel" "Status label" "cond_1" "".

(** The component after the computed column [statusLabel] was added, the
    text [Inactive] typed into its filter box ([withFilter]) and its header
    clicked for an ascending sort ([withSort]). *)
Definition computedTable (withFilter withSort : bool) : Table := {|
  data := [alice; bob; carol];
  columns := [plainColumn "id" 0; plainColumn "name" 1; plainColumn "status" 2];
  config := DEFAULT_TABLE_CONFIG;
  sortingState :=
    {| sorts := if withSort
                then [ {| sort_key := "statusLabel"; sort_direction := Asc;
                          sort_order := 1 |} ]
                else [] |};
  filteringState :=
    if withFilter
    then (handleFilterInput (computedColumnToColumnConfig statusLabel 3) "Inactive"
                            createFilteringState).1
    else createFilteringState;
  selectionState := createSelectionState;
  paginationState := createPaginationState 10;
  virtualScrollState := createVirtualScrollState;
  computedColumnsState := addComputedColumn createComputedColumnsState statusLabel;
  coloringState := createColoringState;
  columnWidths := ∅; columnOrder := []; frozenColumns := ∅; hiddenColumns := ∅;
|}.

(** Five rows in pages of two, selection mode [single], nothing selected. *)
Definition singleSelectTable : Table :=
  tableOf fiveRows [plainColumn "id" 0; plainColumn "name" 1] (configWith false Single) 2.

(** ** Further operations of the features *)

(** *** sorting.feature.ts: header clicks *)

Definition with_direction (s : SortConfig) (d : SortDirection) : SortConfig :=
  {| sort_key := sort_key s; sort_direction := d; sort_order := sort_order s |}.

(** [currentSorts.forEach((s, i) => (s.order = i + 1))]. *)
Definition renumber (l : list SortConfig) : list SortConfig :=
  imap (λ i s, {| sort_key := sort_key s; sort_direction := sort_direction s;
                  sort_order := Z.of_nat i + 1 |}) l.

(** [handleHeaderClick]; [shiftKey] is [event.shiftKey] and [enableMultiSort]
    the value of [deps.enableMultiSort()].  The entry whose direction is
    assigned is an element of the array the state is then set to, so the
    assignment is an update of that array. *)
Definition handleHeaderClick (column : ColumnConfig) (shiftKey : bool)
    (state : SortingState) (enableMultiSort : bool)
    : SortingState * list SortChangeEvent :=
  if negb (truthy (col_sortable column)) then (state, [])
  else
    let currentSorts := sorts state in
    let existingIndex :=
      findIndex (λ s, string_eqb (sort_key s) (col_key column)) currentSorts in
    let currentSorts :=
      if enableMultiSort && shiftKey then
        if 0 <=? existingIndex then
          match currentSorts !! Z.to_nat existingIndex with
          | Some existing =>
              match sort_direction existing with
              | Asc => <[Z.to_nat existingIndex := with_direction existing Desc]> currentSorts
              | Desc => renumber (delete (Z.to_nat existingIndex) currentSorts)
              | DirNull => currentSorts
              end
          | None => currentSorts
          end
        else
          (currentSorts ++
             [ {| sort_key := col_key column; sort_direction := Asc;
                  sort_order := Z.of_nat (length currentSorts) + 1 |} ])%list
      else
        if (0 <=? existingIndex) && (Z.of_nat (length currentSorts) =? 1) then
          match currentSorts with
          | existing :: rest =>
              match sort_direction existing with
              | Asc => with_direction existing Desc :: rest
              | _ => rest
              end
          | [] => []
          end
        else [ {| sort_key := col_key column; sort_direction := Asc; sort_order := 1 |} ] in
    ({| sorts := currentSorts |}, [ mkSortChange currentSorts ]).

(** [find(...)?.direction || null]. *)
Definition getSortDirection (key : string) (state : SortingState) : SortDirection :=
  match List.find (λ s, string_eqb (sort_key s) key) (sorts state) with
  | Some s => sort_direction s
  | None => DirNull
  end.

Definition getSortOrder (key : string) (state : SortingState) : option Z :=
  match List.find (λ s, string_eqb (sort_key s) key) (sorts state) with
  | Some s => if 1 <? Z.of_nat (length (sorts state)) then Some (sort_order s) else None
  | None => None
  end.

(** The sorting states the feature can be in. *)
Inductive sortingReachable : SortingState → Prop :=
  | sorting_init : sortingReachable createSortingState
  | sorting_click column shiftKey enableMultiSort state :
      sortingReachable state →
      sortingReachable (handleHeaderClick column shiftKey state enableMultiSort).1
  | sorting_reset state :
      sortingReachable state → sortingReachable (resetSorting state).1.

(** Entry [i] carries priority [i + 1], a direction is set and no key
    occurs twice. *)
Definition sortsWellFormed (l : list SortConfig) : Prop :=
  (∀ i s, l !! i = Some s →
          sort_order s = Z.of_nat i + 1 ∧ sort_direction s ≠ DirNull) ∧
  NoDup (sort_key <$> l).

(** *** pagination.feature.ts: page numbers *)

(** The values [lo, lo + 1, ..., hi] a counting [for] loop visits. *)
Definition zrange (lo hi : Z) : list Z :=
  (λ k, lo + Z.of_nat k) <$> seq 0 (Z.to_nat (hi - lo + 1)).

Definition computePageNumbers (totalPages currentPage : Z) : list PageArg :=
  if totalPages <=? 7 then PageNumber <$> zrange 1 totalPages
  else
    ([PageNumber 1] ++
     (if 3 <? currentPage then [PageString "..."] else []) ++
     (PageNumber <$> zrange (Z.max 2 (currentPage - 1))
                            (Z.min (totalPages - 1) (currentPage + 1))) ++
     (if currentPage <? totalPages - 2 then [PageString "..."] else []) ++
     [PageNumber totalPages])%list.

(** *** selection.feature.ts: the header checkbox state *)

Definition computeSomeSelected (paginatedData : list Row) (selectedRows : gset value)
    (keyField : string) : bool :=
  let selectedCount :=
    Z.of_nat (length (List.filter
                        (λ row, bool_decide (getField row keyField ∈ selectedRows))
                        paginatedData)) in
  (0 <? selectedCount) && (selectedCount <? Z.of_nat (length paginatedData)).

(** *** virtual-scroll.feature.ts: scroll commands *)

Definition resetScroll (state : VirtualScrollState) : VirtualScrollState :=
  {| scrollTop := 0 |}.

Definition scrollToIndex (index : Z) (state : VirtualScrollState)
    (config : VirtualScrollConfig) : VirtualScrollState :=
  {| scrollTop := index * itemHeight config |}.

Definition scrollToTop (state : VirtualScrollState) : VirtualScrollState :=
  {| scrollTop := 0 |}.

Definition scrollToBottom (data : list Row) (state : VirtualScrollState)
    (config : VirtualScrollConfig) : VirtualScrollState :=
  let totalHeight := Z.of_nat (length data) * itemHeight config in
  let maxScroll := Z.max 0 (totalHeight - containerHeight config) in
  {| scrollTop := maxScroll |}.

(** *** column-freeze.feature.ts *)

Record ColumnFreezeState := mkColumnFreezeState {
  freeze_frozenColumns : gmap string (option FrozenPosition);
}.

Definition createColumnFreezeState : ColumnFreezeState :=
  {| freeze_frozenColumns := ∅ |}.

Definition freezeColumnLeft (state : ColumnFreezeState) (columnKey : string)
    : ColumnFreezeState :=
  {| freeze_frozenColumns := <[columnKey := Some FrozenLeft]> (freeze_frozenColumns state) |}.

Definition freezeColumnRight (state : ColumnFreezeState) (columnKey : string)
    : ColumnFreezeState :=
  {| freeze_frozenColumns := <[columnKey := Some FrozenRight]> (freeze_frozenColumns state) |}.

Definition unfreezeColumn (state : ColumnFreezeState) (columnKey : string)
    : ColumnFreezeState :=
  {| freeze_frozenColumns := <[columnKey := None]> (freeze_frozenColumns state) |}.

(** [state.frozenColumns().get(columnKey) || null]. *)
Definition getColumnFreezePosition (state : ColumnFreezeState) (columnKey : string)
    : option FrozenPosition :=
  match freeze_frozenColumns state !! columnKey with
  | Some (Some position) => Some position
  | _ => None
  end.

Definition toggleColumnFreeze (state : ColumnFreezeState) (columnKey : string)
    (position : FrozenPosition) : ColumnFreezeState :=
  let currentPosition := getColumnFreezePosition state columnKey in
  if decide (currentPosition = Some position) then unfreezeColumn state columnKey
  else if decide (position = FrozenRight) then freezeColumnRight state columnKey
  else freezeColumnLeft state columnKey.

(** [state.frozenColumns().has(columnKey)]. *)
Definition isColumnFrozen (state : ColumnFreezeState) (columnKey : string) : bool :=
  bool_decide (is_Some (freeze_frozenColumns state !! columnKey)).

Definition clearAllFrozenColumns (state : ColumnFreezeState) : ColumnFreezeState :=
  {| freeze_frozenColumns := ∅ |}.

(** *** column-visibility.feature.ts *)

Record ColumnVisibilityState := mkColumnVisibilityState {
  vis_hiddenColumns : gset string;
  dropdownOpen : bool;
}.

Definition createColumnVisibilityState : ColumnVisibilityState :=
  {| vis_hiddenColumns := ∅; dropdownOpen := false |}.

Definition toggleColumnVisibility (state : ColumnVisibilityState) (columnKey : string)
    : ColumnVisibilityState :=
  {| vis_hiddenColumns :=
       if decide (columnKey ∈ vis_hiddenColumns state)
       then vis_hiddenColumns state ∖ {[ columnKey ]}
       else vis_hiddenColumns state ∪ {[ columnKey ]};
     dropdownOpen := dropdownOpen state |}.

Definition isColumnVisible (state : ColumnVisibilityState) (columnKey : string) : bool :=
  negb (bool_decide (columnKey ∈ vis_hiddenColumns state)).

Definition showAllColumns (state : ColumnVisibilityState) : ColumnVisibilityState :=
  {| vis_hiddenColumns := ∅; dropdownOpen := dropdownOpen state |}.

Definition hideAllColumns (state : ColumnVisibilityState) (columnKeys : list string)
    : ColumnVisibilityState :=
  {| vis_hiddenColumns := list_to_set columnKeys; dropdownOpen := dropdownOpen state |}.

Definition getVisibleColumnCount (state : ColumnVisibilityState) (totalColumns : Z) : Z :=
  totalColumns - Z.of_nat (size (vis_hiddenColumns state)).

(** *** column-resize.feature.ts *)

Record ColumnResizeState := mkColumnResizeState {
  resize_columnWidths : gmap string Z;
  resizingColumn : option string;
  resizeStartX : Z;
  resizeStartWidth : Z;
}.

Record ColumnResizeEvent := mkColumnResizeEvent { cre_column : string; cre_width : Z }.

Definition createColumnResizeState : ColumnResizeState :=
  {| resize_columnWidths := ∅; resizingColumn := None;
     resizeStartX := 0; resizeStartWidth := 0 |}.

(** [n || d] for an optional number: absent and 0 are falsy. *)
Definition numOr (n : option Z) (d : Z) : Z :=
  match n with
  | Some w => if w =? 0 then d else w
  | None => d
  end.

(** [clientX] is [event.clientX]. *)
Definition startResize (column : ColumnConfig) (clientX : Z) (state : ColumnResizeState)
    : ColumnResizeState :=
  if negb (truthy (col_resizable column)) then state
  else {| resize_columnWidths := resize_columnWidths state;
          resizingColumn := Some (col_key column);
          resizeStartX := clientX;
          resizeStartWidth := numOr (col_width column) 150 |}.

Definition handleResizeMove (clientX : Z) (state : ColumnResizeState)
    (processedColumns : list ColumnConfig) : ColumnResizeState :=
  match resizingColumn state with
  | None => state
  | Some resizing =>
      if negb (str_truthy resizing) then state
      else
        match List.find (λ c, string_eqb (col_key c) resizing) processedColumns with
        | None => state
        | Some column =>
            let diff := clientX - resizeStartX state in
            let newWidth := resizeStartWidth state + diff in
            let newWidth := Z.max (numOr (col_minWidth column) 50) newWidth in
            let newWidth := Z.min (numOr (col_maxWidth column) 500) newWidth in
            {| resize_columnWidths := <[resizing := newWidth]> (resize_columnWidths state);
               resizingColumn := resizingColumn state;
               resizeStartX := resizeStartX state;
               resizeStartWidth := resizeStartWidth state |}
        end
  end.

Definition endResize (state : ColumnResizeState)
    : ColumnResizeState * list ColumnResizeEvent :=
  match resizingColumn state with
  | None => (state, [])
  | Some resizing =>
      if negb (str_truthy resizing) then (state, [])
      else
        ({| resize_columnWidths := resize_columnWidths state;
            resizingColumn := None;
            resizeStartX := resizeStartX state;
            resizeStartWidth := resizeStartWidth state |},
         match resize_columnWidths state !! resizing with
         | Some width =>
             if width =? 0 then []
             else [ {| cre_column := resizing; cre_width := width |} ]
         | None => []
         end)
  end.

(** [state.columnWidths().get(key) ?? defaultWidth]. *)
Definition getColumnWidth (key : string) (state : ColumnResizeState) (defaultWidth : Z) : Z :=
  default defaultWidth (resize_columnWidths state !! key).

(** *** column-reorder.feature.ts *)

Record ColumnReorderState := mkColumnReorderState {
  reorder_columnOrder : list string;
  draggedColumn : option string;
  dropTargetColumn : option string;
}.

Record ColumnReorderEvent := mkColumnReorderEvent {
  cro_columns : list ColumnConfig;
  cro_movedColumn : string;
  cro_fromIndex : Z;
  cro_toIndex : Z;
}.



(** Truthiness of [string | null]. *)
Definition key_truthy (k : option string) : bool :=
  match k with
  | Some s => str_truthy s
  | None => false
  end.

Definition startDrag (column : ColumnConfig) (state : ColumnReorderState)
    (enableColumnReorder : bool) : ColumnReorderState :=
  if negb enableColumnReorder || truthy (col_frozen column) then state
  else {| reorder_columnOrder := reorder_columnOrder state;
          draggedColumn := Some (col_key column);
          dropTargetColumn := dropTargetColumn state |}.

Definition handleDragOver (column : ColumnConfig) (state : ColumnReorderState)
    (enableColumnReorder : bool) : ColumnReorderState :=
  if negb enableColumnReorder || truthy (col_frozen column) then state
  else
    if key_truthy (draggedColumn state) &&
       negb (bool_decide (draggedColumn state = Some (col_key column)))
    then {| reorder_columnOrder := reorder_columnOrder state;
            draggedColumn := draggedColumn state;
            dropTargetColumn := Some (col_key column) |}
    else state.

Definition handleDragEnd (state : ColumnReorderState) : ColumnReorderState :=
  {| reorder_columnOrder := reorder_columnOrder state;
     draggedColumn := None; dropTargetColumn := None |}.

(** [order.splice(fromIndex, 1); order.splice(toIndex, 0, dragged)]. *)
Definition moveKey (order : list string) (fromIndex toIndex : nat) (dragged : string)
    : list string :=
  let removed := delete fromIndex order in
  (take toIndex removed ++ dragged :: drop toIndex removed)%list.

(** [processedColumns] stands for [deps.processedColumns], read after the
    new order is stored. *)
Definition handleDrop (column : ColumnConfig) (state : ColumnReorderState)
    (processedColumns : list string → list ColumnConfig)
    : ColumnReorderState * list ColumnReorderEvent :=
  match draggedColumn state with
  | None => (state, [])
  | Some dragged =>
      if negb (str_truthy dragged) || string_eqb dragged (col_key column) ||
         truthy (col_frozen column)
      then (state, [])
      else
        let order := reorder_columnOrder state in
        let fromIndex := indexOf order dragged in
        let toIndex := indexOf order (col_key column) in
        if (0 <=? fromIndex) && (0 <=? toIndex) then
          let order' := moveKey order (Z.to_nat fromIndex) (Z.to_nat toIndex) dragged in
          ({| reorder_columnOrder := order';
              draggedColumn := None; dropTargetColumn := None |},
           [ {| cro_columns := processedColumns order';
                cro_movedColumn := dragged;
                cro_fromIndex := fromIndex;
                cro_toIndex := toIndex |} ])
        else
          ({| reorder_columnOrder := order;
              draggedColumn := None; dropTargetColumn := None |}, [])
  end.

(** *** computed-columns.feature.ts: the definition list and its modal *)

Definition openComputedColumnModal (state : ComputedColumnsState)
    (editColumn : option ComputedColumnDefinition) : ComputedColumnsState :=
  {| computedColumns := computedColumns state; modalOpen := true;
     editingColumn := editColumn |}.

Definition closeComputedColumnModal (state : ComputedColumnsState) : ComputedColumnsState :=
  {| computedColumns := computedColumns state; modalOpen := false;
     editingColumn := None |}.

Definition updateComputedColumn (state : ComputedColumnsState)
    (column : ComputedColumnDefinition) : ComputedColumnsState :=
  {| computedColumns :=
       (λ c, if string_eqb (cc_key c) (cc_key column) then column else c)
         <$> computedColumns state;
     modalOpen := modalOpen state; editingColumn := editingColumn state |}.

(** [saveComputedColumn] of the component, [column] being the form state
    [currentComputedColumn]. *)
Definition saveComputedColumn (column : ComputedColumnDefinition)
    (state : ComputedColumnsState) : ComputedColumnsState :=
  if negb (str_truthy (trim (cc_title column))) then state
  else
    closeComputedColumnModal
      (match editingColumn state with
       | Some _ => updateComputedColumn state column
       | None => addComputedColumn state column
       end).

(** *** coloring.feature.ts: the palette *)

Record ColorOption := mkColorOption {
  co_name : string;
  co_value : string;
  co_textColor : string;
}.

Definition COLOR_PALETTE : list ColorOption :=
  [ mkColorOption "None" "" "";
    mkColorOption "Red" "#fee2e2" "#991b1b";
    mkColorOption "Orange" "#ffedd5" "#9a3412";
    mkColorOption "Amber" "#fef3c7" "#92400e";
    mkColorOption "Yellow" "#fef9c3" "#854d0e";
    mkColorOption "Lime" "#ecfccb" "#3f6212";
    mkColorOption "Green" "#dcfce7" "#166534";
    mkColorOption "Emerald" "#d1fae5" "#065f46";
    mkColorOption "Teal" "#ccfbf1" "#115e59";
    mkColorOption "Cyan" "#cffafe" "#155e75";
    mkColorOption "Sky" "#e0f2fe" "#075985";
    mkColorOption "Blue" "#dbeafe" "#1e40af";
    mkColorOption "Indigo" "#e0e7ff" "#3730a3";
    mkColorOption "Violet" "#ede9fe" "#5b21b6";
    mkColorOption "Purple" "#f3e8ff" "#6b21a8";
    mkColorOption "Fuchsia" "#fae8ff" "#86198f";
    mkColorOption "Pink" "#fce7f3" "#9d174d";
    mkColorOption "Rose" "#ffe4e6" "#9f1239";
    mkColorOption "Gray" "#f3f4f6" "#374151" ].

Definition getTextColorForBackground (backgroundColor : string) : string :=
  match List.find (λ c, string_eqb (co_value c) backgroundColor) COLOR_PALETTE with
  | Some colorOption =>
      if str_truthy (co_textColor colorOption) then co_textColor colorOption else ""
  | None => ""
  end.

(** *** table.ts: reset and cell colors *)

Definition with_states (t : Table) (sel : SelectionState) (so : SortingState)
    (fi : FilteringState) (pg : PaginationState) (co : ColoringState) : Table := {|
  data := data t; columns := columns t; config := config t;
  sortingState := so; filteringState := fi; selectionState := sel;
  paginationState := pg;
  virtualScrollState := virtualScrollState t;
  computedColumnsState := computedColumnsState t;
  coloringState := co;
  columnWidths := columnWidths t; columnOrder := columnOrder t;
  frozenColumns := frozenColumns t; hiddenColumns := hiddenColumns t;
|}.

(** [resetAll]: the component after the five resets, with the events the
    first three emit. *)
Definition resetAll (t : Table)
    : Table * (list RowSelectionEvent * list SortChangeEvent * list FilterChangeEvent) :=
  let '(sel, selEvents) := clearSelection (selectionState t) in
  let '(so, sortEvents) := resetSorting (sortingState t) in
  let '(fi, filterEvents) := clearAllFilters (filteringState t) in
  let pg := resetPagination (paginationState t) in
  let co := clearAllColors (coloringState t) in
  (with_states t sel so fi pg co, (selEvents, sortEvents, filterEvents)).

(** [getCellBackgroundColor] and [getCellTextColor] of the component. *)
Definition getCellBackgroundColor (t : Table) (row : Row) (columnKey : string) : string :=
  let keyField := keyFieldOf (mergedConfig t) in
  getResolvedCellColor (coloringState t) (getField row keyField) columnKey.

Definition getCellTextColor (t : Table) (row : Row) (columnKey : string) : string :=
  getTextColorForBackground (getCellBackgroundColor t row columnKey).

(** A sortable column of the examples. *)
Definition plainColumnSortable (key : string) : ColumnConfig :=
  processColumn (plainColumn key 0).

(** Column [a] may stand before column [b] under the drag order [order]:
    a listed key stands before an unlisted one, two listed keys stand in
    the order of the list, two unlisted ones in the order of their static
    [order]. *)
Definition columnBefore (order : list string) (a b : ColumnConfig) : Prop :=
  let aIndex := indexOf order (col_key a) in
  let bIndex := indexOf order (col_key b) in
  if decide (aIndex = -1 ∧ bIndex = -1) then col_order a ≤ col_order b
  else aIndex ≠ -1 ∧ (bIndex = -1 ∨ aIndex ≤ bIndex).

(** * Properties *)

(** ** Filtering *)

Lemma filter_sublist {A} (p : A → bool) (l : list A) : sublist (List.filter p l) l.
Proof.
  induction l as [|x l IH]; simpl.
  - constructor.
  - destruct (p x); now constructor.
Qed.

Lemma filter_length_le {A} (p : A → bool) (l : list A) :
  (length (List.filter p l) ≤ length l)%nat.
Proof. apply sublist_length, filter_sublist. Qed.

Lemma applyFiltering_filter (data : list Row) (state : FilteringState) :
  applyFiltering data state =
  List.filter (λ row, forallb (applyFilterToRow row) (filters state)) data.
Proof.
  unfold applyFiltering. destruct (filters state) as [|f fs] eqn:E; [|reflexivity].
  induction data as [|r data IH]; simpl; [reflexivity|]. f_equal. exact IH.
Qed.

Lemma filter_keys_NoDup (key : string) (fs : list FilterConfig) :
  NoDup (filter_key <$> fs) →
  NoDup (filter_key <$> filter (λ f, filter_key f ≠ key) fs).
Proof.
  intros Hnd. induction fs as [|f fs IH]; simpl in *; [constructor|].
  apply NoDup_cons in Hnd as [Hnotin Hnd].
  rewrite filter_cons. destruct (decide (filter_key f ≠ key)); [|auto].
  simpl. apply NoDup_cons. split; [|auto].
  intros Hin. apply Hnotin.
  apply list_elem_of_fmap in Hin as (g & Hg & Hin).
  apply list_elem_of_filter in Hin as [_ Hin].
  apply list_elem_of_fmap. eauto.
Qed.

Lemma filter_keys_absent (key : string) (fs : list FilterConfig) :
  key ∉ filter_key <$> filter (λ f, filter_key f ≠ key) fs.
Proof.
  intros Hin. apply list_elem_of_fmap in Hin as (g & Hg & Hin).
  apply list_elem_of_filter in Hin as [Hne _]. congruence.
Qed.

(** The filter list a column edit produces holds at most one entry per
    column key. *)
Lemma filters_one_per_column (state : FilteringState) :
  filteringReachable state → NoDup (filter_key <$> filters state).
Proof.
  induction 1 as [|column v state _ IH|key state _ IH|state _ IH]; simpl.
  - constructor.
  - destruct (str_truthy (trim v)); simpl.
    + rewrite fmap_app. simpl. apply NoDup_app. split; [|split].
      * now apply filter_keys_NoDup.
      * intros k Hk Hk'. apply list_elem_of_singleton in Hk'. subst k.
        now apply filter_keys_absent in Hk.
      * apply NoDup_singleton.
    + now apply filter_keys_NoDup.
  - now apply filter_keys_NoDup.
  - constructor.
Qed.

(** C7. [applyFiltering] returns the rows of its input on which every
    active filter's predicate holds, in their input order: it is the
    [filter] of the input by the conjunction of the predicates, hence a
    sublist of the input that is no longer than it and contains exactly
    the rows passing all filters; with no active filter it returns the
    input unchanged.  The filter list of a state the feature can reach holds
    at most one entry per column. *)
Theorem applyFiltering_subsequence (data : list Row) (state : FilteringState) :
  applyFiltering data state =
    List.filter (λ row, forallb (applyFilterToRow row) (filters state)) data ∧
  sublist (applyFiltering data state) data ∧
  (∀ row, row ∈ applyFiltering data state ↔
          row ∈ data ∧ ∀ f, f ∈ filters state → applyFilterToRow row f = true) ∧
  (length (applyFiltering data state) ≤ length data)%nat ∧
  (filters state = [] → applyFiltering data state = data) ∧
  (filteringReachable state → NoDup (filter_key <$> filters state)).
Proof.
  rewrite applyFiltering_filter. repeat split.
  - apply filter_sublist.
  - rewrite list_elem_of_In in H. apply filter_In in H as [H _].
    now apply list_elem_of_In.
  - rewrite list_elem_of_In in H. apply filter_In in H as [_ H].
    rewrite forallb_forall in H. intros f Hf. apply H. now apply list_elem_of_In.
  - intros [Hin Hall]. apply list_elem_of_In, filter_In. split.
    + now apply list_elem_of_In.
    + apply forallb_forall. intros f Hf. apply Hall. now apply list_elem_of_In.
  - apply filter_length_le.
  - intros E. rewrite E. simpl. induction data as [|r d IH]; simpl; congruence.
  - apply filters_one_per_column.
Qed.

Lemma applyFiltering_subsequence_witness :
  applyFiltering [alice; bob; carol] statusFilter = [alice; carol] ∧
  applyFiltering [alice; bob; carol] createFilteringState = [alice; bob; carol].
Proof.
  split.
  - destruct (applyFiltering_subsequence [alice; bob; carol] statusFilter) as [E _].
    rewrite E. reflexivity.
  - apply (proj1 (proj2 (proj2 (proj2 (proj2
      (applyFiltering_subsequence [alice; bob; carol] createFilteringState)))))).
    reflexivity.
Defined.

(** ** Computed columns *)

Lemma str_truthy_ne (s : string) : str_truthy s = true ↔ s ≠ "".
Proof.
  unfold str_truthy, string_eqb. destruct (bool_decide_reflect (s = "")); simpl.
  - split; [discriminate | congruence].
  - split; auto.
Qed.

Lemma str_truthy_empty (s : string) : str_truthy s = false ↔ s = "".
Proof.
  unfold str_truthy, string_eqb. destruct (bool_decide_reflect (s = "")); simpl.
  - split; auto.
  - split; [discriminate | congruence].
Qed.

Lemma firstMatch_first (row : Row) (pre post : list ColumnCondition) (c : ColumnCondition) :
  (∀ c', c' ∈ pre → evaluateCondition row c' = false) →
  evaluateCondition row c = true →
  firstMatch row (pre ++ c :: post) = Some (thenValue c).
Proof.
  induction pre as [|p pre IH]; simpl; intros Hpre Hc.
  - now rewrite Hc.
  - rewrite (Hpre p) by apply list_elem_of_here.
    apply IH; [|exact Hc]. intros c' Hin. apply Hpre. now apply list_elem_of_further.
Qed.

Lemma firstMatch_none (row : Row) (cs : list ColumnCondition) :
  (∀ c, c ∈ cs → evaluateCondition row c = false) → firstMatch row cs = None.
Proof.
  induction cs as [|c cs IH]; simpl; intros Hall; [reflexivity|].
  rewrite (Hall c) by apply list_elem_of_here.
  apply IH. intros c' Hin. apply Hall. now apply list_elem_of_further.
Qed.

(** C9. [computeColumnValue] returns the [thenValue] of the first condition,
    in list order, that holds on the row; when none holds it returns
    [defaultValue], or, when that is empty, the [elseValue] of the first
    condition (the empty string when there is no condition).  For the
    definition [status equals 'true' then 'Active'] with default
    ['Inactive']: a row yields ['Active'] when the string form of its status,
    case folded, is ["true"], as for the boolean [true], and ['Inactive']
    otherwise, as for [false], [null] and a missing status. *)
Theorem computeColumnValue_first_match (row : Row) (columnDef : ComputedColumnDefinition) :
  (∀ pre c post,
     conditions columnDef = (pre ++ c :: post)%list →
     (∀ c', c' ∈ pre → evaluateCondition row c' = false) →
     evaluateCondition row c = true →
     computeColumnValue row columnDef = thenValue c) ∧
  ((∀ c, c ∈ conditions columnDef → evaluateCondition row c = false) →
     computeColumnValue row columnDef =
       if decide (defaultValue columnDef = "")
       then match conditions columnDef with
            | c :: _ => elseValue c
            | [] => ""
            end
       else defaultValue columnDef) ∧
  (∀ key title id els,
     computeColumnValue row (statusColumn key title id els) =
       (if decide (toLowerCase (js_String (getField row "status")) = "true")
        then "Active" else "Inactive") ∧
     (getField row "status" = VBool true →
        computeColumnValue row (statusColumn key title id els) = "Active") ∧
     (getField row "status" = VBool false ∨ getField row "status" = VNull ∨
      row !! "status" = None →
        computeColumnValue row (statusColumn key title id els) = "Inactive")).
Proof.
  split; [|split].
  - intros pre c post E Hpre Hc. unfold computeColumnValue.
    now rewrite E, (firstMatch_first row pre post c Hpre Hc).
  - intros Hall. unfold computeColumnValue.
    rewrite (firstMatch_none row _ Hall).
    destruct (decide (defaultValue columnDef = "")) as [E|E].
    + apply str_truthy_empty in E. rewrite E.
      destruct (conditions columnDef) as [|c cs]; [reflexivity|].
      destruct (str_truthy (elseValue c)) eqn:Ee; [reflexivity|].
      symmetry. now apply str_truthy_empty.
    + apply str_truthy_ne in E. now rewrite E.
  - intros key title id els.
    assert (Hgen : computeColumnValue row (statusColumn key title id els) =
              if decide (toLowerCase (js_String (getField row "status")) = "true")
              then "Active" else "Inactive").
    { unfold computeColumnValue, statusColumn. simpl.
      unfold evaluateCondition, string_eqb. simpl.
      destruct (decide (toLowerCase (js_String (getField row "status")) = "true"))
        as [E|E].
      - now rewrite bool_decide_true.
      - now rewrite bool_decide_false. }
    split; [exact Hgen|]. split.
    + intros E. rewrite Hgen, E. reflexivity.
    + intros H. rewrite Hgen.
      assert (Hs : getField row "status" = VBool false ∨ getField row "status" = VNull ∨
                   getField row "status" = VUndefined).
      { destruct H as [H|[H|H]]; auto. right; right. unfold getField. now rewrite H. }
      destruct Hs as [E|[E|E]]; rewrite E; reflexivity.
Qed.

Lemma computeColumnValue_first_match_witness :
  computeColumnValue alice tieredColumn = "Has-li" ∧
  computeColumnValue bob tieredColumn = "Low" ∧
  computeColumnValue alice (statusColumn "s" "S" "c" "") = "Active" ∧
  computeColumnValue bob (statusColumn "s" "S" "c" "") = "Inactive".
Proof.
  split; [|split; [|split]].
  - apply (proj1 (computeColumnValue_first_match alice tieredColumn)
             [ {| cond_id := "c1"; sourceColumn := "id"; operator := CGreaterThan;
                  compareValue := "5"; thenValue := "High"; elseValue := "Low" |} ]
             {| cond_id := "c2"; sourceColumn := "name"; operator := CContains;
                compareValue := "LI"; thenValue := "Has-li"; elseValue := "" |}
             [ {| cond_id := "c3"; sourceColumn := "status"; operator := CEquals;
                  compareValue := "true"; thenValue := "Active"; elseValue := "" |} ]).
    + reflexivity.
    + intros c' Hin. apply list_elem_of_singleton in Hin. subst c'. reflexivity.
    + reflexivity.
  - rewrite (proj1 (proj2 (computeColumnValue_first_match bob tieredColumn))).
    + reflexivity.
    + intros c Hin. simpl in Hin. rewrite !elem_of_cons in Hin.
      destruct Hin as [->|[->|[->|Hin]]]; try reflexivity. inversion Hin.
  - apply (proj2 (proj2 (computeColumnValue_first_match alice tieredColumn))).
    reflexivity.
  - apply (proj2 (proj2 (computeColumnValue_first_match bob tieredColumn))).
    left. reflexivity.
Defined.

(** ** Coloring *)

Section ColorMaps.
Context `{Countable K}.
Implicit Types (map : gmap K string) (key : K) (color : string).

Lemma noEmptyColor_empty : noEmptyColor (∅ : gmap K string).
Proof. intros k c Hk. now rewrite lookup_empty in Hk. Qed.

Lemma setOrDelete_noEmptyColor key color map :
  noEmptyColor map → noEmptyColor (setOrDelete key color map).
Proof.
  intros Hinv k c. unfold setOrDelete.
  destruct (str_truthy color) eqn:Hc.
  - rewrite lookup_insert. case_decide; [|apply Hinv].
    intros [= <-]. now apply str_truthy_ne.
  - rewrite lookup_delete. case_decide; [discriminate | apply Hinv].
Qed.

Lemma setOrDelete_clear key map : setOrDelete key "" map !! key = None.
Proof. unfold setOrDelete. simpl. apply lookup_delete_eq. Qed.

Lemma getOrEmpty_lookup key map :
  noEmptyColor map → getOrEmpty map key = default "" (map !! key).
Proof.
  intros Hinv. unfold getOrEmpty. destruct (map !! key) as [c|] eqn:E; [|reflexivity].
  simpl. apply Hinv, str_truthy_ne in E. now rewrite E.
Qed.

End ColorMaps.

Lemma coloringInv_init : coloringInv createColoringState.
Proof. repeat split; apply noEmptyColor_empty. Qed.

Lemma coloringInv_step (state : ColoringState) (op : ColoringOp) :
  coloringInv state → coloringInv (coloringStep state op).
Proof.
  intros (Hr & Hc & Hx).
  destruct op; repeat split; simpl;
    auto using @setOrDelete_noEmptyColor, @noEmptyColor_empty.
Qed.

Lemma coloringReachable_inv (state : ColoringState) :
  coloringReachable state → coloringInv state.
Proof.
  induction 1; [apply coloringInv_init | now apply coloringInv_step].
Qed.

(** C10. In every coloring state reached from the initial one by coloring
    operations no map holds the empty string as a color, every operation
    keeps it so, and setting the empty color removes the entry.  Hence
    [getResolvedCellColor] is the first assignment present among the cell,
    the row and the column entry, in this order, and is the empty string
    exactly when none of the three is present. *)
Theorem coloring_no_empty_color (state : ColoringState) :
  coloringReachable state →
  coloringInv state ∧
  (∀ op, coloringInv (coloringStep state op)) ∧
  (∀ rowKey columnKey,
     rowColors (setRowColor state rowKey "") !! rowKey = None ∧
     columnColors (setColumnColor state columnKey "") !! columnKey = None ∧
     cellColors (setCellColor state rowKey columnKey "")
       !! getCellKey rowKey columnKey = None) ∧
  (∀ rowKey columnKey,
     getResolvedCellColor state rowKey columnKey =
       match cellColors state !! getCellKey rowKey columnKey with
       | Some cellColor => cellColor
       | None =>
           match rowColors state !! rowKey with
           | Some rowColor => rowColor
           | None => default "" (columnColors state !! columnKey)
           end
       end ∧
     (getResolvedCellColor state rowKey columnKey = "" ↔
        cellColors state !! getCellKey rowKey columnKey = None ∧
        rowColors state !! rowKey = None ∧
        columnColors state !! columnKey = None)).
Proof.
  intros Hreach. pose proof (coloringReachable_inv state Hreach) as Hinv.
  split; [exact Hinv|]. split; [intros op; now apply coloringInv_step|].
  split; [intros rowKey columnKey; repeat split; apply setOrDelete_clear|].
  destruct Hinv as (Hr & Hc & Hx). intros rowKey columnKey.
  assert (Hres : getResolvedCellColor state rowKey columnKey =
            match cellColors state !! getCellKey rowKey columnKey with
            | Some cellColor => cellColor
            | None =>
                match rowColors state !! rowKey with
                | Some rowColor => rowColor
                | None => default "" (columnColors state !! columnKey)
                end
            end).
  { unfold getResolvedCellColor, getCellColor, getRowColor, getColumnColor.
    rewrite (getOrEmpty_lookup _ _ Hx), (getOrEmpty_lookup _ _ Hr),
            (getOrEmpty_lookup _ _ Hc).
    destruct (cellColors state !! getCellKey rowKey columnKey) as [c|] eqn:Ex; simpl.
    { apply Hx, str_truthy_ne in Ex. now rewrite Ex. }
    destruct (rowColors state !! rowKey) as [c|] eqn:Er; simpl.
    { apply Hr, str_truthy_ne in Er. now rewrite Er. }
    destruct (columnColors state !! columnKey) as [c|] eqn:Ec; simpl; [|reflexivity].
    apply Hc, str_truthy_ne in Ec. now rewrite Ec. }
  split; [exact Hres|]. rewrite Hres. split.
  - destruct (cellColors state !! getCellKey rowKey columnKey) as [c|] eqn:Ex.
    { intros ->. now apply Hx in Ex. }
    destruct (rowColors state !! rowKey) as [c|] eqn:Er.
    { intros ->. now apply Hr in Er. }
    destruct (columnColors state !! columnKey) as [c|] eqn:Ec; [|auto].
    simpl. intros ->. now apply Hc in Ec.
  - intros (-> & -> & ->). reflexivity.
Qed.

Lemma coloring_no_empty_color_witness :
  coloringReachable paintedState ∧
  getResolvedCellColor paintedState (VStr "row1") "colX" = "#dbeafe" ∧
  getResolvedCellColor paintedState (VStr "row2") "colX" = "#fee2e2" ∧
  (getResolvedCellColor paintedState (VStr "row2") "colY" = "" ↔
     cellColors paintedState !! getCellKey (VStr "row2") "colY" = None ∧
     rowColors paintedState !! VStr "row2" = None ∧
     columnColors paintedState !! "colY" = None).
Proof.
  assert (Hreach : coloringReachable paintedState).
  { apply (coloring_step _ (OpSetCellColor (VStr "row1") "colX" "#dbeafe")).
    apply (coloring_step _ (OpSetColumnColor "colX" "#fee2e2")).
    apply coloring_init. }
  split; [exact Hreach|].
  destruct (coloring_no_empty_color paintedState Hreach) as (_ & _ & _ & Hres).
  split; [|split].
  - rewrite (proj1 (Hres (VStr "row1") "colX")). reflexivity.
  - rewrite (proj1 (Hres (VStr "row2") "colX")). reflexivity.
  - apply (proj2 (Hres (VStr "row2") "colY")).
Defined.

(** ** Pagination *)

(** [Math.ceil(a / b)] for a positive divisor: the least integer whose
    multiple of [b] reaches [a]. *)
Lemma js_ceil_div_pos (a b : Z) :
  0 < b →
  ∃ c, js_ceil_div a b = Num c ∧ (c - 1) * b < a ≤ c * b.
Proof.
  intros Hb. exists (- ((- a) / b)). unfold js_ceil_div.
  destruct (Z.eqb_spec b 0) as [->|_]; [lia|]. split; [reflexivity|].
  pose proof (Z.div_mod (- a) b ltac:(lia)) as Hdm.
  pose proof (Z.mod_pos_bound (- a) b Hb) as Hr. nia.
Qed.

(** [Math.floor(a / b)] for a positive divisor. *)
Lemma js_floor_div_pos (a b : Z) :
  0 < b →
  ∃ q, js_floor_div a b = Num q ∧ q * b ≤ a < (q + 1) * b.
Proof.
  intros Hb. exists (a / b). unfold js_floor_div.
  destruct (Z.eqb_spec b 0) as [->|_]; [lia|]. split; [reflexivity|].
  pose proof (Z.div_mod a b ltac:(lia)) as Hdm.
  pose proof (Z.mod_pos_bound a b Hb) as Hr. nia.
Qed.

(** C6. For a cursor with a positive page size over [totalItems] rows,
    [totalPages] is the ceiling of [totalItems / pageSize], which is 0 when
    there is no item, and [goToPage p] with [p] below 1 or above
    [totalPages] changes nothing and emits nothing (a page inside the range
    is taken and announced). *)
Theorem goToPage_out_of_range (state : PaginationState) (totalItems p : Z) :
  0 < pageSize state →
  0 ≤ totalItems →
  ∃ totalPages,
    computeTotalPages totalItems (pageSize state) = Num totalPages ∧
    (totalPages - 1) * pageSize state < totalItems ≤ totalPages * pageSize state ∧
    (totalItems = 0 → totalPages = 0) ∧
    (p < 1 ∨ totalPages < p →
       goToPage (PageNumber p) state totalItems = (state, [])) ∧
    (1 ≤ p ≤ totalPages →
       goToPage (PageNumber p) state totalItems =
         ({| currentPage := p; pageSize := pageSize state |},
          [ {| pce_page := p; pce_pageSize := pageSize state |} ])).
Proof.
  intros Hps Hn.
  destruct (js_ceil_div_pos totalItems (pageSize state) Hps) as (c & Hc & Hb).
  exists c. unfold goToPage, computeTotalPages. rewrite Hc.
  split; [reflexivity|]. split; [exact Hb|]. split; [nia|].
  unfold js_gt. simpl. split.
  - intros Hout.
    destruct (Z.ltb_spec p 1); [reflexivity|].
    destruct (Z.ltb_spec c p); [reflexivity|]. lia.
  - intros Hin.
    destruct (Z.ltb_spec p 1); [lia|].
    destruct (Z.ltb_spec c p); [lia|]. reflexivity.
Qed.

Lemma goToPage_out_of_range_witness :
  totalItems twentyFiveTable = 25 ∧
  totalPages twentyFiveTable = Num 3 ∧
  table_goToPage twentyFiveTable (PageNumber 4) = (paginationState twentyFiveTable, []) ∧
  table_goToPage twentyFiveTable (PageNumber 0) = (paginationState twentyFiveTable, []).
Proof.
  destruct (goToPage_out_of_range (paginationState twentyFiveTable)
              (totalItems twentyFiveTable) 4)
    as (t & Ht & _ & _ & Hout & _); [reflexivity | discriminate |].
  destruct (goToPage_out_of_range (paginationState twentyFiveTable)
              (totalItems twentyFiveTable) 0)
    as (t0 & _ & _ & _ & Hout0 & _); [reflexivity | discriminate |].
  split; [reflexivity|]. split; [reflexivity|]. split.
  - apply Hout. right. injection Ht as <-. reflexivity.
  - apply Hout0. left. reflexivity.
Defined.

(** Outside the cursor invariant [pageSize > 0] the quotient is not a
    number: with no row and a page size of 0, [totalPages] is [NaN] and no
    page above 0 is refused. *)
Example goToPage_zero_page_size :
  computeTotalPages 0 0 = NaN ∧
  goToPage (PageNumber 5) {| currentPage := 1; pageSize := 0 |} 0 =
    ({| currentPage := 5; pageSize := 0 |}, [ {| pce_page := 5; pce_pageSize := 0 |} ]).
Proof. split; reflexivity. Qed.

Example goToPage_string_page (state : PaginationState) (totalItems : Z) (s : string) :
  goToPage (PageString s) state totalItems = (state, []).
Proof. reflexivity. Qed.

(** ** Virtual scrolling *)

Lemma js_slice_length_le {A} (i j : jsnum) (l : list A) :
  (length (js_slice i j l) ≤ length l)%nat.
Proof. unfold js_slice. rewrite length_take, length_drop. lia. Qed.

Lemma js_slice_sublist {A} (i j : jsnum) (l : list A) : sublist (js_slice i j l) l.
Proof.
  unfold js_slice. etransitivity; [apply sublist_take | apply sublist_drop].
Qed.

Lemma js_add_Num (a b : Z) : js_add (Num a) (Num b) = Num (a + b).
Proof. reflexivity. Qed.

Lemma js_sub_Num (a b : Z) : js_sub (Num a) (Num b) = Num (a - b).
Proof. reflexivity. Qed.

Lemma js_mul_Num (a b : Z) : js_mul (Num a) (Num b) = Num (a * b).
Proof. reflexivity. Qed.

Lemma js_max_Num (a b : Z) : js_max (Num a) (Num b) = Num (Z.max a b).
Proof. unfold js_max. simpl. destruct (Z.ltb_spec a b); f_equal; lia. Qed.

Lemma js_min_Num (a b : Z) : js_min (Num a) (Num b) = Num (Z.min a b).
Proof. unfold js_min. simpl. destruct (Z.ltb_spec b a); f_equal; lia. Qed.

(** C5. With virtual scrolling enabled and a positive item height,
    [computeVirtualScrollData] returns
    [startIndex = max(0, floor(scrollTop / itemHeight) - bufferSize)],
    [endIndex = min(totalRows, startIndex + visibleCount)] for
    [visibleCount = ceil(containerHeight / itemHeight) + 2 * bufferSize],
    the rows [data.slice(startIndex, endIndex)],
    [offsetY = startIndex * itemHeight] and
    [totalHeight = totalRows * itemHeight], where the floor [q] and the
    ceiling [c] are the integers bracketing the two quotients.  Disabled, it
    returns the paginated rows unchanged with [startIndex = 0] and
    [endIndex] their length. *)
Theorem computeVirtualScrollData_window (data paginatedData : list Row)
    (state : VirtualScrollState) (config : VirtualScrollConfig) :
  (enabled config = true → 0 < itemHeight config →
     ∃ q c,
       q * itemHeight config ≤ scrollTop state < (q + 1) * itemHeight config ∧
       (c - 1) * itemHeight config < containerHeight config ≤ c * itemHeight config ∧
       let totalRows := Z.of_nat (length data) in
       let start := Z.max 0 (q - bufferSize config) in
       let count := c + 2 * bufferSize config in
       let end_ := Z.min totalRows (start + count) in
       visibleCount config = Num count ∧
       computeVirtualScrollData data paginatedData state config =
         {| visibleData := js_slice (Num start) (Num end_) data;
            startIndex := Num start;
            endIndex := Num end_;
            offsetY := Num (start * itemHeight config);
            totalHeight := totalRows * itemHeight config |}) ∧
  (enabled config = false →
     computeVirtualScrollData data paginatedData state config =
       {| visibleData := paginatedData;
          startIndex := Num 0;
          endIndex := Num (Z.of_nat (length paginatedData));
          offsetY := Num 0;
          totalHeight := Z.of_nat (length paginatedData) * itemHeight config |}).
Proof.
  split.
  - intros Hen Hh.
    destruct (js_floor_div_pos (scrollTop state) (itemHeight config) Hh) as (q & Hq & Hqb).
    destruct (js_ceil_div_pos (containerHeight config) (itemHeight config) Hh)
      as (c & Hc & Hcb).
    exists q, c. split; [exact Hqb|]. split; [exact Hcb|]. simpl.
    assert (Hcount : visibleCount config = Num (c + 2 * bufferSize config)).
    { unfold visibleCount. rewrite Hc, js_add_Num. f_equal. lia. }
    split; [exact Hcount|].
    unfold computeVirtualScrollData. rewrite Hen, Hq, Hcount. cbn [negb].
    rewrite js_sub_Num, js_max_Num, js_add_Num, js_min_Num, js_mul_Num.
    reflexivity.
  - intros Hdis. unfold computeVirtualScrollData. now rewrite Hdis.
Qed.

Lemma computeVirtualScrollData_window_witness :
  let vs := computeVirtualScrollData thousandRows (take 10 thousandRows)
              {| scrollTop := 960 |} exampleScrollConfig in
  startIndex vs = Num 15 ∧ visibleCount exampleScrollConfig = Num 23 ∧
  endIndex vs = Num 38 ∧ offsetY vs = Num 720 ∧ totalHeight vs = 48000 ∧
  visibleData vs = take 23 (drop 15 thousandRows).
Proof.
  destruct (proj1 (computeVirtualScrollData_window thousandRows (take 10 thousandRows)
                     {| scrollTop := 960 |} exampleScrollConfig))
    as (q & c & Hq & Hc & Hcount & Hvs); [reflexivity | reflexivity |].
  simpl in Hq, Hc.
  assert (q = 20) as -> by lia. assert (c = 13) as -> by lia.
  intros vs. subst vs. rewrite Hvs, Hcount.
  cbn [startIndex endIndex offsetY totalHeight visibleData].
  repeat split; reflexivity.
Defined.

(** ** The row pipeline of the component *)

Lemma sort_insert_Permutation {A} (cmp : A → A → Z) (x : A) (l : list A) :
  sort_insert cmp x l ≡ₚ x :: l.
Proof.
  induction l as [|y l IH]; simpl; [reflexivity|].
  destruct (cmp x y <=? 0); [reflexivity|].
  rewrite IH. apply Permutation_swap.
Qed.

Lemma js_sort_Permutation {A} (cmp : A → A → Z) (l : list A) : js_sort cmp l ≡ₚ l.
Proof.
  induction l as [|x l IH]; simpl; [reflexivity|].
  unfold js_sort in *. simpl. rewrite sort_insert_Permutation. now rewrite IH.
Qed.

Lemma applySorting_Permutation (data : list Row) (state : SortingState)
    (columns : list ColumnConfig) (cmp : value → value → Z) :
  applySorting data state columns cmp ≡ₚ data.
Proof.
  unfold applySorting. destruct (sorts state); [reflexivity|].
  apply js_sort_Permutation.
Qed.

Lemma applyPagination_sublist (data : list Row) (state : PaginationState) (b : bool) :
  sublist (applyPagination data state b) data.
Proof.
  unfold applyPagination. destruct b; simpl; [apply js_slice_sublist | reflexivity].
Qed.

Lemma virtualScrollData_disabled (localeCompare : string → string → Z) (t : Table) :
  enabled (getVirtualScrollConfig (mergedConfig t)) = false →
  visibleData (virtualScrollData localeCompare t) = paginatedData localeCompare t.
Proof.
  intros Hdis. unfold virtualScrollData. cbv zeta. unfold computeVirtualScrollData.
  now rewrite Hdis.
Qed.

Lemma virtualScrollData_enabled (localeCompare : string → string → Z) (t : Table) :
  enabled (getVirtualScrollConfig (mergedConfig t)) = true →
  visibleData (virtualScrollData localeCompare t) =
  js_slice (startIndex (virtualScrollData localeCompare t))
           (endIndex (virtualScrollData localeCompare t))
           (sortedData localeCompare t).
Proof.
  intros Hen. unfold virtualScrollData. cbv zeta. unfold computeVirtualScrollData.
  now rewrite Hen.
Qed.

(** C1, as stated, fails: with virtual scrolling on, five rows and pages of
    two rows, the component shows all five rows, which no slice of the
    two-row page yields. *)
Lemma windower_ignores_pagination : ¬ windowsPaginatedRows codeUnitCompare scrolledTable.
Proof.
  intros (i & j & E).
  pose proof (js_slice_length_le i j (paginatedData codeUnitCompare scrolledTable)) as Hle.
  rewrite <- E in Hle.
  change (5 ≤ 2)%nat in Hle. lia.
Qed.

(** C1, amended. The rows of the component are staged as filtering, then
    sorting, then either pagination or windowing: the filtered rows are a
    sublist of the input, the sorted rows a permutation of the filtered
    ones, the paginated rows a page of the sorted ones; with virtual
    scrolling off the rendered rows are the paginated rows, and with it on
    they are the window [slice(startIndex, endIndex)] of the filtered and
    sorted rows, the pagination cursor playing no part. *)
Theorem rendered_rows_stage_order (localeCompare : string → string → Z) (t : Table) :
  let filtered := applyFiltering (data t) (filteringState t) in
  let sorted :=
    applySorting filtered (sortingState t) (columns t) (defaultCompare localeCompare) in
  let paginated :=
    applyPagination sorted (paginationState t)
                    (default true (enablePagination (mergedConfig t))) in
  let vs := virtualScrollData localeCompare t in
  sublist filtered (data t) ∧
  sorted ≡ₚ filtered ∧
  sublist paginated sorted ∧
  (enabled (getVirtualScrollConfig (mergedConfig t)) = false →
     visibleData vs = paginated) ∧
  (enabled (getVirtualScrollConfig (mergedConfig t)) = true →
     visibleData vs = js_slice (startIndex vs) (endIndex vs) sorted ∧
     ∀ cursor,
       visibleData vs =
       visibleData (virtualScrollData localeCompare
                      {| data := data t; columns := columns t; config := config t;
                         sortingState := sortingState t;
                         filteringState := filteringState t;
                         selectionState := selectionState t;
                         paginationState := cursor;
                         virtualScrollState := virtualScrollState t;
                         computedColumnsState := computedColumnsState t;
                         coloringState := coloringState t;
                         columnWidths := columnWidths t;
                         columnOrder := columnOrder t;
                         frozenColumns := frozenColumns t;
                         hiddenColumns := hiddenColumns t |})).
Proof.
  intros filtered sorted paginated vs. subst filtered sorted paginated vs.
  split; [rewrite applyFiltering_filter; apply filter_sublist|].
  split; [apply applySorting_Permutation|].
  split; [apply applyPagination_sublist|].
  split.
  - apply virtualScrollData_disabled.
  - intros Hen. split; [now apply virtualScrollData_enabled|].
    intros cursor. unfold virtualScrollData. cbv zeta.
    unfold computeVirtualScrollData, mergedConfig in *. cbn [config].
    rewrite Hen. reflexivity.
Qed.

Lemma rendered_rows_stage_order_witness :
  visibleData (virtualScrollData codeUnitCompare pagedTable) = take 2 fiveRows ∧
  visibleData (virtualScrollData codeUnitCompare scrolledTable) = fiveRows.
Proof.
  split.
  - rewrite (proj1 (proj2 (proj2 (proj2
               (rendered_rows_stage_order codeUnitCompare pagedTable))))).
    + reflexivity.
    + reflexivity.
  - destruct (proj2 (proj2 (proj2 (proj2
               (rendered_rows_stage_order codeUnitCompare scrolledTable)))))
      as [E _]; [reflexivity|].
    rewrite E. reflexivity.
Defined.

(** ** Frozen-column offsets *)

Lemma widthOr150_width (c : ColumnConfig) (w : Z) :
  col_width c = Some w → w ≠ 0 → widthOr150 c = w.
Proof.
  intros E Hw. unfold widthOr150. rewrite E.
  destruct (Z.eqb_spec w 0); [contradiction | reflexivity].
Qed.

Lemma foldl_widths (a : Z) (cols : list ColumnConfig) :
  foldl (λ off c, off + widthOr150 c) a cols = a + sumWidths cols.
Proof.
  revert a. induction cols as [|c cols IH]; intros a; simpl; [lia|].
  rewrite IH. lia.
Qed.

Lemma sumWidths_app (l1 l2 : list ColumnConfig) :
  sumWidths (l1 ++ l2) = sumWidths l1 + sumWidths l2.
Proof. induction l1 as [|c l1 IH]; simpl; [reflexivity|]. rewrite IH. lia. Qed.

Lemma sumWidths_rev (cols : list ColumnConfig) : sumWidths (rev cols) = sumWidths cols.
Proof.
  induction cols as [|c cols IH]; simpl; [reflexivity|].
  rewrite sumWidths_app, IH. simpl. lia.
Qed.

(** In a list without duplicate keys [findIndex] by key returns the
    position of the column. *)
Lemma findIndex_by_key (cols : list ColumnConfig) (i : nat) (column : ColumnConfig) :
  NoDup (col_key <$> cols) →
  cols !! i = Some column →
  findIndex (λ c, string_eqb (col_key c) (col_key column)) cols = Z.of_nat i.
Proof.
  revert i. induction cols as [|c cols IH]; intros i Hnd Hi; [discriminate|].
  simpl in Hnd. apply NoDup_cons in Hnd as [Hnotin Hnd]. simpl.
  destruct i as [|i]; simpl in Hi.
  - injection Hi as ->. unfold string_eqb. now rewrite bool_decide_true.
  - unfold string_eqb at 1. rewrite bool_decide_false.
    + rewrite (IH i Hnd Hi). destruct (Z.ltb_spec (Z.of_nat i) 0); lia.
    + intros E. apply Hnotin. rewrite E.
      apply list_elem_of_fmap. exists column. split; [reflexivity|].
      apply list_elem_of_lookup. eauto.
Qed.

Lemma filter_keys_unique (p : ColumnConfig → bool) (cols : list ColumnConfig) :
  NoDup (col_key <$> cols) → NoDup (col_key <$> List.filter p cols).
Proof.
  intros Hnd. apply (sublist_NoDup _ (col_key <$> cols)); [exact Hnd|].
  apply fmap_sublist, filter_sublist.
Qed.

(** C8. In any arrangement of columns with distinct keys, the left offset
    of the frozen-left column at position [i] of the frozen-left group is
    the sum of the widths of the frozen-left columns before it, plus 48 when
    row selection and its checkbox are enabled, and the right offset of the
    frozen-right column at position [i] is the sum of the widths of the
    frozen-right columns after it; both are rendered in pixels.  A width is
    read as [width || 150], which is the stored width of any column whose
    width is set and not zero. *)
Theorem frozen_offsets (cols : list ColumnConfig) (config : TableConfig) :
  NoDup (col_key <$> cols) →
  (∀ i column,
     getFrozenLeftColumns cols !! i = Some column →
     getFrozenLeftOffset column (getFrozenLeftColumns cols) config =
       px ((if truthy (enableRowSelection config) && truthy (showSelectionCheckbox config)
            then 48 else 0)
           + sumWidths (take i (getFrozenLeftColumns cols)))) ∧
  (∀ i column,
     getFrozenRightColumns cols !! i = Some column →
     getFrozenRightOffset column (getFrozenRightColumns cols) =
       px (sumWidths (drop (S i) (getFrozenRightColumns cols)))) ∧
  (∀ c w, c ∈ cols → col_width c = Some w → w ≠ 0 → widthOr150 c = w).
Proof.
  intros Hnd. split; [|split].
  - intros i column Hi. unfold getFrozenLeftOffset. cbv zeta.
    assert (HndL : NoDup (col_key <$> getFrozenLeftColumns cols))
      by apply filter_keys_unique, Hnd.
    rewrite (findIndex_by_key (getFrozenLeftColumns cols) i column HndL Hi).
    rewrite Nat2Z.id, foldl_widths. reflexivity.
  - intros i column Hi. unfold getFrozenRightOffset. cbv zeta.
    assert (HndR : NoDup (col_key <$> getFrozenRightColumns cols))
      by apply filter_keys_unique, Hnd.
    rewrite (findIndex_by_key (getFrozenRightColumns cols) i column HndR Hi).
    replace (Z.to_nat (Z.of_nat i + 1)) with (S i) by lia.
    rewrite foldl_widths, sumWidths_rev. reflexivity.
  - intros c w _. apply widthOr150_width.
Qed.

Lemma frozen_offsets_witness :
  NoDup (col_key <$> processedColumns frozenTable) ∧
  (∃ column,
     frozenLeftColumns frozenTable !! 1%nat = Some column ∧
     col_key column = "name" ∧
     table_getFrozenLeftOffset frozenTable column = "128px") ∧
  (∃ column,
     frozenRightColumns frozenTable !! 0%nat = Some column ∧
     col_key column = "salary" ∧
     table_getFrozenRightOffset frozenTable column = "210px").
Proof.
  assert (Hnd : NoDup (col_key <$> processedColumns frozenTable)).
  { refine (bool_decide_unpack _ _). vm_compute. exact I. }
  split; [exact Hnd|].
  destruct (frozen_offsets (processedColumns frozenTable) (mergedConfig frozenTable) Hnd)
    as (Hleft & Hright & _).
  split.
  - eexists. split; [reflexivity|]. split; [reflexivity|].
    unfold table_getFrozenLeftOffset, frozenLeftColumns.
    rewrite (Hleft 1%nat _ eq_refl). reflexivity.
  - eexists. split; [reflexivity|]. split; [reflexivity|].
    unfold table_getFrozenRightOffset, frozenRightColumns.
    rewrite (Hright 0%nat _ eq_refl). reflexivity.
Defined.

(** ** Sorting with a custom comparator *)

(** With one active sort entry whose column carries a comparator, the
    comparison of two rows is the comparator's result, multiplied by -1 when
    the direction is [desc]. *)
Lemma compareRows_custom_comparator (columns : list ColumnConfig)
    (defaultCompare : value → value → Z) (sort : SortConfig) (column : ColumnConfig)
    (cmp : Row → Row → SortDirection → Z) (a b : Row) :
  List.find (λ c, string_eqb (col_key c) (sort_key sort)) columns = Some column →
  col_sortComparator column = Some cmp →
  compareRows columns defaultCompare [sort] a b =
    if decide (sort_direction sort = Desc)
    then cmp a b (sort_direction sort) * -1
    else cmp a b (sort_direction sort).
Proof.
  intros Hfind Hcmp. simpl. rewrite Hfind. simpl. rewrite Hcmp.
  destruct (decide (sort_direction sort = Desc)); case_decide; lia.
Qed.

(** C2, on the code. A comparator that orders by id in the direction it
    receives is asked for [desc] and answers 1 for (alice, bob), "bob
    first"; [applySorting] multiplies the answer by -1 and returns the rows
    in ascending order, where the comparator's own answers sort them in
    descending order. *)
Theorem applySorting_negates_custom_comparator :
  byIdRespectingDirection alice bob Desc = 1 ∧
  compareRows [idColumnWithComparator] (defaultCompare codeUnitCompare)
              (orderedSorts (sorts idDescending)) alice bob = -1 ∧
  applySorting [alice; bob; carol] idDescending [idColumnWithComparator]
               (defaultCompare codeUnitCompare) = [alice; bob; carol] ∧
  js_sort (λ a b, byIdRespectingDirection a b Desc) [alice; bob; carol] =
    [carol; bob; alice].
Proof. repeat split; reflexivity. Qed.

(** ** Sorting and filtering on a computed column *)

(** C3, on the code. The cells of the computed column show [Active],
    [Inactive], [Active] for alice, bob, carol.  Filtering that column by
    [Inactive] keeps no row, where the computed values select bob, and
    sorting by it leaves the rows as they were, where the computed values
    put bob last: both stages read [row['statusLabel']], which is
    undefined. *)
Theorem computed_column_sorted_and_filtered_by_raw_field :
  (computeColumnValue alice statusLabel,
   computeColumnValue bob statusLabel,
   computeColumnValue carol statusLabel) = ("Active", "Inactive", "Active") ∧
  computedCellValue (computedTable true true) bob
    (computedColumnToColumnConfig statusLabel 3) = Some "Inactive" ∧
  filters (filteringState (computedTable true false)) =
    [ {| filter_key := "statusLabel"; filter_value := FScalar (VStr "Inactive");
         filter_operator := FContains |} ] ∧
  getField bob "statusLabel" = VUndefined ∧
  filteredData (computedTable true false) = [] ∧
  List.filter (λ row, includes (toLowerCase (computeColumnValue row statusLabel))
                               (toLowerCase "Inactive"))
              [alice; bob; carol] = [bob] ∧
  sortedData codeUnitCompare (computedTable false true) = [alice; bob; carol] ∧
  js_sort (λ a b, defaultCompare codeUnitCompare
                    (VStr (computeColumnValue a statusLabel))
                    (VStr (computeColumnValue b statusLabel)))
          [alice; bob; carol] = [alice; carol; bob].
Proof. repeat split; reflexivity. Qed.

(** ** Selection *)

Lemma toggleRowSelection_single (row : Row) (state : SelectionState)
    (deps : SelectionDeps) :
  selectionMode (deps_config deps) = Some Single →
  (size (selectedRows state) ≤ 1)%nat →
  (size (selectedRows (toggleRowSelection row state deps).1) ≤ 1)%nat.
Proof.
  intros Hmode Hsize. unfold toggleRowSelection.
  destruct (negb (truthy (enableRowSelection (deps_config deps)))); [exact Hsize|].
  simpl. rewrite Hmode. rewrite decide_True by reflexivity.
  case_decide; [rewrite size_empty; lia | rewrite size_singleton; lia].
Qed.

Lemma clearSelection_empty (state : SelectionState) :
  size (selectedRows (clearSelection state).1) = 0%nat.
Proof. reflexivity. Qed.

(** C4, on the code. In [single] mode, with nothing selected, the header
    checkbox handler [toggleAllSelection] selects both rows of the page. *)
Theorem toggleAllSelection_single_selects_page :
  selectionMode (mergedConfig singleSelectTable) = Some Single ∧
  selectedRows (selectionState singleSelectTable) = ∅ ∧
  selectedRows (table_toggleAllSelection codeUnitCompare singleSelectTable).1 =
    {[ VNum 1; VNum 2 ]} ∧
  size (selectedRows (table_toggleAllSelection codeUnitCompare singleSelectTable).1) = 2%nat.
Proof.
  assert (E : selectedRows (table_toggleAllSelection codeUnitCompare singleSelectTable).1
              = {[ VNum 1; VNum 2 ]}).
  { unfold table_toggleAllSelection, toggleAllSelection.
    change (allSelected codeUnitCompare singleSelectTable) with false.
    cbn [fst selectedRows].
    change (deps_paginatedData (selectionDeps codeUnitCompare singleSelectTable))
      with (take 2 fiveRows).
    change (keyFieldOf (deps_config (selectionDeps codeUnitCompare singleSelectTable)))
      with "id".
    simpl. set_solver. }
  split; [reflexivity|]. split; [reflexivity|]. split; [exact E|].
  rewrite E. rewrite size_union, !size_singleton; [reflexivity | set_solver].
Qed.

(** * Further properties of the features *)

(** ** Header clicks and the sort list *)

Lemma findIndex_range {A} (p : A → bool) (l : list A) :
  -1 ≤ findIndex p l < Z.of_nat (length l).
Proof.
  induction l as [|x l IH]; simpl; [lia|].
  destruct (p x); [lia|].
  destruct (Z.ltb_spec (findIndex p l) 0); lia.
Qed.

Lemma findIndex_found {A} (p : A → bool) (l : list A) :
  0 ≤ findIndex p l →
  ∃ x, l !! Z.to_nat (findIndex p l) = Some x ∧ p x = true.
Proof.
  induction l as [|x l IH]; simpl; [lia|].
  destruct (p x) eqn:Hp; [intros _; exists x; auto|].
  destruct (Z.ltb_spec (findIndex p l) 0) as [Hlt|Hge]; [lia|].
  intros _. destruct (IH Hge) as (y & Hy & Hpy). exists y. split; [|exact Hpy].
  replace (Z.to_nat (findIndex p l + 1)) with (S (Z.to_nat (findIndex p l))) by lia.
  exact Hy.
Qed.

Lemma findIndex_absent {A} (p : A → bool) (l : list A) :
  findIndex p l < 0 → ∀ x, x ∈ l → p x = false.
Proof.
  induction l as [|y l IH]; simpl; intros Hneg x Hin; [inversion Hin|].
  destruct (p y) eqn:Hp; [lia|].
  apply elem_of_cons in Hin as [->|Hin]; [exact Hp|].
  apply IH; [|exact Hin].
  destruct (Z.ltb_spec (findIndex p l) 0); lia.
Qed.

Lemma sortsWellFormed_nil : sortsWellFormed [].
Proof. split; [intros i s Hi; discriminate | constructor]. Qed.

Lemma sortsWellFormed_single (key : string) :
  sortsWellFormed [ {| sort_key := key; sort_direction := Asc; sort_order := 1 |} ].
Proof.
  split.
  - intros [|i] s Hi; simpl in Hi; [|discriminate].
    injection Hi as <-. simpl. split; [reflexivity | discriminate].
  - apply NoDup_singleton.
Qed.

Lemma sortsWellFormed_direction (l : list SortConfig) (i : nat) (e : SortConfig) :
  sortsWellFormed l → l !! i = Some e →
  sortsWellFormed (<[i := with_direction e Desc]> l).
Proof.
  intros [Hord Hnd] He. split.
  - intros j s Hj. destruct (decide (i = j)) as [->|Hne].
    + rewrite list_lookup_insert_eq in Hj by (eapply lookup_lt_Some; eauto).
      injection Hj as <-. simpl. split; [apply (Hord j e He) | discriminate].
    + rewrite list_lookup_insert_ne in Hj by exact Hne. now apply Hord.
  - rewrite list_fmap_insert. simpl.
    rewrite list_insert_id; [exact Hnd|]. now rewrite list_lookup_fmap, He.
Qed.

Lemma renumber_keys (l : list SortConfig) : sort_key <$> renumber l = sort_key <$> l.
Proof.
  unfold renumber. apply list_eq. intros i.
  rewrite !list_lookup_fmap, list_lookup_imap.
  destruct (l !! i); reflexivity.
Qed.

Lemma sortsWellFormed_remove (l : list SortConfig) (i : nat) :
  sortsWellFormed l → sortsWellFormed (renumber (delete i l)).
Proof.
  intros [Hord Hnd]. split.
  - intros j s Hj. unfold renumber in Hj. rewrite list_lookup_imap in Hj.
    destruct (delete i l !! j) as [e|] eqn:He; [|discriminate].
    injection Hj as <-. simpl. split; [reflexivity|].
    assert (Hin : e ∈ l).
    { eapply list_elem_of_delete_inv, list_elem_of_lookup; eauto. }
    apply list_elem_of_lookup in Hin as [k Hk]. now apply (Hord k e).
  - rewrite renumber_keys.
    apply (sublist_NoDup _ (sort_key <$> l)); [exact Hnd|].
    apply fmap_sublist, sublist_delete.
Qed.

Lemma sortsWellFormed_push (l : list SortConfig) (key : string) :
  sortsWellFormed l → key ∉ sort_key <$> l →
  sortsWellFormed
    (l ++ [ {| sort_key := key; sort_direction := Asc;
               sort_order := Z.of_nat (length l) + 1 |} ]).
Proof.
  intros [Hord Hnd] Hfresh. split.
  - intros j s Hj. apply lookup_app_Some in Hj as [Hj|[Hlen Hj]]; [now apply Hord|].
    destruct (j - length l)%nat as [|k] eqn:Hk; simpl in Hj; [|discriminate].
    injection Hj as <-. simpl. split; [f_equal; lia | discriminate].
  - rewrite fmap_app. simpl. apply NoDup_app. split; [exact Hnd|]. split.
    + intros k Hk Hk'. apply list_elem_of_singleton in Hk'. now subst k.
    + apply NoDup_singleton.
Qed.

Lemma handleHeaderClick_wellFormed (column : ColumnConfig) (shiftKey multi : bool)
    (state : SortingState) :
  sortsWellFormed (sorts state) →
  sortsWellFormed (sorts (handleHeaderClick column shiftKey state multi).1).
Proof.
  intros Hwf. unfold handleHeaderClick.
  destruct (negb (truthy (col_sortable column))); [exact Hwf|]. cbn [fst sorts].
  set (p := λ s : SortConfig, string_eqb (sort_key s) (col_key column)).
  destruct (multi && shiftKey).
  - destruct (Z.leb_spec 0 (findIndex p (sorts state))) as [Hge|Hlt].
    + destruct (findIndex_found p (sorts state) Hge) as (e & He & _). rewrite He.
      destruct (sort_direction e).
      * now apply sortsWellFormed_direction.
      * now apply sortsWellFormed_remove.
      * exact Hwf.
    + apply sortsWellFormed_push; [exact Hwf|].
      intros Hin. apply list_elem_of_fmap in Hin as (e & Hk & Hin).
      pose proof (findIndex_absent p (sorts state) Hlt e Hin) as Hp.
      unfold p, string_eqb in Hp. apply bool_decide_eq_false in Hp. congruence.
  - destruct ((0 <=? findIndex p (sorts state)) &&
              (Z.of_nat (length (sorts state)) =? 1)) eqn:Hone;
      [|apply sortsWellFormed_single].
    apply andb_true_iff in Hone as [_ Hlen]. apply Z.eqb_eq in Hlen.
    destruct (sorts state) as [|e [|e' rest]] eqn:Hs; simpl in Hlen; try lia.
    destruct (sort_direction e) eqn:Hd; try apply sortsWellFormed_nil.
    change [with_direction e Desc] with (<[0%nat := with_direction e Desc]> [e]).
    now apply sortsWellFormed_direction.
Qed.

(** A list whose entries carry increasing priorities is already in the
    order [sort((x, y) => x.order - y.order)] produces. *)
Lemma orderedSorts_increasing (l : list SortConfig) (k : Z) :
  (∀ i s, l !! i = Some s → sort_order s = Z.of_nat i + k) →
  js_sort (λ x y, sort_order x - sort_order y) l = l.
Proof.
  revert k. induction l as [|x l IH]; intros k Hord; [reflexivity|].
  unfold js_sort in *. simpl. rewrite (IH (k + 1)).
  - destruct l as [|y l']; [reflexivity|]. simpl.
    pose proof (Hord 0%nat x eq_refl) as Hx.
    pose proof (Hord 1%nat y eq_refl) as Hy.
    destruct (Z.leb_spec (sort_order x - sort_order y) 0); [reflexivity | lia].
  - intros i s Hi. rewrite (Hord (S i) s Hi). lia.
Qed.

(** X1.  Every sort list the feature can reach has dense 1-based priorities in
    array order, a direction on every entry and no repeated key; sorting it
    by priority, as [applySorting] does in place, leaves it unchanged. *)
Theorem sorting_state_well_formed (state : SortingState) :
  sortingReachable state →
  sortsWellFormed (sorts state) ∧ orderedSorts (sorts state) = sorts state.
Proof.
  intros Hreach.
  assert (Hwf : sortsWellFormed (sorts state)).
  { induction Hreach as [|column shiftKey multi state _ IH|state _ IH].
    - apply sortsWellFormed_nil.
    - now apply handleHeaderClick_wellFormed.
    - apply sortsWellFormed_nil. }
  split; [exact Hwf|].
  apply (orderedSorts_increasing _ 1). intros i s Hi. now apply Hwf.
Qed.

Lemma sorting_state_well_formed_witness :
  let click key shift st :=
    (handleHeaderClick (plainColumnSortable key) shift st true).1 in
  let st := click "id" true (click "name" true (click "id" true
              (click "name" true (click "id" false createSortingState)))) in
  sorts st = [ {| sort_key := "name"; sort_direction := Desc; sort_order := 1 |} ] ∧
  sortsWellFormed (sorts st).
Proof.
  intros click st. split; [reflexivity|].
  apply sorting_state_well_formed. subst st click.
  repeat apply sorting_click. apply sorting_init.
Defined.

(** X2.  Plain clicks (no shift, or multi-sort disabled) on a sortable column
    that is not the sole sort key set a single ascending entry for it; a
    second click turns it descending and a third removes it.  A click on a
    column that is not sortable changes nothing and emits nothing. *)
Theorem handleHeaderClick_plain_cycle (column : ColumnConfig) (shiftKey multi : bool)
    (state : SortingState) :
  (truthy (col_sortable column) = false →
     handleHeaderClick column shiftKey state multi = (state, [])) ∧
  (truthy (col_sortable column) = true → multi && shiftKey = false →
     (∀ e, sorts state = [e] → sort_key e ≠ col_key column) →
     let click st := (handleHeaderClick column shiftKey st multi).1 in
     sorts (click state) =
       [ {| sort_key := col_key column; sort_direction := Asc; sort_order := 1 |} ] ∧
     sorts (click (click state)) =
       [ {| sort_key := col_key column; sort_direction := Desc; sort_order := 1 |} ] ∧
     sorts (click (click (click state))) = [] ∧
     getSortDirection (col_key column) (click state) = Asc ∧
     getSortDirection (col_key column) (click (click state)) = Desc ∧
     getSortOrder (col_key column) (click state) = None).
Proof.
  split.
  - intros Hs. unfold handleHeaderClick. now rewrite Hs.
  - intros Hs Hplain Hsole. cbv zeta.
    assert (Hself : string_eqb (col_key column) (col_key column) = true)
      by (unfold string_eqb; now rewrite bool_decide_true).
    assert (H1 : sorts (handleHeaderClick column shiftKey state multi).1 =
              [ {| sort_key := col_key column; sort_direction := Asc; sort_order := 1 |} ]).
    { unfold handleHeaderClick. rewrite Hs, Hplain. cbn [negb fst sorts].
      destruct ((0 <=? findIndex _ (sorts state)) &&
                (Z.of_nat (length (sorts state)) =? 1)) eqn:Hone; [|reflexivity].
      exfalso. apply andb_true_iff in Hone as [Hidx Hlen].
      apply Z.leb_le in Hidx. apply Z.eqb_eq in Hlen.
      destruct (findIndex_found _ _ Hidx) as (x & Hx & Hkey).
      destruct (sorts state) as [|e [|e' rest]]; simpl in Hlen; try lia.
      apply list_elem_of_lookup_2, list_elem_of_singleton in Hx. subst x.
      apply (Hsole e eq_refl). unfold string_eqb in Hkey.
      now apply bool_decide_eq_true in Hkey. }
    destruct (handleHeaderClick column shiftKey state multi).1 as [l1]. simpl in H1.
    subst l1.
    assert (H2 : sorts (handleHeaderClick column shiftKey
                          {| sorts := [ {| sort_key := col_key column;
                                           sort_direction := Asc; sort_order := 1 |} ] |}
                          multi).1 =
              [ {| sort_key := col_key column; sort_direction := Desc; sort_order := 1 |} ]).
    { unfold handleHeaderClick. rewrite Hs, Hplain. cbn [negb fst sorts]. simpl.
      rewrite Hself. reflexivity. }
    split; [reflexivity|]. split; [exact H2|].
    destruct (handleHeaderClick column shiftKey _ multi).1 as [l2]. simpl in H2. subst l2.
    split.
    { unfold handleHeaderClick. rewrite Hs, Hplain. cbn [negb fst sorts]. simpl.
      rewrite Hself. reflexivity. }
    unfold getSortDirection, getSortOrder. simpl. rewrite Hself. auto.
Qed.

Lemma handleHeaderClick_plain_cycle_witness :
  let click st := (handleHeaderClick (plainColumnSortable "name") false st true).1 in
  sorts (click (click (click idDescending))) = [].
Proof.
  apply (proj2 (handleHeaderClick_plain_cycle (plainColumnSortable "name") false true
                  idDescending)).
  - reflexivity.
  - reflexivity.
  - intros e [= <-]. discriminate.
Defined.

(** ** What sorting keeps and what it orders *)

Section SortOrder.
Context {A : Type} (cmp : A → A → Z).
Hypothesis cmp_total : ∀ x y, cmp x y ≤ 0 ∨ cmp y x ≤ 0.
Hypothesis cmp_trans : ∀ x y z, cmp x y ≤ 0 → cmp y z ≤ 0 → cmp x z ≤ 0.

Lemma sort_insert_sorted (x : A) (l : list A) :
  StronglySorted (λ a b, cmp a b ≤ 0) l →
  StronglySorted (λ a b, cmp a b ≤ 0) (sort_insert cmp x l).
Proof.
  induction l as [|y l IH]; simpl; intros Hs.
  - repeat constructor.
  - apply StronglySorted_cons in Hs as [Hy Hs].
    destruct (Z.leb_spec (cmp x y) 0) as [Hxy|Hxy].
    + apply StronglySorted_cons. split.
      * constructor; [exact Hxy|].
        eapply Forall_impl; [exact Hy|]. intros z Hyz. now apply (cmp_trans x y z).
      * apply StronglySorted_cons. now split.
    + apply StronglySorted_cons. split; [|now apply IH].
      rewrite sort_insert_Permutation. constructor; [|exact Hy].
      destruct (cmp_total x y); [lia | assumption].
Qed.

Lemma js_sort_sorted (l : list A) : StronglySorted (λ a b, cmp a b ≤ 0) (js_sort cmp l).
Proof.
  induction l as [|x l IH]; [constructor|].
  unfold js_sort in *. simpl. now apply sort_insert_sorted.
Qed.
End SortOrder.

Lemma sort_insert_ext_in {A} (cmp cmp' : A → A → Z) (x : A) (l : list A) :
  (∀ y, y ∈ l → cmp x y = cmp' x y) → sort_insert cmp x l = sort_insert cmp' x l.
Proof.
  induction l as [|y l IH]; intros Hext; [reflexivity|]. simpl.
  rewrite (Hext y) by apply list_elem_of_here.
  destruct (cmp' x y <=? 0); [reflexivity|].
  f_equal. apply IH. intros z Hz. apply Hext. now apply list_elem_of_further.
Qed.

Lemma js_sort_ext_in {A} (cmp cmp' : A → A → Z) (l : list A) :
  (∀ a b, a ∈ l → b ∈ l → cmp a b = cmp' a b) → js_sort cmp l = js_sort cmp' l.
Proof.
  induction l as [|x l IH]; intros Hext; [reflexivity|].
  unfold js_sort in *. simpl. rewrite IH.
  - apply sort_insert_ext_in. intros y Hy. apply Hext; [apply list_elem_of_here|].
    apply list_elem_of_further.
    pose proof (js_sort_Permutation cmp' l) as Hp. unfold js_sort in Hp.
    now rewrite <- Hp.
  - intros a b Ha Hb. apply Hext; now apply list_elem_of_further.
Qed.

Lemma StronglySorted_weaken {A} (R R' : A → A → Prop) (l : list A) :
  (∀ a b, R a b → R' a b) → StronglySorted R l → StronglySorted R' l.
Proof.
  intros Himpl. induction 1 as [|x l Hs IH Hall]; constructor; [exact IH|].
  eapply Forall_impl; [exact Hall|]. auto.
Qed.

Lemma js_sort_ties {A} (cmp : A → A → Z) (l : list A) :
  (∀ x y, x ∈ l → y ∈ l → cmp x y ≤ 0) → js_sort cmp l = l.
Proof.
  induction l as [|x l IH]; intros Hties; [reflexivity|].
  unfold js_sort in *. simpl. rewrite IH.
  - destruct l as [|y l']; [reflexivity|]. simpl.
    destruct (Z.leb_spec (cmp x y) 0) as [_|Hgt]; [reflexivity|].
    assert (cmp x y ≤ 0); [|lia].
    apply Hties; [apply list_elem_of_here | apply list_elem_of_further, list_elem_of_here].
  - intros a b Ha Hb. apply Hties; now apply list_elem_of_further.
Qed.

(** X3.  [applySorting] loses and duplicates no row, returns its input when no
    sort is active, and keeps the input order when every pair of rows
    compares as equal under the active sorts. *)
Theorem applySorting_keeps_rows (data : list Row) (state : SortingState)
    (columns : list ColumnConfig) (cmp : value → value → Z) :
  applySorting data state columns cmp ≡ₚ data ∧
  length (applySorting data state columns cmp) = length data ∧
  (sorts state = [] → applySorting data state columns cmp = data) ∧
  ((∀ a b, a ∈ data → b ∈ data →
       compareRows columns cmp (orderedSorts (sorts state)) a b = 0) →
     applySorting data state columns cmp = data).
Proof.
  assert (Hperm : applySorting data state columns cmp ≡ₚ data).
  { unfold applySorting. destruct (sorts state); [reflexivity|].
    apply js_sort_Permutation. }
  split; [exact Hperm|]. split; [now rewrite Hperm|]. split.
  - intros E. unfold applySorting. now rewrite E.
  - intros Hties. unfold applySorting. destruct (sorts state); [reflexivity|].
    apply js_sort_ties. intros a b Ha Hb. rewrite (Hties a b Ha Hb). lia.
Qed.

Lemma applySorting_keeps_rows_witness :
  applySorting [carol; alice; bob]
    {| sorts := [ {| sort_key := "missing"; sort_direction := Desc; sort_order := 1 |} ] |}
    [] (defaultCompare codeUnitCompare) = [carol; alice; bob].
Proof.
  apply (applySorting_keeps_rows [carol; alice; bob] _ [] (defaultCompare codeUnitCompare)).
  intros a b Ha Hb. rewrite !elem_of_cons in Ha, Hb.
  destruct Ha as [->|[->|[->|Ha]]]; [| | |inversion Ha];
    (destruct Hb as [->|[->|[->|Hb]]]; [| | |inversion Hb]); reflexivity.
Defined.

(** X4.  With one active sort on a column without a custom comparator whose
    cells are all numbers, the default comparator orders the rows by that
    number: ascending for [asc], descending for [desc]. *)
Theorem applySorting_numeric_column (data : list Row) (columns : list ColumnConfig)
    (localeCompare : string → string → Z) (key : string) (dir : SortDirection) (order : Z) :
  (∀ c, c ∈ columns → col_key c = key → col_sortComparator c = None) →
  (∀ row, row ∈ data → ∃ n, getField row key = VNum n) →
  let sorted :=
    applySorting data
      {| sorts := [ {| sort_key := key; sort_direction := dir; sort_order := order |} ] |}
      columns (defaultCompare localeCompare) in
  (dir = Asc → StronglySorted (λ a b, numField a key ≤ numField b key) sorted) ∧
  (dir = Desc → StronglySorted (λ a b, numField b key ≤ numField a key) sorted).
Proof.
  intros Hcols Hnum sorted.
  set (s := {| sort_key := key; sort_direction := dir; sort_order := order |}).
  assert (Hcmp : ∀ a b, a ∈ data → b ∈ data →
            compareRows columns (defaultCompare localeCompare) [s] a b =
            if decide (dir = Desc) then numField b key - numField a key
            else numField a key - numField b key).
  { intros a b Ha Hb. subst s. simpl.
    assert (Hnone : List.find (λ c, string_eqb (col_key c) key) columns
                      ≫= col_sortComparator = None).
    { destruct (List.find _ columns) as [c|] eqn:Hf; [|reflexivity]. simpl.
      apply find_some in Hf as [Hin Hk]. apply Hcols; [now apply list_elem_of_In|].
      unfold string_eqb in Hk. now apply bool_decide_eq_true in Hk. }
    rewrite Hnone.
    destruct (Hnum a Ha) as [x Hx]. destruct (Hnum b Hb) as [y Hy].
    unfold numField. rewrite Hx, Hy. unfold defaultCompare.
    destruct (decide (VNum x = VNum y)) as [E|E].
    - injection E as ->. destruct (decide (dir = Desc)); repeat case_decide; lia.
    - destruct (decide (VNum x = VNull ∨ VNum x = VUndefined)) as [[H|H]|_];
        [discriminate..|].
      destruct (decide (VNum y = VNull ∨ VNum y = VUndefined)) as [[H|H]|_];
        [discriminate..|].
      assert (x ≠ y) by congruence.
      destruct (decide (dir = Desc)); repeat case_decide; lia. }
  assert (Hsorted : sorted = js_sort (compareRows columns (defaultCompare localeCompare) [s]) data)
    by reflexivity.
  assert (Hgen : StronglySorted
            (λ a b, (if decide (dir = Desc) then numField b key - numField a key
                     else numField a key - numField b key) ≤ 0) sorted).
  { rewrite Hsorted.
    rewrite (js_sort_ext_in _ (λ a b, if decide (dir = Desc)
                                      then numField b key - numField a key
                                      else numField a key - numField b key) data Hcmp).
    apply js_sort_sorted.
    - intros x y. destruct (decide (dir = Desc)); lia.
    - intros x y z. destruct (decide (dir = Desc)); lia. }
  split; intros ->; simpl in Hgen;
    (eapply StronglySorted_weaken; [|exact Hgen]); intros a b; simpl; lia.
Qed.

Lemma applySorting_numeric_column_witness :
  StronglySorted (λ a b, numField b "id" ≤ numField a "id")
    (applySorting fiveRows idDescending [plainColumn "id" 0; plainColumn "name" 1]
                  (defaultCompare codeUnitCompare)).
Proof.
  apply (proj2 (applySorting_numeric_column fiveRows
                  [plainColumn "id" 0; plainColumn "name" 1] codeUnitCompare "id" Desc 1
                  ltac:(intros c Hin _; rewrite !elem_of_cons in Hin;
                        destruct Hin as [->|[->|Hin]]; [reflexivity..|inversion Hin])
                  ltac:(intros row Hin; unfold fiveRows in Hin; rewrite !elem_of_cons in Hin;
                        destruct Hin as [->|[->|[->|[->|[->|Hin]]]]];
                        [eexists; reflexivity..|inversion Hin]))).
  reflexivity.
Defined.

(** ** Editing and composing filters *)

Lemma filter_other_keys (key : string) (fs : list FilterConfig) :
  filter (λ f, filter_key f ≠ key) (filter (λ f, filter_key f ≠ key) fs) =
  filter (λ f, filter_key f ≠ key) fs.
Proof.
  induction fs as [|f fs IH]; [reflexivity|].
  rewrite filter_cons. destruct (decide (filter_key f ≠ key)) as [Hne|]; [|exact IH].
  rewrite filter_cons, decide_True by exact Hne. now rewrite IH.
Qed.

Lemma handleFilterInput_others (column : ColumnConfig) (v : string)
    (state : FilteringState) :
  filter (λ f, filter_key f ≠ col_key column)
         (filters (handleFilterInput column v state).1) =
  filter (λ f, filter_key f ≠ col_key column) (filters state).
Proof.
  unfold handleFilterInput. cbn [fst filters].
  destruct (str_truthy (trim v)).
  - rewrite filter_app, filter_other_keys, filter_cons. simpl.
    rewrite decide_False by (intros H; now apply H). rewrite filter_nil.
    apply app_nil_r.
  - apply filter_other_keys.
Qed.

(** X5.  Typing [v] into the filter box of a column stores [v] as the box text,
    replaces the column's filter entry by one for the trimmed text, appended
    last, or drops it when the text is blank, leaves the entries and box
    texts of the other columns as they were, and announces the new list. *)
Theorem handleFilterInput_replaces (column : ColumnConfig) (v : string)
    (state : FilteringState) :
  let state' := (handleFilterInput column v state).1 in
  let others := filter (λ f, filter_key f ≠ col_key column) (filters state) in
  getFilterValue (col_key column) state' = v ∧
  (∀ key, key ≠ col_key column → getFilterValue key state' = getFilterValue key state) ∧
  filter (λ f, filter_key f ≠ col_key column) (filters state') = others ∧
  (trim v ≠ "" →
     filters state' =
       (others ++ [ {| filter_key := col_key column;
                       filter_value := FScalar (VStr (trim v));
                       filter_operator := getDefaultOperator (filterTypeOr column) |} ])%list) ∧
  (trim v = "" → filters state' = others) ∧
  (handleFilterInput column v state).2 = [ mkFilterChange (filters state') ].
Proof.
  cbv zeta. unfold handleFilterInput, getFilterValue. cbn [fst snd filters filterInputs].
  split; [|split; [|split; [|split; [|split]]]].
  - rewrite lookup_insert_eq. reflexivity.
  - intros key Hne. rewrite lookup_insert_ne by congruence. reflexivity.
  - apply (handleFilterInput_others column v state).
  - intros Hv. apply str_truthy_ne in Hv. now rewrite Hv.
  - intros Hv. apply str_truthy_empty in Hv. now rewrite Hv.
  - reflexivity.
Qed.

Lemma handleFilterInput_replaces_witness :
  let column := plainColumn "name" 1 in
  let state := (handleFilterInput column "ali" statusFilter).1 in
  filters (handleFilterInput column "  bo " state).1 =
    [ {| filter_key := "status"; filter_value := FScalar (VStr "TRUE");
         filter_operator := FEquals |};
      {| filter_key := "name"; filter_value := FScalar (VStr "bo");
         filter_operator := FContains |} ] ∧
  filters (handleFilterInput column "   " state).1 =
    [ {| filter_key := "status"; filter_value := FScalar (VStr "TRUE");
         filter_operator := FEquals |} ].
Proof.
  intros column state. split.
  - rewrite (proj1 (proj2 (proj2 (proj2
               (handleFilterInput_replaces column "  bo " state))))); [reflexivity|].
    discriminate.
  - rewrite (proj1 (proj2 (proj2 (proj2 (proj2
               (handleFilterInput_replaces column "   " state)))))); reflexivity.
Defined.

(** X6.  Clearing a column's filter removes its entry and its box text and
    touches nothing else; after an input on a column that had no entry it
    restores the filter list; clearing twice is clearing once. *)
Theorem clearFilter_removes (key : string) (state : FilteringState) :
  let state' := (clearFilter key state).1 in
  (∀ f, f ∈ filters state' → filter_key f ≠ key) ∧
  getFilterValue key state' = "" ∧
  (∀ f, filter_key f ≠ key → (f ∈ filters state' ↔ f ∈ filters state)) ∧
  (∀ other, other ≠ key → getFilterValue other state' = getFilterValue other state) ∧
  (clearFilter key state').1 = state' ∧
  (∀ column v,
     col_key column = key →
     (∀ f, f ∈ filters state → filter_key f ≠ key) →
     filters (clearFilter key (handleFilterInput column v state).1).1 = filters state).
Proof.
  cbv zeta. unfold clearFilter, getFilterValue. cbn [fst filters filterInputs].
  split; [|split; [|split; [|split; [|split]]]].
  - intros f Hf. now apply list_elem_of_filter in Hf as [Hne _].
  - now rewrite lookup_delete_eq.
  - intros f Hne. rewrite list_elem_of_filter. tauto.
  - intros other Hne. now rewrite lookup_delete_ne by congruence.
  - f_equal; [apply filter_other_keys|]. apply delete_delete_eq.
  - intros column v <- Hfresh.
    rewrite handleFilterInput_others.
    induction (filters state) as [|f fs IH]; [reflexivity|].
    rewrite filter_cons, decide_True by (apply Hfresh, list_elem_of_here).
    f_equal. apply IH. intros g Hg. apply Hfresh. now apply list_elem_of_further.
Qed.

Lemma clearFilter_removes_witness :
  filters (clearFilter "name"
             (handleFilterInput (plainColumn "name" 1) "ali" statusFilter).1).1 =
  filters statusFilter.
Proof.
  apply (clearFilter_removes "name" statusFilter); [reflexivity|].
  intros f Hf. apply list_elem_of_singleton in Hf. subst f. discriminate.
Defined.

Lemma forallb_Permutation {A} (p : A → bool) (l l' : list A) :
  l ≡ₚ l' → forallb p l = forallb p l'.
Proof.
  induction 1 as [|x l l' _ IH|x y l|l l' l'' _ IH1 _ IH2]; simpl.
  - reflexivity.
  - now rewrite IH.
  - destruct (p x), (p y); reflexivity.
  - congruence.
Qed.

(** X7.  Filters compose: filtering by two lists of entries at once is filtering
    by the first and then by the second, the order in which the entries are
    listed does not matter, and filtering twice by the same entries changes
    nothing more. *)
Theorem applyFiltering_composes (data : list Row) (fs1 fs2 : list FilterConfig)
    (inputs inputs1 inputs2 : gmap string string) :
  applyFiltering data {| filters := (fs1 ++ fs2)%list; filterInputs := inputs |} =
    applyFiltering (applyFiltering data {| filters := fs1; filterInputs := inputs1 |})
                   {| filters := fs2; filterInputs := inputs2 |} ∧
  (fs1 ≡ₚ fs2 →
     applyFiltering data {| filters := fs1; filterInputs := inputs1 |} =
     applyFiltering data {| filters := fs2; filterInputs := inputs2 |}) ∧
  applyFiltering (applyFiltering data {| filters := fs1; filterInputs := inputs1 |})
                 {| filters := fs1; filterInputs := inputs1 |} =
    applyFiltering data {| filters := fs1; filterInputs := inputs1 |}.
Proof.
  rewrite !applyFiltering_filter. cbn [filters]. split; [|split].
  - induction data as [|row data IH]; [reflexivity|]. simpl.
    rewrite forallb_app.
    destruct (forallb (applyFilterToRow row) fs1) eqn:E1; simpl.
    + destruct (forallb (applyFilterToRow row) fs2); now rewrite IH.
    + exact IH.
  - intros Hperm. induction data as [|row data IH]; [reflexivity|]. simpl.
    rewrite (forallb_Permutation _ _ _ Hperm). now rewrite IH.
  - induction data as [|row data IH]; [reflexivity|]. simpl.
    destruct (forallb (applyFilterToRow row) fs1) eqn:E1; simpl; [|exact IH].
    now rewrite E1, IH.
Qed.

Lemma applyFiltering_composes_witness :
  let byName := [ {| filter_key := "name"; filter_value := FScalar (VStr "a");
                     filter_operator := FContains |} ] in
  applyFiltering [alice; bob; carol]
    {| filters := (byName ++ filters statusFilter)%list; filterInputs := ∅ |} =
  applyFiltering [alice; bob; carol]
    {| filters := (filters statusFilter ++ byName)%list; filterInputs := ∅ |}.
Proof.
  intros byName.
  apply (proj1 (proj2 (applyFiltering_composes [alice; bob; carol]
                         (byName ++ filters statusFilter)%list
                         (filters statusFilter ++ byName)%list ∅ ∅ ∅))).
  apply Permutation_app_comm.
Defined.

Lemma js_compare_NaN (b : jsnum) :
  js_gt NaN b = false ∧ js_lt NaN b = false ∧ js_ge NaN b = false ∧ js_le NaN b = false.
Proof. destruct b; repeat split; reflexivity. Qed.

(** X8.  The predicate of each operator.  [notEquals] and [notContains] are the
    negations of [equals] and [contains] in filters and in conditions alike,
    and [isNotEmpty] of [isEmpty]; a cell that is not a number (its numeric
    cast is [NaN]) fails all four numeric comparisons at once; [between] and
    [inList] with a value that is not an array, and an unknown filter
    operator, accept every row, while an unknown condition operator matches
    none. *)
Theorem operator_predicates (row : Row) (key : string) (fv : FilterValue)
    (c : ColumnCondition) :
  let f op := {| filter_key := key; filter_value := fv; filter_operator := op |} in
  let cond op := {| cond_id := cond_id c; sourceColumn := sourceColumn c; operator := op;
                    compareValue := compareValue c; thenValue := thenValue c;
                    elseValue := elseValue c |} in
  applyFilterToRow row (f FNotEquals) = negb (applyFilterToRow row (f FEquals)) ∧
  applyFilterToRow row (f FNotContains) = negb (applyFilterToRow row (f FContains)) ∧
  evaluateCondition row (cond CNotEquals) = negb (evaluateCondition row (cond CEquals)) ∧
  evaluateCondition row (cond CNotContains) = negb (evaluateCondition row (cond CContains)) ∧
  evaluateCondition row (cond CIsNotEmpty) = negb (evaluateCondition row (cond CIsEmpty)) ∧
  (js_Number (getField row key) = NaN →
     applyFilterToRow row (f FGreaterThan) = false ∧
     applyFilterToRow row (f FLessThan) = false ∧
     applyFilterToRow row (f FGreaterThanOrEqual) = false ∧
     applyFilterToRow row (f FLessThanOrEqual) = false ∧
     (∀ lo hi, applyFilterToRow row
                 {| filter_key := key; filter_value := FArray [lo; hi];
                    filter_operator := FBetween |} = false)) ∧
  (js_Number (getField row (sourceColumn c)) = NaN →
     evaluateCondition row (cond CGreaterThan) = false ∧
     evaluateCondition row (cond CLessThan) = false ∧
     evaluateCondition row (cond CGreaterThanOrEqual) = false ∧
     evaluateCondition row (cond CLessThanOrEqual) = false) ∧
  (∀ v, applyFilterToRow row {| filter_key := key; filter_value := FScalar v;
                               filter_operator := FBetween |} = true ∧
        applyFilterToRow row {| filter_key := key; filter_value := FScalar v;
                               filter_operator := FInList |} = true) ∧
  (∀ name, applyFilterToRow row (f (FUnknown name)) = true ∧
           evaluateCondition row (cond (CUnknown name)) = false).
Proof.
  cbv zeta. unfold applyFilterToRow, evaluateCondition.
  cbn [filter_key filter_value filter_operator operator sourceColumn compareValue].
  split; [reflexivity|]. split; [reflexivity|]. split; [reflexivity|].
  split; [reflexivity|]. split; [reflexivity|]. split; [|split; [|split]].
  - intros H. rewrite H.
    destruct (js_compare_NaN (filterValue_Number fv)) as (Hgt & Hlt & Hge & Hle).
    repeat split; try assumption.
    intros lo hi. now destruct (js_compare_NaN (js_Number lo)) as (_ & _ & -> & _).
  - intros H. rewrite H.
    destruct (js_compare_NaN (string_to_number (compareValue c))) as (Hgt & Hlt & Hge & Hle).
    repeat split; assumption.
  - intros v. split; reflexivity.
  - intros name. split; reflexivity.
Qed.

Lemma operator_predicates_witness :
  applyFilterToRow alice {| filter_key := "name"; filter_value := FScalar (VNum 3);
                            filter_operator := FGreaterThan |} = false ∧
  applyFilterToRow alice {| filter_key := "name"; filter_value := FScalar (VNum 3);
                            filter_operator := FLessThanOrEqual |} = false.
Proof.
  destruct (operator_predicates alice "name" (FScalar (VNum 3)) (statusCondition "c" ""))
    as (_ & _ & _ & _ & _ & Hnan & _).
  destruct Hnan as (Hgt & _ & _ & Hle & _); [reflexivity|]. now split.
Defined.

(** ** Pages *)

Lemma js_slice_forward {A} (i j : Z) (l : list A) :
  0 ≤ i → 0 ≤ j →
  js_slice (Num i) (Num j) l = take (Z.to_nat (j - i)) (drop (Z.to_nat i) l).
Proof.
  intros Hi Hj. unfold js_slice, slice_index.
  destruct (Z.ltb_spec i 0); [lia|]. destruct (Z.ltb_spec j 0); [lia|].
  destruct (Z.le_gt_cases i (Z.of_nat (length l))) as [Hin|Hout].
  - rewrite (Z.min_l i) by lia.
    destruct (Z.le_gt_cases j (Z.of_nat (length l))) as [Hjin|Hjout].
    + now rewrite Z.min_l by lia.
    + rewrite Z.min_r by lia.
      rewrite !take_ge; [reflexivity | rewrite length_drop; lia | rewrite length_drop; lia].
  - rewrite !drop_ge by lia. now rewrite !take_nil.
Qed.

Lemma applyPagination_take_drop (data : list Row) (p ps : Z) :
  1 ≤ p → 0 ≤ ps →
  applyPagination data {| currentPage := p; pageSize := ps |} true =
  take (Z.to_nat ps) (drop (Z.to_nat ((p - 1) * ps)) data).
Proof.
  intros Hp Hps. unfold applyPagination. simpl.
  rewrite js_slice_forward by nia. do 2 f_equal. lia.
Qed.

(** X9.  The pages of a list.  With a positive page size, page [p] is the run of
    at most [pageSize] rows that starts after the [(p - 1) * pageSize] rows
    of the earlier pages; the first [n] pages laid end to end are the first
    [n * pageSize] rows, so the [totalPages] pages together are the whole
    list, each row on one page, in order.  Disabled, pagination returns the
    list. *)
Theorem applyPagination_pages (data : list Row) (ps : Z) :
  0 < ps →
  let page k := applyPagination data {| currentPage := Z.of_nat k + 1; pageSize := ps |} true in
  (∀ k, page k = take (Z.to_nat ps) (drop (k * Z.to_nat ps) data)) ∧
  (∀ k, Z.of_nat (length (page k)) ≤ ps) ∧
  (∀ n, concat (page <$> seq 0 n) = take (n * Z.to_nat ps) data) ∧
  (∃ t, computeTotalPages (Z.of_nat (length data)) ps = Num t ∧
        concat (page <$> seq 0 (Z.to_nat t)) = data) ∧
  (∀ state, applyPagination data state false = data).
Proof.
  intros Hps page.
  assert (Hpage : ∀ k, page k = take (Z.to_nat ps) (drop (k * Z.to_nat ps) data)).
  { intros k. unfold page. rewrite applyPagination_take_drop by lia.
    do 2 f_equal. nia. }
  split; [exact Hpage|]. split.
  { intros k. rewrite Hpage, length_take. lia. }
  assert (Hcat : ∀ n, concat (page <$> seq 0 n) = take (n * Z.to_nat ps) data).
  { induction n as [|n IH]; [now rewrite take_0|].
    rewrite seq_S, fmap_app, concat_app, IH. simpl. rewrite app_nil_r, Hpage.
    rewrite take_take_drop. f_equal. lia. }
  split; [exact Hcat|]. split; [|reflexivity].
  destruct (js_ceil_div_pos (Z.of_nat (length data)) ps Hps) as (t & Ht & Hb).
  exists t. split; [exact Ht|]. rewrite Hcat. apply take_ge. nia.
Qed.

Lemma applyPagination_pages_witness :
  applyPagination fiveRows {| currentPage := 3; pageSize := 2 |} true =
    [employee 5 "Eve" (VBool true)] ∧
  (applyPagination fiveRows {| currentPage := 1; pageSize := 2 |} true ++
   applyPagination fiveRows {| currentPage := 2; pageSize := 2 |} true ++
   applyPagination fiveRows {| currentPage := 3; pageSize := 2 |} true)%list = fiveRows.
Proof.
  destruct (applyPagination_pages fiveRows 2 ltac:(lia)) as (Hpage & _ & Hcat & _).
  split.
  - exact (Hpage 2%nat).
  - exact (Hcat 3%nat).
Defined.

(** X10.  [goToPage] accepts exactly the pages that hold a row: for a positive
    page size, a page change is announced for page [p] if and only if
    [p >= 1] and page [p] of the list is not empty. *)
Theorem goToPage_accepts_nonempty_pages (data : list Row) (state : PaginationState) (p : Z) :
  0 < pageSize state →
  (goToPage (PageNumber p) state (Z.of_nat (length data))).2 ≠ [] ↔
  1 ≤ p ∧
  applyPagination data {| currentPage := p; pageSize := pageSize state |} true ≠ [].
Proof.
  intros Hps.
  destruct (js_ceil_div_pos (Z.of_nat (length data)) (pageSize state) Hps) as (t & Ht & Hb).
  unfold goToPage, computeTotalPages. rewrite Ht. unfold js_gt. simpl.
  assert (Hpage : 1 ≤ p →
            (applyPagination data {| currentPage := p; pageSize := pageSize state |} true ≠ []
             ↔ p ≤ t)).
  { intros Hp. rewrite applyPagination_take_drop by lia.
    split.
    - intros Hne. destruct (Z.le_gt_cases p t) as [|Hgt]; [assumption|].
      exfalso. apply Hne. rewrite drop_ge by nia. apply take_nil.
    - intros Hle E. apply (f_equal length) in E.
      rewrite length_take, length_drop in E. simpl in E. nia. }
  destruct (Z.ltb_spec p 1) as [Hlt|Hge]; simpl.
  - split; [congruence | lia].
  - destruct (Z.ltb_spec t p) as [Hgt|Hle]; simpl.
    + split; [congruence|]. intros [_ Hne]. apply Hpage in Hne; lia.
    + split; [|discriminate]. intros _. split; [lia|]. now apply Hpage.
Qed.

Lemma goToPage_accepts_nonempty_pages_witness :
  (goToPage (PageNumber 3) {| currentPage := 1; pageSize := 2 |} 5).2 ≠ [] ∧
  applyPagination fiveRows {| currentPage := 4; pageSize := 2 |} true = [].
Proof.
  split.
  - apply (goToPage_accepts_nonempty_pages fiveRows {| currentPage := 1; pageSize := 2 |} 3);
      [reflexivity|]. split; [lia | discriminate].
  - reflexivity.
Defined.

(** X11.  Page navigation keeps the cursor on an existing page.  For a positive
    page size and a cursor between 1 and the last page (page 1 when the
    list is empty), [goToPage], [goToNextPage], [goToPreviousPage] and
    [resetPagination] leave the page size alone and the cursor in that
    range; next moves one page forward unless on the last page, previous one
    page back unless on the first, and then nothing is announced.
    [changePageSize] always returns to page 1. *)
Theorem pagination_cursor_in_range (state : PaginationState) (totalItems : Z) :
  0 < pageSize state → 0 ≤ totalItems →
  ∃ t, computeTotalPages totalItems (pageSize state) = Num t ∧
    let inRange (st : PaginationState) :=
      pageSize st = pageSize state ∧ 1 ≤ currentPage st ≤ Z.max 1 t in
    (1 ≤ currentPage state ≤ Z.max 1 t →
       (∀ page, inRange (goToPage page state totalItems).1) ∧
       inRange (goToNextPage state totalItems).1 ∧
       inRange (goToPreviousPage state totalItems).1 ∧
       inRange (resetPagination state)) ∧
    (0 ≤ currentPage state < t →
       goToNextPage state totalItems =
         ({| currentPage := currentPage state + 1; pageSize := pageSize state |},
          [ {| pce_page := currentPage state + 1; pce_pageSize := pageSize state |} ])) ∧
    (t ≤ currentPage state → goToNextPage state totalItems = (state, [])) ∧
    (currentPage state ≤ 1 → goToPreviousPage state totalItems = (state, [])) ∧
    (1 < currentPage state ≤ t + 1 →
       goToPreviousPage state totalItems =
         ({| currentPage := currentPage state - 1; pageSize := pageSize state |},
          [ {| pce_page := currentPage state - 1; pce_pageSize := pageSize state |} ])) ∧
    (∀ size, currentPage (changePageSize size state).1 = 1 ∧
             pageSize (changePageSize size state).1 = size).
Proof.
  intros Hps Hn.
  destruct (js_ceil_div_pos totalItems (pageSize state) Hps) as (t & Ht & Hb).
  exists t. split; [exact Ht|]. cbv zeta.
  assert (Hgo : ∀ p, goToPage (PageNumber p) state totalItems =
            if (p <? 1) || (t <? p) then (state, [])
            else ({| currentPage := p; pageSize := pageSize state |},
                  [ {| pce_page := p; pce_pageSize := pageSize state |} ])).
  { intros p. unfold goToPage, computeTotalPages. rewrite Ht. reflexivity. }
  assert (Hnext : goToNextPage state totalItems =
            if currentPage state <? t
            then goToPage (PageNumber (currentPage state + 1)) state totalItems
            else (state, [])).
  { unfold goToNextPage, computeTotalPages. rewrite Ht. reflexivity. }
  split; [|split; [|split; [|split; [|split]]]].
  - intros Hcur. split; [|split; [|split]].
    + intros [p|s]; [|simpl; lia]. rewrite Hgo.
      destruct (Z.ltb_spec p 1), (Z.ltb_spec t p); simpl; lia.
    + rewrite Hnext. destruct (Z.ltb_spec (currentPage state) t); [|simpl; lia].
      rewrite Hgo.
      destruct (Z.ltb_spec (currentPage state + 1) 1),
               (Z.ltb_spec t (currentPage state + 1)); simpl; lia.
    + unfold goToPreviousPage. destruct (Z.ltb_spec 1 (currentPage state)); [|simpl; lia].
      rewrite Hgo.
      destruct (Z.ltb_spec (currentPage state - 1) 1),
               (Z.ltb_spec t (currentPage state - 1)); simpl; lia.
    + simpl. lia.
  - intros Hlt. rewrite Hnext.
    destruct (Z.ltb_spec (currentPage state) t); [|lia]. rewrite Hgo.
    destruct (Z.ltb_spec (currentPage state + 1) 1),
             (Z.ltb_spec t (currentPage state + 1)); simpl; try lia.
    reflexivity.
  - intros Hge. rewrite Hnext. destruct (Z.ltb_spec (currentPage state) t); [lia|reflexivity].
  - intros Hle. unfold goToPreviousPage.
    destruct (Z.ltb_spec 1 (currentPage state)); [lia | reflexivity].
  - intros Hcur. unfold goToPreviousPage.
    destruct (Z.ltb_spec 1 (currentPage state)); [|lia]. rewrite Hgo.
    destruct (Z.ltb_spec (currentPage state - 1) 1),
             (Z.ltb_spec t (currentPage state - 1)); simpl; try lia. reflexivity.
  - intros size. split; reflexivity.
Qed.

Lemma pagination_cursor_in_range_witness :
  goToNextPage {| currentPage := 2; pageSize := 10 |} 25 =
    ({| currentPage := 3; pageSize := 10 |}, [ {| pce_page := 3; pce_pageSize := 10 |} ]) ∧
  goToNextPage {| currentPage := 3; pageSize := 10 |} 25 =
    ({| currentPage := 3; pageSize := 10 |}, []).
Proof.
  split.
  - destruct (pagination_cursor_in_range {| currentPage := 2; pageSize := 10 |} 25)
      as (t & Ht & _ & Hnext & _); [reflexivity | discriminate |].
    vm_compute in Ht. injection Ht as <-. apply Hnext. simpl. lia.
  - destruct (pagination_cursor_in_range {| currentPage := 3; pageSize := 10 |} 25)
      as (t & Ht & _ & _ & Hlast & _); [reflexivity | discriminate |].
    vm_compute in Ht. injection Ht as <-. apply Hlast. simpl. lia.
Defined.

Lemma elem_of_zrange (lo hi x : Z) : x ∈ zrange lo hi ↔ lo ≤ x ≤ hi.
Proof.
  unfold zrange. rewrite list_elem_of_fmap. split.
  - intros (k & -> & Hk). apply elem_of_seq in Hk. lia.
  - intros Hx. exists (Z.to_nat (x - lo)). split; [lia|]. apply elem_of_seq. lia.
Qed.

Lemma length_zrange (lo hi : Z) : length (zrange lo hi) = Z.to_nat (hi - lo + 1).
Proof. unfold zrange. now rewrite length_fmap, length_seq. Qed.

(** X12.  The pager never shows more than seven entries; every numbered entry is
    a page between 1 and [totalPages]; the first page, the last page and
    the current page (when it exists) are always among them; any other
    entry is the ellipsis. *)
Theorem computePageNumbers_entries (totalPages currentPage : Z) :
  (length (computePageNumbers totalPages currentPage) ≤ 7)%nat ∧
  (∀ p, PageNumber p ∈ computePageNumbers totalPages currentPage → 1 ≤ p ≤ totalPages) ∧
  (∀ s, PageString s ∈ computePageNumbers totalPages currentPage → s = "...") ∧
  (1 ≤ totalPages →
     PageNumber 1 ∈ computePageNumbers totalPages currentPage ∧
     PageNumber totalPages ∈ computePageNumbers totalPages currentPage) ∧
  (1 ≤ currentPage ≤ totalPages →
     PageNumber currentPage ∈ computePageNumbers totalPages currentPage).
Proof.
  unfold computePageNumbers.
  destruct (Z.leb_spec totalPages 7) as [Hsmall|Hbig].
  - split; [rewrite length_fmap, length_zrange; lia|].
    split.
    { intros p Hp. apply list_elem_of_fmap in Hp as (x & [= ->] & Hx).
      now apply elem_of_zrange in Hx. }
    split.
    { intros s Hs. apply list_elem_of_fmap in Hs as (x & Hx & _). discriminate. }
    split.
    { intros H1. split; apply list_elem_of_fmap; eexists; (split; [reflexivity|]);
        apply elem_of_zrange; lia. }
    intros Hcur. apply list_elem_of_fmap. eexists. split; [reflexivity|].
    now apply elem_of_zrange.
  - split.
    { rewrite !length_app, length_fmap, length_zrange. simpl.
      destruct (3 <? currentPage), (currentPage <? totalPages - 2); simpl; lia. }
    split.
    { intros p Hp. rewrite !elem_of_app, !elem_of_cons in Hp.
      destruct Hp as [[[= ->]|Hp]|[Hp|[Hp|[Hp|[[= ->]|Hp]]]]]; try lia; try (inversion Hp; fail).
      - destruct (3 <? currentPage); [|inversion Hp].
        apply list_elem_of_singleton in Hp. discriminate.
      - apply list_elem_of_fmap in Hp as (x & [= ->] & Hx).
        apply elem_of_zrange in Hx. lia.
      - destruct (currentPage <? totalPages - 2); [|inversion Hp].
        apply list_elem_of_singleton in Hp. discriminate. }
    split.
    { intros s Hs. rewrite !elem_of_app, !elem_of_cons in Hs.
      destruct Hs as [[Hs|Hs]|[Hs|[Hs|[Hs|[Hs|Hs]]]]];
        try discriminate; try (inversion Hs; fail).
      - destruct (3 <? currentPage); [|inversion Hs].
        apply list_elem_of_singleton in Hs. congruence.
      - apply list_elem_of_fmap in Hs as (x & Hx & _). discriminate.
      - destruct (currentPage <? totalPages - 2); [|inversion Hs].
        apply list_elem_of_singleton in Hs. congruence. }
    split.
    { intros _. rewrite !elem_of_app, !elem_of_cons. split; [auto|].
      right; right; right; right; left. reflexivity. }
    intros Hcur. rewrite !elem_of_app, !elem_of_cons.
    destruct (decide (currentPage = 1)) as [->|H1]; [auto|].
    destruct (decide (currentPage = totalPages)) as [->|Hn];
      [right; right; right; right; left; reflexivity|].
    right; right; left. apply list_elem_of_fmap. eexists. split; [reflexivity|].
    apply elem_of_zrange. lia.
Qed.

Lemma computePageNumbers_entries_witness :
  computePageNumbers 20 10 =
    [PageNumber 1; PageString "..."; PageNumber 9; PageNumber 10; PageNumber 11;
     PageString "..."; PageNumber 20] ∧
  PageNumber 10 ∈ computePageNumbers 20 10.
Proof.
  split; [reflexivity|].
  apply (computePageNumbers_entries 20 10). lia.
Defined.

(** ** Selecting rows *)

(** X13.  [toggleRowSelection] flips whether the row's key is selected and
    reports the new status together with the selected rows of the data.  In
    mode [multiple] every other key keeps its status and a second toggle
    restores the selection; in mode [single] every other key ends
    deselected.  With row selection disabled nothing changes and nothing is
    reported. *)
Theorem toggleRowSelection_flips (row : Row) (state : SelectionState) (deps : SelectionDeps) :
  let key := getField row (keyFieldOf (deps_config deps)) in
  let state' := (toggleRowSelection row state deps).1 in
  (truthy (enableRowSelection (deps_config deps)) = false →
     toggleRowSelection row state deps = (state, [])) ∧
  (truthy (enableRowSelection (deps_config deps)) = true →
     (key ∈ selectedRows state' ↔ key ∉ selectedRows state) ∧
     (toggleRowSelection row state deps).2 =
       [ {| rse_selected := getSelectedRows state' deps;
            rse_row := Some row;
            rse_isSelected := bool_decide (key ∈ selectedRows state') |} ] ∧
     (selectionMode (deps_config deps) ≠ Some Single →
        (∀ k, k ≠ key → (k ∈ selectedRows state' ↔ k ∈ selectedRows state)) ∧
        selectedRows (toggleRowSelection row state' deps).1 = selectedRows state) ∧
     (selectionMode (deps_config deps) = Some Single →
        ∀ k, k ≠ key → k ∉ selectedRows state')).
Proof.
  cbv zeta. split.
  - intros Hoff. unfold toggleRowSelection. now rewrite Hoff.
  - intros Hon. unfold toggleRowSelection. rewrite Hon. cbn [negb fst snd selectedRows].
    set (key := getField row (keyFieldOf (deps_config deps))).
    destruct (decide (selectionMode (deps_config deps) = Some Single)) as [Hs|Hm].
    + split; [|split; [|split]].
      * destruct (decide (key ∈ selectedRows state)); set_solver.
      * reflexivity.
      * intros Hne. contradiction.
      * intros _ k Hk. destruct (decide (key ∈ selectedRows state)); set_solver.
    + split; [|split; [|split]].
      * destruct (decide (key ∈ selectedRows state)); set_solver.
      * reflexivity.
      * intros _. split.
        { intros k Hk. destruct (decide (key ∈ selectedRows state)); set_solver. }
        destruct (decide (key ∈ selectedRows state)) as [Hin|Hout].
        { rewrite decide_False by set_solver. apply set_eq. intros k.
          destruct (decide (k = key)); set_solver. }
        { rewrite decide_True by set_solver. apply set_eq. intros k.
          destruct (decide (k = key)); set_solver. }
      * intros Hs. contradiction.
Qed.

Lemma toggleRowSelection_flips_witness :
  let deps := selectionDeps codeUnitCompare pagedTable in
  let state := (toggleRowSelection alice createSelectionState deps).1 in
  VNum 1 ∈ selectedRows state ∧
  VNum 1 ∉ selectedRows (toggleRowSelection alice state deps).1.
Proof.
  intros deps state.
  destruct (proj2 (toggleRowSelection_flips alice createSelectionState deps) eq_refl)
    as (Hfirst & _).
  destruct (proj2 (toggleRowSelection_flips alice state deps) eq_refl) as (Hsecond & _).
  assert (H1 : VNum 1 ∈ selectedRows state) by (apply Hfirst; set_solver).
  split; [exact H1|]. intros H2. now apply Hsecond in H2.
Defined.

Lemma foldl_union_keys (f : Row → value) (rows : list Row) (acc : gset value) (k : value) :
  k ∈ foldl (λ acc row, acc ∪ {[ f row ]}) acc rows ↔ k ∈ acc ∨ k ∈ f <$> rows.
Proof.
  revert acc. induction rows as [|r rows IH]; intros acc; simpl.
  - rewrite elem_of_nil. tauto.
  - rewrite IH, elem_of_cons. set_solver.
Qed.

Lemma foldl_difference_keys (f : Row → value) (rows : list Row) (acc : gset value) (k : value) :
  k ∈ foldl (λ acc row, acc ∖ {[ f row ]}) acc rows ↔ k ∈ acc ∧ k ∉ f <$> rows.
Proof.
  revert acc. induction rows as [|r rows IH]; intros acc; simpl.
  - rewrite elem_of_nil. tauto.
  - rewrite IH, not_elem_of_cons. set_solver.
Qed.

(** X14.  The header checkbox.  [toggleAllSelection(false)] adds the keys of the
    rows of the current page to the selection, after which the page counts
    as all selected (when it has a row); [toggleAllSelection(true)] removes
    exactly those keys.  Keys of rows on other pages keep their status
    either way. *)
Theorem toggleAllSelection_page (state : SelectionState) (deps : SelectionDeps) :
  let keyField := keyFieldOf (deps_config deps) in
  let pageKeys := (λ row, getField row keyField) <$> deps_paginatedData deps in
  let selectAll := (toggleAllSelection false state deps).1 in
  let deselectAll := (toggleAllSelection true state deps).1 in
  (∀ k, k ∈ selectedRows selectAll ↔ k ∈ selectedRows state ∨ k ∈ pageKeys) ∧
  (∀ k, k ∈ selectedRows deselectAll ↔ k ∈ selectedRows state ∧ k ∉ pageKeys) ∧
  (deps_paginatedData deps ≠ [] →
     computeAllSelected (deps_paginatedData deps) (selectedRows selectAll) keyField = true) ∧
  (∀ row, row ∈ deps_paginatedData deps → isRowSelected row deselectAll (deps_config deps) = false) ∧
  (∀ k, k ∈ selectedRows (toggleAllSelection true selectAll deps).1 ↔
        k ∈ selectedRows state ∧ k ∉ pageKeys).
Proof.
  cbv zeta. unfold toggleAllSelection. cbn [fst selectedRows].
  split; [intros k; apply foldl_union_keys|].
  split; [intros k; apply foldl_difference_keys|].
  split; [|split].
  - intros Hne. unfold computeAllSelected. apply andb_true_iff. split.
    + destruct (deps_paginatedData deps); [contradiction | reflexivity].
    + apply forallb_forall. intros row Hin. apply bool_decide_eq_true.
      apply foldl_union_keys. right. apply list_elem_of_fmap. exists row.
      split; [reflexivity | now apply list_elem_of_In].
  - intros row Hin. unfold isRowSelected. cbn [selectedRows].
    apply bool_decide_eq_false. rewrite foldl_difference_keys. intros [_ Hnot].
    apply Hnot. apply list_elem_of_fmap. exists row. split; [reflexivity | exact Hin].
  - intros k. rewrite foldl_difference_keys, foldl_union_keys. tauto.
Qed.

Lemma toggleAllSelection_page_witness :
  let deps := selectionDeps codeUnitCompare pagedTable in
  allSelected codeUnitCompare
    (with_states pagedTable (toggleAllSelection false createSelectionState deps).1
       (sortingState pagedTable) (filteringState pagedTable)
       (paginationState pagedTable) (coloringState pagedTable)) = true.
Proof.
  intros deps.
  apply (proj1 (proj2 (proj2 (toggleAllSelection_page createSelectionState deps)))).
  discriminate.
Defined.

Lemma filter_length_forallb {A} (p : A → bool) (l : list A) :
  forallb p l = true ↔ length (List.filter p l) = length l.
Proof.
  induction l as [|x l IH]; simpl; [tauto|].
  pose proof (filter_length_le p l) as Hle.
  destruct (p x); simpl; [rewrite IH; lia|]. split; [discriminate | lia].
Qed.

Lemma filter_length_pos {A} (p : A → bool) (l : list A) :
  (0 < length (List.filter p l))%nat ↔ ∃ x, x ∈ l ∧ p x = true.
Proof.
  induction l as [|x l IH]; simpl.
  - split; [lia | intros (x & Hx & _); inversion Hx].
  - destruct (p x) eqn:Hp; simpl.
    + split; [intros _; exists x; split; [apply list_elem_of_here | exact Hp] | lia].
    + rewrite IH. split.
      * intros (y & Hy & Hpy). exists y. split; [now apply list_elem_of_further | exact Hpy].
      * intros (y & Hy & Hpy). apply elem_of_cons in Hy as [->|Hy]; [congruence|eauto].
Qed.

(** X15.  The header checkbox is checked ([computeAllSelected]) or indeterminate
    ([computeSomeSelected]), never both; one of the two holds exactly when a
    row of the page is selected; over an empty page it is neither. *)
Theorem header_checkbox_state (paginatedData : list Row) (selected : gset value)
    (keyField : string) :
  computeAllSelected paginatedData selected keyField &&
    computeSomeSelected paginatedData selected keyField = false ∧
  (computeAllSelected paginatedData selected keyField ||
     computeSomeSelected paginatedData selected keyField = true ↔
   ∃ row, row ∈ paginatedData ∧ getField row keyField ∈ selected) ∧
  (paginatedData = [] →
     computeAllSelected paginatedData selected keyField = false ∧
     computeSomeSelected paginatedData selected keyField = false).
Proof.
  unfold computeAllSelected, computeSomeSelected. cbv zeta.
  set (p := λ row : Row, bool_decide (getField row keyField ∈ selected)).
  pose proof (filter_length_forallb p paginatedData) as Hall.
  pose proof (filter_length_pos p paginatedData) as Hpos.
  pose proof (filter_length_le p paginatedData) as Hle.
  split; [|split].
  - destruct (forallb p paginatedData) eqn:E.
    + apply proj1 in Hall. specialize (Hall eq_refl). rewrite Hall.
      rewrite Z.ltb_irrefl, andb_false_r, andb_false_r. reflexivity.
    + now rewrite andb_false_r.
  - assert (Hex : (∃ row, row ∈ paginatedData ∧ getField row keyField ∈ selected) ↔
                  (0 < length (List.filter p paginatedData))%nat).
    { rewrite Hpos. split; intros (row & Hin & Hsel); exists row; split; auto.
      - now apply bool_decide_eq_true.
      - now apply bool_decide_eq_true in Hsel. }
    rewrite Hex. rewrite orb_true_iff, !andb_true_iff, !Z.ltb_lt. split.
    + intros [[Hne Hf]|[Hc _]]; [|lia]. apply Hall in Hf. lia.
    + intros Hc. destruct (forallb p paginatedData) eqn:E.
      * left. split; [lia | reflexivity].
      * right. split; [lia|].
        destruct (decide (length (List.filter p paginatedData) = length paginatedData))
          as [Heq|Hneq]; [apply Hall in Heq; congruence | lia].
  - intros ->. split; reflexivity.
Qed.

Lemma header_checkbox_state_witness :
  computeAllSelected (take 2 fiveRows) {[ VNum 1 ]} "id" = false ∧
  computeSomeSelected (take 2 fiveRows) {[ VNum 1 ]} "id" = true.
Proof.
  destruct (header_checkbox_state (take 2 fiveRows) {[ VNum 1 ]} "id") as (Hexcl & Hany & _).
  assert (Hsome : computeSomeSelected (take 2 fiveRows) {[ VNum 1 ]} "id" = true)
    by reflexivity.
  rewrite Hsome, andb_true_r in Hexcl. now split.
Defined.

(** ** The scroll window *)

Lemma window_indices (data paginatedData : list Row) (state : VirtualScrollState)
    (config : VirtualScrollConfig) :
  enabled config = true → itemHeight config ≠ 0 →
  let s := Z.max 0 (scrollTop state / itemHeight config - bufferSize config) in
  let e := Z.min (Z.of_nat (length data))
                 (s + (- (- containerHeight config / itemHeight config)
                       + bufferSize config * 2)) in
  computeVirtualScrollData data paginatedData state config =
    {| visibleData := js_slice (Num s) (Num e) data;
       startIndex := Num s; endIndex := Num e;
       offsetY := Num (s * itemHeight config);
       totalHeight := Z.of_nat (length data) * itemHeight config |}.
Proof.
  intros Hen Hh. cbv zeta. unfold computeVirtualScrollData, visibleCount.
  rewrite Hen. cbn [negb]. unfold js_floor_div, js_ceil_div.
  destruct (Z.eqb_spec (itemHeight config) 0); [contradiction|].
  now rewrite js_sub_Num, js_max_Num, !js_add_Num, js_min_Num, js_mul_Num.
Qed.

(** X16.  The window of an enabled virtual scroll, for a positive item height and
    non-negative buffer and container height: its indices are integers with
    [0 <= startIndex] and [0 <= endIndex <= totalRows], the visible rows are
    the rows at positions [startIndex] up to [endIndex] of the data, in
    order, never more than [visibleCount] of them, and at scroll offsets up
    to one buffer of rows the window starts at the first row. *)
Theorem virtual_window_bounds (data paginatedData : list Row) (state : VirtualScrollState)
    (config : VirtualScrollConfig) :
  enabled config = true → 0 < itemHeight config →
  0 ≤ bufferSize config → 0 ≤ containerHeight config →
  let vs := computeVirtualScrollData data paginatedData state config in
  ∃ s e count,
    startIndex vs = Num s ∧ endIndex vs = Num e ∧ visibleCount config = Num count ∧
    0 ≤ s ∧ 0 ≤ e ≤ Z.of_nat (length data) ∧
    visibleData vs = take (Z.to_nat (e - s)) (drop (Z.to_nat s) data) ∧
    Z.of_nat (length (visibleData vs)) ≤ count ∧
    sublist (visibleData vs) data ∧
    (scrollTop state < (bufferSize config + 1) * itemHeight config → s = 0).
Proof.
  intros Hen Hh Hb HH vs. subst vs.
  rewrite (window_indices data paginatedData state config Hen) by lia. cbv zeta.
  cbn [startIndex endIndex visibleData].
  set (h := itemHeight config) in *. set (b := bufferSize config) in *.
  set (q := scrollTop state / h).
  set (c := - (- containerHeight config / h)).
  assert (Hc : 0 ≤ c).
  { subst c. pose proof (Z.div_mod (- containerHeight config) h ltac:(lia)).
    pose proof (Z.mod_pos_bound (- containerHeight config) h Hh). nia. }
  exists (Z.max 0 (q - b)), (Z.min (Z.of_nat (length data)) (Z.max 0 (q - b) + (c + b * 2))),
         (c + b * 2).
  split; [reflexivity|]. split; [reflexivity|]. split.
  { unfold visibleCount, js_ceil_div. fold h. destruct (Z.eqb_spec h 0); [lia|].
    reflexivity. }
  split; [lia|]. split; [lia|].
  rewrite js_slice_forward by lia. split; [reflexivity|]. split.
  { rewrite length_take, length_drop. lia. }
  split.
  { etransitivity; [apply sublist_take | apply sublist_drop]. }
  intros Htop. subst q.
  pose proof (Z.div_mod (scrollTop state) h ltac:(lia)).
  pose proof (Z.mod_pos_bound (scrollTop state) h Hh).
  assert (scrollTop state / h < b + 1) by nia. lia.
Qed.

Lemma virtual_window_bounds_witness :
  length (visibleData (computeVirtualScrollData thousandRows [] {| scrollTop := 960 |}
                         exampleScrollConfig)) = 23%nat.
Proof.
  destruct (virtual_window_bounds thousandRows [] {| scrollTop := 960 |} exampleScrollConfig)
    as (s & e & count & Hs & He & _ & _ & _ & Hdata & _);
    [reflexivity | reflexivity | discriminate | discriminate |].
  rewrite Hdata. vm_compute in Hs, He. injection Hs as <-. injection He as <-.
  reflexivity.
Defined.

(** X17.  Scrolling to a row shows it: after [scrollToIndex(index)] for an
    existing row, with a positive item height and container height and a
    non-negative buffer, the row at [index] is in the window, at position
    [index - startIndex] of the visible rows.  [scrollToTop] and
    [resetScroll] put the window at the first row. *)
Theorem scrollToIndex_shows_row (data paginatedData : list Row) (state : VirtualScrollState)
    (config : VirtualScrollConfig) (index : nat) (row : Row) :
  enabled config = true → 0 < itemHeight config →
  0 ≤ bufferSize config → 0 < containerHeight config →
  data !! index = Some row →
  let vs := computeVirtualScrollData data paginatedData
              (scrollToIndex (Z.of_nat index) state config) config in
  ∃ s, startIndex vs = Num s ∧ 0 ≤ s ≤ Z.of_nat index ∧
       visibleData vs !! Z.to_nat (Z.of_nat index - s) = Some row ∧
       startIndex (computeVirtualScrollData data paginatedData (scrollToTop state) config)
         = Num 0 ∧
       resetScroll state = scrollToTop state.
Proof.
  intros Hen Hh Hb HH Hrow vs. subst vs.
  rewrite !(window_indices data paginatedData _ config Hen) by lia. cbv zeta.
  cbn [startIndex visibleData scrollToIndex scrollToTop scrollTop].
  set (h := itemHeight config) in *. set (b := bufferSize config) in *.
  rewrite Z.div_mul by lia. rewrite Z.div_0_l by lia.
  set (c := - (- containerHeight config / h)).
  assert (Hc : 1 ≤ c).
  { subst c. pose proof (Z.div_mod (- containerHeight config) h ltac:(lia)).
    pose proof (Z.mod_pos_bound (- containerHeight config) h Hh). nia. }
  pose proof (lookup_lt_Some _ _ _ Hrow) as Hlen.
  exists (Z.max 0 (Z.of_nat index - b)). split; [reflexivity|]. split; [lia|].
  split; [|split; [f_equal; lia | reflexivity]].
  rewrite js_slice_forward by lia.
  rewrite lookup_take_lt by lia. rewrite lookup_drop.
  replace (Z.to_nat (Z.max 0 (Z.of_nat index - b)) +
           Z.to_nat (Z.of_nat index - Z.max 0 (Z.of_nat index - b)))%nat
    with index by lia.
  exact Hrow.
Qed.

Lemma scrollToIndex_shows_row_witness :
  employee 500 "row" (VBool true) ∈
  visibleData (computeVirtualScrollData thousandRows []
                 (scrollToIndex 500 createVirtualScrollState exampleScrollConfig)
                 exampleScrollConfig).
Proof.
  destruct (scrollToIndex_shows_row thousandRows [] createVirtualScrollState
              exampleScrollConfig 500 (employee 500 "row" (VBool true)))
    as (s & _ & _ & Hrow & _);
    [reflexivity | reflexivity | discriminate | reflexivity | reflexivity |].
  apply list_elem_of_lookup. eexists. exact Hrow.
Defined.

(** X18.  [scrollToBottom] brings the last row into the window: afterwards
    [endIndex] is the number of rows (positive item height and container
    height, non-negative buffer). *)
Theorem scrollToBottom_shows_last_row (data paginatedData : list Row)
    (state : VirtualScrollState) (config : VirtualScrollConfig) :
  enabled config = true → 0 < itemHeight config →
  0 ≤ bufferSize config → 0 < containerHeight config →
  endIndex (computeVirtualScrollData data paginatedData
              (scrollToBottom data state config) config)
    = Num (Z.of_nat (length data)).
Proof.
  intros Hen Hh Hb HH.
  rewrite (window_indices data paginatedData _ config Hen) by lia. cbv zeta.
  cbn [endIndex scrollToBottom scrollTop].
  set (h := itemHeight config) in *. set (b := bufferSize config) in *.
  set (n := Z.of_nat (length data)). set (H := containerHeight config) in *.
  assert (Hn : 0 ≤ n) by (subst n; lia).
  set (top := Z.max 0 (n * h - H)).
  pose proof (Z.div_mod top h ltac:(lia)) as Hq.
  pose proof (Z.mod_pos_bound top h Hh) as Hqr.
  pose proof (Z.div_mod (- H) h ltac:(lia)) as Hc.
  pose proof (Z.mod_pos_bound (- H) h Hh) as Hcr.
  f_equal. apply Z.min_l.
  assert (n ≤ top / h + - (- H / h)); [|lia].
  assert (n * h ≤ (top / h + - (- H / h) + 1) * h - 1 + 0) by nia.
  nia.
Qed.

Lemma scrollToBottom_shows_last_row_witness :
  endIndex (computeVirtualScrollData thousandRows []
              (scrollToBottom thousandRows createVirtualScrollState exampleScrollConfig)
              exampleScrollConfig) = Num 1000.
Proof.
  apply (scrollToBottom_shows_last_row thousandRows [] createVirtualScrollState
           exampleScrollConfig); [reflexivity | reflexivity | discriminate | reflexivity].
Defined.

(** ** Column groups, defaults and the default comparator *)

Lemma filter_three_way {A} (p1 p2 p3 : A → bool) (l : list A) :
  (∀ x, x ∈ l → (p1 x = true ∧ p2 x = false ∧ p3 x = false) ∨
                 (p1 x = false ∧ p2 x = true ∧ p3 x = false) ∨
                 (p1 x = false ∧ p2 x = false ∧ p3 x = true)) →
  (List.filter p1 l ++ List.filter p2 l ++ List.filter p3 l)%list ≡ₚ l.
Proof.
  induction l as [|x l IH]; intros Hone; [reflexivity|]. simpl.
  assert (IH' := IH (λ y Hy, Hone y (list_elem_of_further _ _ _ Hy))).
  destruct (Hone x (list_elem_of_here _ _)) as [(-> & -> & ->)|[(-> & -> & ->)|(-> & -> & ->)]];
    simpl.
  - now rewrite IH'.
  - rewrite <- Permutation_middle. now rewrite IH'.
  - rewrite app_assoc, <- Permutation_middle, <- app_assoc. now rewrite IH'.
Qed.

(** X19.  The three column groups split any column list: every column is in
    exactly one of frozen-left, scrollable and frozen-right, each group
    keeps the relative order of its columns, and together they are the
    whole list. *)
Theorem column_groups_partition (cols : list ColumnConfig) :
  (getFrozenLeftColumns cols ++ getScrollableColumns cols ++ getFrozenRightColumns cols)%list
    ≡ₚ cols ∧
  (length (getFrozenLeftColumns cols) + length (getScrollableColumns cols) +
   length (getFrozenRightColumns cols) = length cols)%nat ∧
  sublist (getFrozenLeftColumns cols) cols ∧
  sublist (getScrollableColumns cols) cols ∧
  sublist (getFrozenRightColumns cols) cols ∧
  (∀ c, c ∈ cols →
     (c ∈ getFrozenLeftColumns cols ∧ (c ∉ getScrollableColumns cols) ∧
      (c ∉ getFrozenRightColumns cols)) ∨
     ((c ∉ getFrozenLeftColumns cols) ∧ c ∈ getScrollableColumns cols ∧
      (c ∉ getFrozenRightColumns cols)) ∨
     ((c ∉ getFrozenLeftColumns cols) ∧ (c ∉ getScrollableColumns cols) ∧
      c ∈ getFrozenRightColumns cols)).
Proof.
  assert (Hperm : (getFrozenLeftColumns cols ++ getScrollableColumns cols ++
                   getFrozenRightColumns cols)%list ≡ₚ cols).
  { apply filter_three_way. intros c _.
    destruct (truthy (col_frozen c)); simpl; [|auto].
    destruct (bool_decide (col_frozenPosition c = Some FrozenRight)); simpl; auto. }
  split; [exact Hperm|]. split.
  { apply Permutation_length in Hperm. rewrite !length_app in Hperm. lia. }
  split; [apply filter_sublist|]. split; [apply filter_sublist|].
  split; [apply filter_sublist|].
  intros c Hc. unfold getFrozenLeftColumns, getScrollableColumns, getFrozenRightColumns.
  rewrite !list_elem_of_In, !filter_In, <- !list_elem_of_In.
  destruct (truthy (col_frozen c)); simpl.
  - destruct (bool_decide (col_frozenPosition c = Some FrozenRight)); simpl.
    + right; right. repeat split; try exact Hc; intros [_ ?]; discriminate.
    + left. repeat split; try exact Hc; intros [_ ?]; discriminate.
  - right; left. repeat split; try exact Hc; intros [_ ?]; discriminate.
Qed.

Lemma column_groups_partition_witness :
  (col_key <$> getFrozenLeftColumns frozenLayout,
   col_key <$> getScrollableColumns frozenLayout,
   col_key <$> getFrozenRightColumns frozenLayout) =
  (["id"; "name"], ["email"], ["salary"; "status"; "actions"]) ∧
  frozenColumn "name" 1 (Some 120) None ∉ getScrollableColumns frozenLayout.
Proof.
  split; [reflexivity|].
  destruct (proj2 (proj2 (proj2 (proj2 (proj2 (column_groups_partition frozenLayout)))))
              (frozenColumn "name" 1 (Some 120) None))
    as [(_ & H & _)|[(H & _)|(H & _)]].
  - unfold frozenLayout. rewrite !elem_of_cons. auto.
  - exact H.
  - exfalso. apply H. unfold getFrozenLeftColumns, frozenLayout. simpl.
    rewrite !elem_of_cons. auto.
  - exfalso. apply H. unfold getFrozenLeftColumns, frozenLayout. simpl.
    rewrite !elem_of_cons. auto.
Defined.

(** [processColumns] keeps the number, order and keys of the columns and
    every property the caller set, gives each column a width, minimum and
    maximum width, the three feature flags, a frozen and a visible flag, an
    alignment, a cell type and a filter type, does not change the width the
    layout reads, and applied twice is the same as applied once. *)
Lemma processColumns_defaults (cols : list ColumnConfig) :
  col_key <$> processColumns cols = col_key <$> cols ∧
  processColumns (processColumns cols) = processColumns cols ∧
  (∀ i c, cols !! i = Some c →
     ∃ c', processColumns cols !! i = Some c' ∧
       col_width c' = Some (default 150 (col_width c)) ∧
       col_minWidth c' = Some (default 50 (col_minWidth c)) ∧
       col_maxWidth c' = Some (default 500 (col_maxWidth c)) ∧
       col_sortable c' = Some (default true (col_sortable c)) ∧
       col_filterable c' = Some (default true (col_filterable c)) ∧
       col_resizable c' = Some (default true (col_resizable c)) ∧
       col_frozen c' = Some (default false (col_frozen c)) ∧
       col_visible c' = Some (default true (col_visible c)) ∧
       col_align c' = Some (default "left" (col_align c)) ∧
       col_cellType c' = Some (default "text" (col_cellType c)) ∧
       col_filterType c' = Some (default "text" (col_filterType c)) ∧
       col_frozenPosition c' = col_frozenPosition c ∧
       col_sortComparator c' = col_sortComparator c ∧
       col_isComputed c' = col_isComputed c ∧
       col_order c' = col_order c ∧ col_title c' = col_title c ∧
       widthOr150 c' = widthOr150 c).
Proof.
  unfold processColumns. split; [|split].
  - rewrite <- list_fmap_compose. reflexivity.
  - rewrite <- list_fmap_compose. apply list_fmap_ext. intros i c _. simpl.
    destruct c as [k t o w mn mx so fi re fr fp al ct vi ft sc ic].
    unfold processColumn. simpl.
    destruct w, mn, mx, so, fi, re, fr, al, ct, vi, ft; reflexivity.
  - intros i c Hc. exists (processColumn c). rewrite list_lookup_fmap, Hc.
    split; [reflexivity|].
    destruct c as [k t o w mn mx so fi re fr fp al ct vi ft sc ic].
    unfold processColumn, widthOr150. simpl.
    destruct w, mn, mx, so, fi, re, fr, al, ct, vi, ft; repeat split; reflexivity.
Qed.

Section DefaultCompareFacts.
Variable localeCompare : string → string → Z.

End DefaultCompareFacts.


(** ** Freezing, hiding and resizing columns *)

Lemma applyDynamicFreeze_lookup (cols : list ColumnConfig)
    (overrides : gmap string (option FrozenPosition)) (i : nat) :
  applyDynamicFreeze cols overrides !! i =
  (λ col, match overrides !! col_key col with
          | Some None => with_frozen col (Some false) None
          | Some (Some position) => with_frozen col (Some true) (Some position)
          | None => col
          end) <$> cols !! i.
Proof. unfold applyDynamicFreeze. now rewrite list_lookup_fmap. Qed.

Lemma applyDynamicFreeze_keys (cols : list ColumnConfig)
    (overrides : gmap string (option FrozenPosition)) :
  col_key <$> applyDynamicFreeze cols overrides = col_key <$> cols.
Proof.
  unfold applyDynamicFreeze. rewrite <- list_fmap_compose.
  apply list_fmap_ext. intros i c _. simpl.
  destruct (overrides !! col_key c) as [[p|]|]; reflexivity.
Qed.

(** X21.  A freeze action on a column overrides its static configuration:
    after [freezeColumnLeft], [freezeColumnRight] or [unfreezeColumn] the
    column is in the frozen-left, frozen-right or scrollable group of the
    arrangement, whatever its definition says, and the other columns are
    grouped as before; keys and order never change; with no override the
    arrangement is the input.  [isColumnFrozen] answers whether an override
    exists, so it is also true after [unfreezeColumn], while
    [getColumnFreezePosition] is then null. *)
Theorem freeze_actions_override (cols : list ColumnConfig) (state : ColumnFreezeState)
    (key : string) :
  let arranged st := applyDynamicFreeze cols (freeze_frozenColumns st) in
  (∀ st, col_key <$> arranged st = col_key <$> cols) ∧
  arranged createColumnFreezeState = cols ∧
  arranged (clearAllFrozenColumns state) = cols ∧
  (∀ c, c ∈ arranged (freezeColumnLeft state key) → col_key c = key →
        c ∈ getFrozenLeftColumns (arranged (freezeColumnLeft state key))) ∧
  (∀ c, c ∈ arranged (freezeColumnRight state key) → col_key c = key →
        c ∈ getFrozenRightColumns (arranged (freezeColumnRight state key))) ∧
  (∀ c, c ∈ arranged (unfreezeColumn state key) → col_key c = key →
        c ∈ getScrollableColumns (arranged (unfreezeColumn state key))) ∧
  (∀ st i c, st ∈ [freezeColumnLeft state key; freezeColumnRight state key;
                   unfreezeColumn state key] →
     cols !! i = Some c → col_key c ≠ key → arranged st !! i = arranged state !! i) ∧
  (isColumnFrozen (freezeColumnLeft state key) key = true ∧
   isColumnFrozen (freezeColumnRight state key) key = true ∧
   isColumnFrozen (unfreezeColumn state key) key = true) ∧
  (getColumnFreezePosition (freezeColumnLeft state key) key = Some FrozenLeft ∧
   getColumnFreezePosition (freezeColumnRight state key) key = Some FrozenRight ∧
   getColumnFreezePosition (unfreezeColumn state key) key = None) ∧
  (∀ position,
     getColumnFreezePosition (toggleColumnFreeze state key position) key =
       if decide (getColumnFreezePosition state key = Some position)
       then None else Some position).
Proof.
  cbv zeta.
  assert (Hid : applyDynamicFreeze cols ∅ = cols).
  { unfold applyDynamicFreeze. rewrite <- (list_fmap_id cols) at 2.
    apply list_fmap_ext. intros i c _. now rewrite lookup_empty. }
  assert (Hgroup : ∀ (p : ColumnConfig → bool) overrides (v : option FrozenPosition) c,
            overrides !! key = Some v →
            (∀ col, p (match v with
                       | None => with_frozen col (Some false) None
                       | Some position => with_frozen col (Some true) (Some position)
                       end) = true) →
            c ∈ applyDynamicFreeze cols overrides → col_key c = key →
            c ∈ List.filter p (applyDynamicFreeze cols overrides)).
  { intros p overrides v c Hv Hp Hc Hk.
    apply list_elem_of_In, filter_In. split; [now apply list_elem_of_In|].
    apply list_elem_of_fmap in Hc as (col & -> & _).
    destruct (overrides !! col_key col) as [w|] eqn:Hw.
    - assert (col_key col = key) as Hcol by (destruct w; exact Hk).
      rewrite Hcol, Hv in Hw. injection Hw as <-. destruct v; apply Hp.
    - rewrite Hk, Hv in Hw. discriminate. }
  split; [intros st; apply applyDynamicFreeze_keys|].
  split; [exact Hid|]. split; [exact Hid|].
  split.
  { intros c. apply (Hgroup _ _ (Some FrozenLeft)); [apply lookup_insert_eq|reflexivity]. }
  split.
  { intros c. apply (Hgroup _ _ (Some FrozenRight)); [apply lookup_insert_eq|reflexivity]. }
  split.
  { intros c. apply (Hgroup _ _ None); [apply lookup_insert_eq|reflexivity]. }
  split.
  { intros st i c Hst Hc Hne. rewrite !applyDynamicFreeze_lookup, Hc. simpl.
    rewrite !elem_of_cons in Hst.
    destruct Hst as [->|[->|[->|Hst]]]; [| | |inversion Hst]; simpl;
      now rewrite lookup_insert_ne by congruence. }
  unfold isColumnFrozen, getColumnFreezePosition, toggleColumnFreeze. simpl.
  rewrite !lookup_insert_eq. split; [repeat split; now apply bool_decide_eq_true|].
  split; [repeat split|].
  intros position.
  destruct (decide (_ = Some position)) as [E|E]; simpl.
  - now rewrite lookup_insert_eq.
  - destruct (decide (position = FrozenRight)) as [->|Hl]; simpl;
      rewrite lookup_insert_eq; [reflexivity|]. now destruct position.
Qed.

Lemma freeze_actions_override_witness :
  with_frozen (frozenColumn "id" 0 (Some 80) (Some FrozenLeft)) (Some false) None ∈
  getScrollableColumns
    (applyDynamicFreeze frozenLayout
       (freeze_frozenColumns (unfreezeColumn createColumnFreezeState "id"))).
Proof.
  pose proof (freeze_actions_override frozenLayout createColumnFreezeState "id")
    as (_ & _ & _ & _ & _ & Hun & _).
  apply Hun; [|reflexivity]. simpl. apply list_elem_of_here.
Defined.

(** X22.  Hiding columns: [toggleColumnVisibility] flips the visibility of one
    column and of no other, and applied twice restores the set of hidden
    columns; after [hideAllColumns] exactly the listed columns are hidden,
    after [showAllColumns] none; the count of visible columns is the total
    minus the number of hidden keys. *)
Theorem column_visibility_toggles (state : ColumnVisibilityState) (key : string) :
  isColumnVisible (toggleColumnVisibility state key) key = negb (isColumnVisible state key) ∧
  (∀ other, other ≠ key →
     isColumnVisible (toggleColumnVisibility state key) other = isColumnVisible state other) ∧
  toggleColumnVisibility (toggleColumnVisibility state key) key = state ∧
  (∀ keys k, isColumnVisible (hideAllColumns state keys) k = negb (bool_decide (k ∈ keys))) ∧
  (∀ k, isColumnVisible (showAllColumns state) k = true) ∧
  (∀ total, getVisibleColumnCount (showAllColumns state) total = total) ∧
  (isColumnVisible state key = true →
     ∀ total, getVisibleColumnCount (toggleColumnVisibility state key) total =
              getVisibleColumnCount state total - 1).
Proof.
  unfold isColumnVisible, toggleColumnVisibility, hideAllColumns, showAllColumns,
    getVisibleColumnCount. cbn [vis_hiddenColumns dropdownOpen].
  split; [|split; [|split; [|split; [|split; [|split]]]]].
  - destruct (decide (key ∈ vis_hiddenColumns state)) as [Hin|Hout].
    + rewrite (bool_decide_true _ Hin), bool_decide_false; [reflexivity|].
      apply not_elem_of_difference. right. now apply elem_of_singleton.
    + rewrite (bool_decide_false _ Hout), bool_decide_true; [reflexivity|].
      apply elem_of_union. right. now apply elem_of_singleton.
  - intros other Hne. f_equal. apply bool_decide_ext.
    destruct (decide (key ∈ vis_hiddenColumns state)).
    + rewrite elem_of_difference, elem_of_singleton. tauto.
    + rewrite elem_of_union, elem_of_singleton. tauto.
  - destruct state as [hidden open]. cbn [vis_hiddenColumns dropdownOpen]. f_equal.
    destruct (decide (key ∈ hidden)) as [Hin|Hout].
    + rewrite decide_False
        by (rewrite elem_of_difference, elem_of_singleton; tauto).
      apply set_eq. intros k.
      rewrite elem_of_union, elem_of_difference, elem_of_singleton.
      destruct (decide (k = key)) as [->|]; tauto.
    + rewrite decide_True by (rewrite elem_of_union, elem_of_singleton; tauto).
      apply set_eq. intros k.
      rewrite elem_of_difference, elem_of_union, elem_of_singleton.
      destruct (decide (k = key)) as [->|]; tauto.
  - intros keys k. f_equal. apply bool_decide_ext. apply elem_of_list_to_set.
  - intros k. rewrite bool_decide_false; [reflexivity|]. apply not_elem_of_empty.
  - intros total. rewrite size_empty. lia.
  - intros Hvis total. apply negb_true_iff, bool_decide_eq_false in Hvis.
    rewrite decide_False by exact Hvis.
    rewrite size_union by (apply disjoint_singleton_r; exact Hvis).
    rewrite size_singleton. lia.
Qed.

Lemma column_visibility_toggles_witness :
  getVisibleColumnCount
    (toggleColumnVisibility (hideAllColumns createColumnVisibilityState ["a"; "b"]) "c") 6 = 3.
Proof.
  rewrite (proj2 (proj2 (proj2 (proj2 (proj2 (proj2
             (column_visibility_toggles
                (hideAllColumns createColumnVisibilityState ["a"; "b"]) "c"))))))).
  - reflexivity.
  - reflexivity.
Defined.

(** X23.  Resizing by dragging: a move while a column is being resized stores,
    for that column only, the start width plus the pointer travel, never
    above the column's maximum ([maxWidth || 500]) and, when the minimum
    does not exceed the maximum, never below its minimum
    ([minWidth || 50]); [applyCustomWidths] then gives that column the
    stored width and leaves the other columns and all keys alone; a move
    with no resize in progress changes nothing. *)
Theorem handleResizeMove_clamps (clientX : Z) (state : ColumnResizeState)
    (cols : list ColumnConfig) (key : string) (column : ColumnConfig) :
  (resizingColumn state = None → handleResizeMove clientX state cols = state) ∧
  (resizingColumn state = Some key → key ≠ "" →
   List.find (λ c, string_eqb (col_key c) key) cols = Some column →
   let state' := handleResizeMove clientX state cols in
   let lo := numOr (col_minWidth column) 50 in
   let hi := numOr (col_maxWidth column) 500 in
   ∃ w, resize_columnWidths state' !! key = Some w ∧
     w = Z.min hi (Z.max lo (resizeStartWidth state + (clientX - resizeStartX state))) ∧
     w ≤ hi ∧ (lo ≤ hi → lo ≤ w) ∧
     (∀ other, other ≠ key →
        resize_columnWidths state' !! other = resize_columnWidths state !! other) ∧
     resizingColumn state' = Some key ∧
     col_key <$> applyCustomWidths cols (resize_columnWidths state') = col_key <$> cols ∧
     (∀ c, c ∈ applyCustomWidths cols (resize_columnWidths state') →
           col_key c = key → col_width c = Some w)).
Proof.
  split.
  - intros Hnone. unfold handleResizeMove. now rewrite Hnone.
  - intros Hres Hkey Hfind. cbv zeta. unfold handleResizeMove. rewrite Hres.
    apply str_truthy_ne in Hkey. rewrite Hkey. cbn [negb]. rewrite Hfind.
    cbn [resize_columnWidths resizingColumn].
    eexists. split; [apply lookup_insert_eq|]. split; [reflexivity|].
    split; [lia|]. split; [lia|]. split.
    { intros other Hne. now rewrite lookup_insert_ne by congruence. }
    split; [reflexivity|]. split.
    { unfold applyCustomWidths. rewrite <- list_fmap_compose. reflexivity. }
    intros c Hc Hk. unfold applyCustomWidths in Hc.
    apply list_elem_of_fmap in Hc as (col & -> & _). simpl in *.
    now rewrite Hk, lookup_insert_eq.
Qed.

Lemma handleResizeMove_clamps_witness :
  let cols := processColumns frozenLayout in
  let column := processColumn (frozenColumn "name" 1 (Some 120) None) in
  let state := startResize column 300 createColumnResizeState in
  resize_columnWidths (handleResizeMove 1000 state cols) !! "name" = Some 500 ∧
  resize_columnWidths (handleResizeMove 0 state cols) !! "name" = Some 50 ∧
  (endResize (handleResizeMove 340 state cols)).2 =
    [ {| cre_column := "name"; cre_width := 160 |} ].
Proof.
  intros cols column state.
  destruct (proj2 (handleResizeMove_clamps 1000 state cols "name" column))
    as (w & Hw & -> & _); [reflexivity | discriminate | reflexivity |].
  destruct (proj2 (handleResizeMove_clamps 0 state cols "name" column))
    as (w0 & Hw0 & -> & _); [reflexivity | discriminate | reflexivity |].
  split; [exact Hw|]. split; [exact Hw0|]. reflexivity.
Defined.

(** ** Ordering columns *)

Lemma applyColumnOrder_Permutation (cols : list ColumnConfig) (order : list string) :
  applyColumnOrder cols order ≡ₚ cols.
Proof. unfold applyColumnOrder. destruct order; apply js_sort_Permutation. Qed.

Lemma indexOf_nil (key : string) : indexOf [] key = -1.
Proof. reflexivity. Qed.

(** X24.  [applyColumnOrder] rearranges the columns without losing or repeating
    one.  In the result the columns whose keys are in the drag order come
    first, in the order of that list, followed by the others in ascending
    static [order]; with an empty drag order the columns are simply in
    ascending static [order]. *)
Theorem applyColumnOrder_arranges (cols : list ColumnConfig) (order : list string) :
  applyColumnOrder cols order ≡ₚ cols ∧
  StronglySorted (columnBefore order) (applyColumnOrder cols order) ∧
  StronglySorted (λ a b, col_order a ≤ col_order b) (applyColumnOrder cols []).
Proof.
  split; [apply applyColumnOrder_Permutation|].
  assert (Hempty : StronglySorted (λ a b, col_order a ≤ col_order b)
                     (applyColumnOrder cols [])).
  { unfold applyColumnOrder.
    eapply StronglySorted_weaken;
      [|apply (js_sort_sorted (λ a b, col_order a - col_order b))].
    - intros a b. simpl. lia.
    - intros x y. lia.
    - intros x y z. lia. }
  split; [|exact Hempty].
  destruct order as [|k order'].
  - eapply StronglySorted_weaken; [|exact Hempty].
    intros a b Hab. unfold columnBefore. rewrite !indexOf_nil.
    now rewrite decide_True by auto.
  - unfold applyColumnOrder. cbv iota. set (order := k :: order').
    set (idx := λ c : ColumnConfig, indexOf order (col_key c)).
    assert (Hidx : ∀ c, -1 ≤ idx c) by (intros c; apply findIndex_range).
    eapply StronglySorted_weaken; [|apply js_sort_sorted].
    + intros a b. cbv beta. fold (idx a) (idx b). unfold columnBefore. cbv zeta.
      fold (idx a) (idx b). pose proof (Hidx a). pose proof (Hidx b).
      destruct (Z.eqb_spec (idx a) (-1)), (Z.eqb_spec (idx b) (-1)); simpl;
        case_decide; lia.
    + intros x y. cbv beta. fold (idx x) (idx y).
      pose proof (Hidx x). pose proof (Hidx y).
      destruct (Z.eqb_spec (idx x) (-1)), (Z.eqb_spec (idx y) (-1)); simpl; lia.
    + intros x y z. cbv beta. fold (idx x) (idx y) (idx z).
      pose proof (Hidx x). pose proof (Hidx y). pose proof (Hidx z).
      destruct (Z.eqb_spec (idx x) (-1)), (Z.eqb_spec (idx y) (-1)),
               (Z.eqb_spec (idx z) (-1)); simpl; lia.
Qed.

Lemma moveKey_spec (order : list string) (i j : nat) (dragged : string) :
  order !! i = Some dragged → (j < length order)%nat →
  moveKey order i j dragged ≡ₚ order ∧
  length (moveKey order i j dragged) = length order ∧
  moveKey order i j dragged !! j = Some dragged.
Proof.
  intros Hi Hj. unfold moveKey.
  pose proof (lookup_lt_Some _ _ _ Hi) as Hlen.
  assert (Hdel : length (delete i order) = (length order - 1)%nat).
  { rewrite length_delete by eauto. lia. }
  split; [|split].
  - rewrite <- Permutation_middle, take_drop. symmetry. now apply delete_Permutation.
  - rewrite length_app, length_take. simpl. rewrite length_drop. lia.
  - rewrite lookup_app_r by (rewrite length_take; lia).
    rewrite length_take. replace (j - j `min` length (delete i order))%nat with 0%nat by lia.
    reflexivity.
Qed.

(** X25.  Dropping the dragged column on another column moves its key to the
    position that column had and keeps every key in the order list exactly
    once; the drag state is cleared and the move announced with both
    positions.  A drop without a drag in progress, on the dragged column
    itself or on a frozen column changes nothing and announces nothing. *)
Theorem handleDrop_moves_key (column : ColumnConfig) (state : ColumnReorderState)
    (processed : list string → list ColumnConfig) (dragged : string) :
  (draggedColumn state = None → handleDrop column state processed = (state, [])) ∧
  (draggedColumn state = Some dragged →
     dragged = col_key column ∨ truthy (col_frozen column) = true →
     handleDrop column state processed = (state, [])) ∧
  (draggedColumn state = Some dragged → dragged ≠ "" → dragged ≠ col_key column →
   truthy (col_frozen column) = false →
   dragged ∈ reorder_columnOrder state → col_key column ∈ reorder_columnOrder state →
   ∃ order' fromIndex toIndex,
     handleDrop column state processed =
       ({| reorder_columnOrder := order'; draggedColumn := None; dropTargetColumn := None |},
        [ {| cro_columns := processed order'; cro_movedColumn := dragged;
             cro_fromIndex := Z.of_nat fromIndex; cro_toIndex := Z.of_nat toIndex |} ]) ∧
     reorder_columnOrder state !! fromIndex = Some dragged ∧
     reorder_columnOrder state !! toIndex = Some (col_key column) ∧
     order' ≡ₚ reorder_columnOrder state ∧
     order' !! toIndex = Some dragged).
Proof.
  split; [|split].
  - intros Hnone. unfold handleDrop. now rewrite Hnone.
  - intros Hd Hskip. unfold handleDrop. rewrite Hd.
    destruct Hskip as [->|Hf].
    + unfold string_eqb at 1. rewrite bool_decide_true by reflexivity.
      now rewrite orb_true_r.
    + rewrite Hf. now rewrite orb_true_r.
  - intros Hd Hne Hother Hfrozen Hin Hcol. unfold handleDrop. rewrite Hd.
    apply str_truthy_ne in Hne. rewrite Hne, Hfrozen.
    unfold string_eqb at 1. rewrite bool_decide_false by exact Hother. cbn [negb orb].
    set (order := reorder_columnOrder state) in *.
    assert (Hfound : ∀ key, key ∈ order →
              ∃ i, indexOf order key = Z.of_nat i ∧ order !! i = Some key).
    { intros key Hkey. unfold indexOf.
      destruct (Z.le_gt_cases 0 (findIndex (string_eqb key) order)) as [Hge|Hlt].
      - destruct (findIndex_found _ _ Hge) as (x & Hx & Hp).
        unfold string_eqb in Hp. apply bool_decide_eq_true in Hp. subst x.
        exists (Z.to_nat (findIndex (string_eqb key) order)). split; [lia | exact Hx].
      - pose proof (findIndex_absent _ _ Hlt key Hkey) as Hp.
        unfold string_eqb in Hp. now apply bool_decide_eq_false in Hp. }
    destruct (Hfound dragged Hin) as (i & Hi & Hli).
    destruct (Hfound (col_key column) Hcol) as (j & Hj & Hlj).
    rewrite Hi, Hj.
    destruct (Z.leb_spec 0 (Z.of_nat i)); [|lia].
    destruct (Z.leb_spec 0 (Z.of_nat j)); [|lia]. cbn [andb]. rewrite !Nat2Z.id.
    destruct (moveKey_spec order i j dragged Hli (lookup_lt_Some _ _ _ Hlj))
      as (Hperm & _ & Hat).
    exists (moveKey order i j dragged), i, j. repeat split; assumption.
Qed.

Lemma handleDrop_moves_key_witness :
  reorder_columnOrder
    (handleDrop (plainColumn "name" 1)
       {| reorder_columnOrder := ["id"; "name"; "email"; "salary"];
          draggedColumn := Some "salary"; dropTargetColumn := Some "name" |}
       (λ _, [])).1 =
    ["id"; "salary"; "name"; "email"].
Proof.
  set (state := {| reorder_columnOrder := ["id"; "name"; "email"; "salary"];
                   draggedColumn := Some "salary"; dropTargetColumn := Some "name" |}).
  destruct (proj2 (proj2 (handleDrop_moves_key (plainColumn "name" 1) state (λ _, [])
                            "salary")))
    as (order' & i & j & Hdrop & _); try reflexivity; try discriminate.
  - unfold state. simpl. rewrite !elem_of_cons. auto.
  - unfold state. simpl. rewrite !elem_of_cons. auto.
Defined.



(** ** The column pipeline of the component *)

Lemma applyCustomWidths_keys (cols : list ColumnConfig) (widths : gmap string Z) :
  col_key <$> applyCustomWidths cols widths = col_key <$> cols.
Proof.
  unfold applyCustomWidths. rewrite <- list_fmap_compose.
  apply list_fmap_ext. intros i c _. reflexivity.
Qed.

Lemma processColumns_keys (cols : list ColumnConfig) :
  col_key <$> processColumns cols = col_key <$> cols.
Proof.
  unfold processColumns. rewrite <- list_fmap_compose.
  apply list_fmap_ext. intros i c _. reflexivity.
Qed.

Lemma elem_of_filter_bool {A} (p : A → bool) (l : list A) (x : A) :
  x ∈ List.filter p l ↔ x ∈ l ∧ p x = true.
Proof. rewrite !list_elem_of_In. apply filter_In. Qed.

(** X27.  The columns the component lays out, [processedColumns], are a selection
    of the declared and computed columns: their keys are keys of
    [allColumns] with no key occurring more often than there, none of them
    is hidden or marked invisible, each has a width, and a width stored by
    a resize is the width of its column. *)
Theorem processedColumns_selection (t : Table) :
  col_key <$> processedColumns t ⊆+ col_key <$> allColumns t ∧
  (∀ c, c ∈ processedColumns t →
        (col_key c ∉ hiddenColumns t) ∧ col_visible c ≠ Some false ∧
        (∃ w, col_width c = Some w) ∧
        (∀ w, columnWidths t !! col_key c = Some w → col_width c = Some w)).
Proof.
  unfold processedColumns. cbv zeta.
  set (c0 := processColumns (allColumns t)).
  set (c1 := applyCustomWidths c0 (columnWidths t)).
  set (c2 := applyColumnOrder c1 (columnOrder t)).
  set (c3 := applyDynamicFreeze c2 (frozenColumns t)).
  split.
  - transitivity (col_key <$> c3).
    + apply sublist_submseteq, fmap_sublist. unfold getVisibleColumns.
      etransitivity; apply filter_sublist.
    + unfold c3. rewrite applyDynamicFreeze_keys. unfold c2.
      rewrite (fmap_Permutation col_key _ _ (applyColumnOrder_Permutation c1 _)).
      unfold c1, c0. now rewrite applyCustomWidths_keys, processColumns_keys.
  - intros c Hc. unfold getVisibleColumns in Hc.
    apply elem_of_filter_bool in Hc as [Hc Hvis].
    apply elem_of_filter_bool in Hc as [Hc Hhid].
    apply negb_true_iff, bool_decide_eq_false in Hvis.
    apply negb_true_iff, bool_decide_eq_false in Hhid.
    split; [exact Hhid|]. split; [exact Hvis|].
    unfold c3, applyDynamicFreeze in Hc. apply list_elem_of_fmap in Hc as (c' & -> & Hc').
    assert (Hw : (∃ w, col_width c' = Some w) ∧
                 (∀ w, columnWidths t !! col_key c' = Some w → col_width c' = Some w)).
    { unfold c2 in Hc'. rewrite (applyColumnOrder_Permutation c1 _) in Hc'.
      unfold c1, applyCustomWidths in Hc'.
      apply list_elem_of_fmap in Hc' as (c'' & -> & Hc'').
      unfold c0, processColumns in Hc''.
      apply list_elem_of_fmap in Hc'' as (c''' & -> & _).
      cbn [with_width processColumn col_key col_width].
      destruct (columnWidths t !! col_key c''') as [w|]; split.
      - eauto.
      - now intros w' [= <-].
      - destruct (col_width c''') as [w|]; simpl; eauto.
      - discriminate. }
    destruct (frozenColumns t !! col_key c') as [[p|]|]; exact Hw.
Qed.

Lemma processedColumns_selection_witness :
  ∃ w, col_width (processColumn (frozenColumn "id" 0 (Some 80) (Some FrozenLeft))) = Some w.
Proof.
  assert (Hin : processColumn (frozenColumn "id" 0 (Some 80) (Some FrozenLeft)) ∈
                processedColumns frozenTable).
  { apply list_elem_of_lookup. exists 0%nat. reflexivity. }
  destruct (proj2 (processedColumns_selection frozenTable) _ Hin) as (_ & _ & Hw & _).
  exact Hw.
Defined.

(** ** The list of computed columns *)

(** X28.  Saving the computed-column form does nothing while the title is blank.
    With a title it closes the dialog and, when no column is being edited,
    appends the column after the existing ones; when one is being edited,
    it replaces the columns with the form's key in place, so the list keeps
    its length and the keys keep their positions.  Removing a key leaves no
    column with that key and keeps the others in order. *)
Theorem computed_column_list_edits (column : ComputedColumnDefinition)
    (state : ComputedColumnsState) :
  (trim (cc_title column) = "" → saveComputedColumn column state = state) ∧
  (trim (cc_title column) ≠ "" →
     modalOpen (saveComputedColumn column state) = false ∧
     editingColumn (saveComputedColumn column state) = None ∧
     (editingColumn state = None →
        computedColumns (saveComputedColumn column state) =
          (computedColumns state ++ [column])%list) ∧
     (editingColumn state ≠ None →
        cc_key <$> computedColumns (saveComputedColumn column state) =
          cc_key <$> computedColumns state ∧
        ∀ i c, computedColumns state !! i = Some c →
               computedColumns (saveComputedColumn column state) !! i =
                 Some (if decide (cc_key c = cc_key column) then column else c))) ∧
  (∀ key,
     (key ∉ cc_key <$> computedColumns (removeComputedColumn state key)) ∧
     computedColumns (removeComputedColumn state key) `sublist_of` computedColumns state ∧
     ∀ c, c ∈ computedColumns state → cc_key c ≠ key →
          c ∈ computedColumns (removeComputedColumn state key)).
Proof.
  split; [|split].
  - intros Hblank. unfold saveComputedColumn.
    apply str_truthy_empty in Hblank. now rewrite Hblank.
  - intros Htitle. unfold saveComputedColumn.
    apply str_truthy_ne in Htitle. rewrite Htitle. cbn [negb].
    split; [reflexivity|]. split; [reflexivity|]. split.
    + intros ->. reflexivity.
    + intros Hedit. destruct (editingColumn state) as [e|]; [|contradiction].
      cbn [closeComputedColumnModal updateComputedColumn computedColumns]. split.
      * rewrite <- list_fmap_compose. apply list_fmap_ext. intros i c _. simpl.
        unfold string_eqb. case_bool_decide; congruence.
      * intros i c Hi. rewrite list_lookup_fmap, Hi. simpl. f_equal.
        unfold string_eqb. case_bool_decide; case_decide; congruence.
  - intros key. cbn [removeComputedColumn computedColumns]. split; [|split].
    + intros Hin. apply list_elem_of_fmap in Hin as (c & -> & Hc).
      apply list_elem_of_filter in Hc as [Hne _]. now apply Hne.
    + apply sublist_filter.
    + intros c Hc Hne. apply list_elem_of_filter. now split.
Qed.

Lemma computed_column_list_edits_witness :
  computedColumns (saveComputedColumn tieredColumn createComputedColumnsState) =
  [tieredColumn].
Proof.
  destruct (proj1 (proj2 (computed_column_list_edits tieredColumn
                            createComputedColumnsState)))
    as (_ & _ & Hadd & _); [discriminate|].
  exact (Hadd eq_refl).
Defined.

(** ** Colors *)

(** Every background of the palette has the text color of its palette
    entry; a background outside the palette, like the empty "no color"
    background, has no text color. *)
Lemma getTextColorForBackground_palette (background : string) :
  (∀ c, c ∈ COLOR_PALETTE → getTextColorForBackground (co_value c) = co_textColor c) ∧
  (background ∉ co_value <$> COLOR_PALETTE → getTextColorForBackground background = "") ∧
  getTextColorForBackground "" = "".
Proof.
  split; [|split; [|reflexivity]].
  - assert (H : forallb (λ c, string_eqb (getTextColorForBackground (co_value c))
                                         (co_textColor c)) COLOR_PALETTE = true)
      by (vm_compute; reflexivity).
    intros c Hc. rewrite forallb_forall in H.
    apply list_elem_of_In, H in Hc. unfold string_eqb in Hc.
    now apply bool_decide_eq_true in Hc.
  - intros Hout. unfold getTextColorForBackground.
    destruct (find _ COLOR_PALETTE) as [c|] eqn:Hfind; [|reflexivity].
    apply find_some in Hfind as [Hin Heq]. unfold string_eqb in Heq.
    apply bool_decide_eq_true in Heq. exfalso. apply Hout.
    apply list_elem_of_fmap. exists c. split; [congruence | now apply list_elem_of_In].
Qed.

Lemma getTextColorForBackground_palette_witness :
  getTextColorForBackground "#123456" = "".
Proof.
  apply (proj1 (proj2 (getTextColorForBackground_palette "#123456"))).
  intros Hin. apply list_elem_of_In in Hin. simpl in Hin.
  repeat (destruct Hin as [Hin|Hin]; [discriminate|]). exact Hin.
Defined.

Lemma getOrEmpty_setOrDelete `{Countable K} (key key' : K) (color : string)
    (map : gmap K string) :
  getOrEmpty (setOrDelete key color map) key' =
  if decide (key = key') then color else getOrEmpty map key'.
Proof.
  unfold getOrEmpty, setOrDelete. destruct (str_truthy color) eqn:Hc.
  - rewrite lookup_insert. case_decide; [now rewrite Hc | reflexivity].
  - rewrite lookup_delete. case_decide; [|reflexivity].
    symmetry. now apply str_truthy_empty.
Qed.

(** X29.  Reading back a color: after a row, column or cell is given a color, its
    getter returns that color (the empty string after a clear) and every
    other row, column or cell reads as before; a cell is identified by the
    text of its row key and its column key.  The color shown in a cell is
    the cell's own color when it has one, else its row's, else its
    column's. *)
Theorem color_read_back (state : ColoringState) (rowKey : value) (columnKey : string)
    (color : string) :
  (∀ rowKey', getRowColor (setRowColor state rowKey color) rowKey' =
              if decide (rowKey = rowKey') then color else getRowColor state rowKey') ∧
  (∀ columnKey', getColumnColor (setColumnColor state columnKey color) columnKey' =
                 if decide (columnKey = columnKey') then color
                 else getColumnColor state columnKey') ∧
  (∀ rowKey' columnKey',
     getCellColor (setCellColor state rowKey columnKey color) rowKey' columnKey' =
     if decide (getCellKey rowKey columnKey = getCellKey rowKey' columnKey') then color
     else getCellColor state rowKey' columnKey') ∧
  (color ≠ "" →
     getResolvedCellColor (setCellColor state rowKey columnKey color) rowKey columnKey
       = color) ∧
  (color ≠ "" → getCellColor state rowKey columnKey = "" →
     getResolvedCellColor (setRowColor state rowKey color) rowKey columnKey = color) ∧
  (getCellColor state rowKey columnKey = "" → getRowColor state rowKey = "" →
     getResolvedCellColor (setColumnColor state columnKey color) rowKey columnKey = color).
Proof.
  assert (Hrow : ∀ rowKey', getRowColor (setRowColor state rowKey color) rowKey' =
              if decide (rowKey = rowKey') then color else getRowColor state rowKey')
    by (intros; apply getOrEmpty_setOrDelete).
  assert (Hcol : ∀ columnKey', getColumnColor (setColumnColor state columnKey color) columnKey' =
                 if decide (columnKey = columnKey') then color
                 else getColumnColor state columnKey')
    by (intros; apply getOrEmpty_setOrDelete).
  assert (Hcell : ∀ rowKey' columnKey',
     getCellColor (setCellColor state rowKey columnKey color) rowKey' columnKey' =
     if decide (getCellKey rowKey columnKey = getCellKey rowKey' columnKey') then color
     else getCellColor state rowKey' columnKey')
    by (intros; apply getOrEmpty_setOrDelete).
  split; [exact Hrow|]. split; [exact Hcol|]. split; [exact Hcell|].
  split; [|split].
  - intros Hne. unfold getResolvedCellColor. cbv zeta.
    rewrite Hcell, decide_True by reflexivity.
    apply str_truthy_ne in Hne. now rewrite Hne.
  - intros Hne Hnocell. unfold getResolvedCellColor. cbv zeta.
    change (getCellColor (setRowColor state rowKey color) rowKey columnKey)
      with (getCellColor state rowKey columnKey).
    rewrite Hnocell. change (str_truthy "") with false. cbv iota.
    rewrite Hrow, decide_True by reflexivity.
    apply str_truthy_ne in Hne. now rewrite Hne.
  - intros Hnocell Hnorow. unfold getResolvedCellColor. cbv zeta.
    change (getCellColor (setColumnColor state columnKey color) rowKey columnKey)
      with (getCellColor state rowKey columnKey).
    change (getRowColor (setColumnColor state columnKey color) rowKey)
      with (getRowColor state rowKey).
    rewrite Hnocell, Hnorow. change (str_truthy "") with false. cbv iota.
    rewrite Hcol, decide_True by reflexivity.
    destruct (str_truthy color) eqn:Hc; [reflexivity|].
    symmetry. now apply str_truthy_empty.
Qed.

Lemma color_read_back_witness :
  getResolvedCellColor (setRowColor createColoringState (VNum 1) "#fee2e2")
    (VNum 1) "name" = "#fee2e2".
Proof.
  destruct (color_read_back createColoringState (VNum 1) "name" "#fee2e2")
    as (_ & _ & _ & _ & Hrow & _).
  apply Hrow; [discriminate | reflexivity].
Defined.

(** ** Resetting the table *)

(** X30.  After [resetAll] the table shows its data again as given: no filter and
    no sort is active, the filtered and the sorted rows are the raw rows,
    the cursor is on page 1 with the page size kept, nothing is selected
    and no cell has a background or text color.  The column layout and the
    scroll position are not touched, one event of each of the three kinds
    is emitted with an empty payload, and a second reset changes
    nothing. *)
Theorem resetAll_restores (localeCompare : string → string → Z) (t : Table) :
  let t' := (resetAll t).1 in
  filters (filteringState t') = [] ∧
  sorts (sortingState t') = [] ∧
  filteredData t' = data t ∧
  sortedData localeCompare t' = data t ∧
  paginationState t' = {| currentPage := 1; pageSize := pageSize (paginationState t) |} ∧
  selectedRows (selectionState t') = ∅ ∧
  (∀ row columnKey, getCellBackgroundColor t' row columnKey = "" ∧
                    getCellTextColor t' row columnKey = "") ∧
  processedColumns t' = processedColumns t ∧
  virtualScrollState t' = virtualScrollState t ∧
  (resetAll t).2 =
    ([ {| rse_selected := []; rse_row := None; rse_isSelected := false |} ],
     [ mkSortChange [] ], [ mkFilterChange [] ]) ∧
  resetAll t' = resetAll t.
Proof.
  cbv zeta. repeat split.
Qed.
